(** * mcpcli.transport.stdio.stdio_client: a shallow embedding

    The module drives a child process over its standard input and output
    with newline-delimited JSON-RPC.  This development embeds

    - the parameter validation and process launch of [stdio_client],
    - [process_json_line] and the [stdout_reader] loop,
    - the encoding step of [stdin_writer],
    - [terminate_process],

    and proves the properties the specification states about them.

    Python text is modelled by [string]; a character stands for the code
    point of the same number.  Exceptions, logging calls, sends on the
    inbound channel and process signals are explicit: a computation is a
    function from a world to an outcome and a new world. *)

From Stdlib Require Import ZArith QArith Lia Lqa Ascii String List Bool.
From Stdlib Require Import DecimalFacts DecimalPos DecimalN.
From stdpp Require Import base option list strings gmap fin_maps.

Local Open Scope Z_scope.
Local Open Scope nat_scope.

#[local] Arguments String.append !s1 s2 / : simpl nomatch.

(** ** Exceptions *)

(** The exception classes the module meets.  [CancelledError] and
    [KeyboardInterrupt] derive from [BaseException] only, every other
    class derives from [Exception]. *)
Inductive exn : Type :=
  | JSONDecodeError
  | ValidationError
  | ClosedResourceError
  | BrokenResourceError
  | TimeoutError
  | ValueError (msg : string)
  | AssertionError (msg : string)
  | IndexError
  | ProcessLookupError
  | PermissionError
  | FileNotFoundError
  | RuntimeError (msg : string)
  | CancelledError
  | KeyboardInterrupt.

Definition is_Exception (e : exn) : bool :=
  match e with
  | CancelledError | KeyboardInterrupt => false
  | _ => true
  end.

Definition is_JSONDecodeError (e : exn) : bool :=
  match e with JSONDecodeError => true | _ => false end.

Definition is_ClosedResourceError (e : exn) : bool :=
  match e with ClosedResourceError => true | _ => false end.

Definition is_TimeoutError (e : exn) : bool :=
  match e with TimeoutError => true | _ => false end.

(** ** Computations with state and exceptions *)

Inductive outcome (A : Type) : Type :=
  | Returned (a : A)
  | Raised (e : exn).
Arguments Returned {A} a.
Arguments Raised {A} e.

Definition Py (W A : Type) : Type := W -> outcome A * W.

Definition ret {W A} (a : A) : Py W A := fun w => (Returned a, w).

Definition bind {W A B} (m : Py W A) (k : A -> Py W B) : Py W B :=
  fun w =>
    match m w with
    | (Returned a, w') => k a w'
    | (Raised e, w') => (Raised e, w')
    end.

Definition raise {W A} (e : exn) : Py W A := fun w => (Raised e, w).

Definition or_raise {W A} (e : exn) (o : option A) : Py W A :=
  match o with
  | Some a => ret a
  | None => raise e
  end.

Notation "x <- c1 ;; c2" := (bind c1 (fun x => c2))
  (at level 20, c1 at level 99, c2 at level 200, right associativity).
Notation "c1 ;; c2" := (bind c1 (fun _ => c2))
  (at level 100, c2 at level 200, right associativity).

(** [try: body except ...]: [handler e] is the body of the first [except]
    clause that matches [e], if one does. *)
Definition try_except {W A} (body : Py W A) (handler : exn -> option (Py W A))
  : Py W A :=
  fun w =>
    match body w with
    | (Returned a, w') => (Returned a, w')
    | (Raised e, w') =>
        match handler e with
        | Some h => h w'
        | None => (Raised e, w')
        end
    end.

(** [try: body finally: fin]. *)
Definition try_finally {W A} (body : Py W A) (fin : Py W unit) : Py W A :=
  fun w =>
    match body w with
    | (r, w') =>
        match fin w' with
        | (Returned _, w'') => (r, w'')
        | (Raised e, w'') => (Raised e, w'')
        end
    end.

(** [for x in xs: body x]. *)
Fixpoint for_each {W A} (xs : list A) (body : A -> Py W unit) : Py W unit :=
  match xs with
  | [] => ret tt
  | x :: xs' => body x ;; for_each xs' body
  end.

(** ** Text *)

Definition newline : ascii := "010"%char.

(** [str.isspace] on one character, for the code points below 256. *)
Definition isspace (c : ascii) : bool :=
  let n := N_of_ascii c in
  (((9 <=? n) && (n <=? 13)) || ((28 <=? n) && (n <=? 32))
   || (n =? 133) || (n =? 160))%N.

Fixpoint lstrip (s : string) : string :=
  match s with
  | EmptyString => EmptyString
  | String c s' => if isspace c then lstrip s' else s
  end.

Fixpoint rstrip (s : string) : string :=
  match s with
  | EmptyString => EmptyString
  | String c s' =>
      match rstrip s' with
      | EmptyString => if isspace c then EmptyString else String c EmptyString
      | r => String c r
      end
  end.

(** [s.strip()] *)
Definition strip (s : string) : string := rstrip (lstrip s).

(** Truth value of a [str]: the empty string is false. *)
Definition truthy (s : string) : bool :=
  match s with EmptyString => false | _ => true end.

(** [s.split("\n")]: never the empty list. *)
Fixpoint split_nl (s : string) : list string :=
  match s with
  | EmptyString => [EmptyString]
  | String c s' =>
      if Ascii.eqb c newline then EmptyString :: split_nl s'
      else match split_nl s' with
           | [] => [String c EmptyString]
           | l :: ls => String c l :: ls
           end
  end.

(** [lines.pop()]: the last element, and the list without it; [IndexError]
    on the empty list. *)
Fixpoint pop {A} (l : list A) : option (list A * A) :=
  match l with
  | [] => None
  | [x] => Some ([], x)
  | x :: l' =>
      match pop l' with
      | Some (init, y) => Some (x :: init, y)
      | None => None
      end
  end.

(** ** Logging *)

Inductive level : Type := DEBUG | INFO | WARNING | ERROR.

Section Reader.

Context {Data Message : Type}.

(** [json.loads] and [JSONRPCMessage.model_validate]: [None] stands for the
    exception each one raises on bad input, [json.JSONDecodeError] and
    pydantic's [ValidationError]. *)
Variable json_loads : string -> option Data.
Variable model_validate : Data -> option Message.

(** The calls of [logging] in [process_json_line] and [stdout_reader], one
    constructor for each format string. *)
Inductive reader_msg : Type :=
  | Processing_line (stripped : string)
  | Parsed_JSON_data (data : Data)
  | Validated_JSONRPCMessage (message : Message)
  | JSON_decode_error (exc : exn) (stripped : string)
  | Error_processing_message (exc : exn) (stripped : string)
  | Traceback (exc : exn)
  | Starting_stdout_reader
  | Read_stream_closed
  | Unexpected_error_in_stdout_reader (exc : exn)
  | Exiting_stdout_reader.

Inductive event : Type :=
  | Log (lvl : level) (msg : reader_msg)
  | Send (message : Message).

(** The reader's world: the send end of the inbound channel (a memory object
    stream of capacity 0) and everything done so far, oldest first.
    [send_closed] is the send stream's own [_closed] flag, [receivers_open]
    says whether a receive stream is still open. *)
Record world : Type := mkWorld {
  send_closed : bool;
  receivers_open : bool;
  trace : list event
}.

Definition emit (ev : event) : Py world unit :=
  fun w => (Returned tt,
            mkWorld (send_closed w) (receivers_open w) (trace w ++ [ev])).

Definition logging (lvl : level) (msg : reader_msg) : Py world unit :=
  emit (Log lvl msg).

(** [await writer.send(message)]: a closed send stream raises
    [ClosedResourceError], a channel without receiver [BrokenResourceError];
    on an open channel the receiver takes the message.  The state of the
    channel does not change while the reader runs. *)
Definition send (message : Message) : Py world unit :=
  fun w =>
    if send_closed w then (Raised ClosedResourceError, w)
    else if negb (receivers_open w) then (Raised BrokenResourceError, w)
    else emit (Send message) w.

(** Leaving [async with read_stream_writer] closes the send stream. *)
Definition aclose : Py world unit :=
  fun w => (Returned tt, mkWorld true (receivers_open w) (trace w)).

Definition async_with_writer {A} (body : Py world A) : Py world A :=
  try_finally body aclose.

Definition process_json_line (line : string) : Py world unit :=
  try_except
    (logging DEBUG (Processing_line (strip line)) ;;
     data <- or_raise JSONDecodeError (json_loads line) ;;
     logging DEBUG (Parsed_JSON_data data) ;;
     message <- or_raise ValidationError (model_validate data) ;;
     logging DEBUG (Validated_JSONRPCMessage message) ;;
     send message)
    (fun exc =>
       if is_JSONDecodeError exc then
         Some (logging ERROR (JSON_decode_error exc (strip line)))
       else if is_Exception exc then
         Some (logging ERROR (Error_processing_message exc (strip line)) ;;
               logging DEBUG (Traceback exc))
       else None).

(** What [TextReceiveStream(process.stdout)] yields: the chunks, then the
    end of the stream or an exception of the read. *)
Inductive stream_end : Type :=
  | EndOfStream
  | ReadError (e : exn).

Record text_stream : Type := mkStream {
  chunks : list string;
  ending : stream_end
}.

(** The body of the [async for]: one chunk. *)
Definition on_chunk (buffer chunk : string) : Py world string :=
  match pop (split_nl (buffer +:+ chunk)) with
  | None => raise IndexError
  | Some (lines, buffer') =>
      for_each lines
        (fun line =>
           if truthy (strip line) then process_json_line line else ret tt) ;;
      ret buffer'
  end.

(** The [async for] over the chunks; the result is the buffer at the end. *)
Fixpoint read_chunks (buffer : string) (cs : list string) (fin : stream_end)
  : Py world string :=
  match cs with
  | [] =>
      match fin with
      | EndOfStream => ret buffer
      | ReadError e => raise e
      end
  | chunk :: cs' =>
      buffer' <- on_chunk buffer chunk ;;
      read_chunks buffer' cs' fin
  end.

(** The block under [async with read_stream_writer]. *)
Definition reader_body (s : text_stream) : Py world unit :=
  buffer <- read_chunks EmptyString (chunks s) (ending s) ;;
  if truthy (strip buffer) then process_json_line buffer else ret tt.

Definition stdout_reader (stdout : option text_stream) : Py world unit :=
  match stdout with
  | None => raise (AssertionError "Opened process is missing stdout")
  | Some s =>
      logging DEBUG Starting_stdout_reader ;;
      try_finally
        (try_except
           (async_with_writer (reader_body s))
           (fun exc =>
              if is_ClosedResourceError exc then
                Some (logging DEBUG Read_stream_closed)
              else if is_Exception exc then
                Some (logging ERROR (Unexpected_error_in_stdout_reader exc) ;;
                      logging DEBUG (Traceback exc) ;;
                      raise exc)
              else None))
        (logging DEBUG Exiting_stdout_reader)
  end.

(** *** Derived notions used in the statements *)

(** The two places that call [process_json_line] guard it the same way. *)
Definition process_if_nonblank (line : string) : Py world unit :=
  if truthy (strip line) then process_json_line line else ret tt.

(** Decoding of one line: parse, then validate. *)
Definition decode (line : string) : option Message :=
  match json_loads line with
  | Some data => model_validate data
  | None => None
  end.

(** The messages sent on the inbound channel, oldest first. *)
Fixpoint sent (t : list event) : list Message :=
  match t with
  | [] => []
  | Send m :: t' => m :: sent t'
  | Log _ _ :: t' => sent t'
  end.

(** The lines handed to [process_json_line], as it logs them on entry. *)
Fixpoint attempts (t : list event) : list string :=
  match t with
  | [] => []
  | Log _ (Processing_line s) :: t' => s :: attempts t'
  | _ :: t' => attempts t'
  end.

(** The records logged at level [ERROR]. *)
Fixpoint errors (t : list event) : list reader_msg :=
  match t with
  | [] => []
  | Log ERROR msg :: t' => msg :: errors t'
  | _ :: t' => errors t'
  end.

Definition channel_open (w : world) : Prop :=
  send_closed w = false /\ receivers_open w = true.

Definition channel_closed (w : world) : Prop :=
  send_closed w = true \/ receivers_open w = false.

Definition nonblank (line : string) : bool := truthy (strip line).

(** The world after some more events. *)
Definition grow (w : world) (evs : list event) : world :=
  mkWorld (send_closed w) (receivers_open w) (trace w ++ evs).

(** What one call of [process_json_line] adds to the trace, by the state
    [sc], [ro] of the channel. *)
Definition line_events (sc ro : bool) (line : string) : list event :=
  Log DEBUG (Processing_line (strip line)) ::
  match json_loads line with
  | None => [Log ERROR (JSON_decode_error JSONDecodeError (strip line))]
  | Some data =>
      Log DEBUG (Parsed_JSON_data data) ::
      match model_validate data with
      | None =>
          [Log ERROR (Error_processing_message ValidationError (strip line));
           Log DEBUG (Traceback ValidationError)]
      | Some message =>
          Log DEBUG (Validated_JSONRPCMessage message) ::
          if sc then
            [Log ERROR
               (Error_processing_message ClosedResourceError (strip line));
             Log DEBUG (Traceback ClosedResourceError)]
          else if negb ro then
            [Log ERROR
               (Error_processing_message BrokenResourceError (strip line));
             Log DEBUG (Traceback BrokenResourceError)]
          else [Send message]
      end
  end.

(** What the non-blank lines among [lines] add to the trace, in order. *)
Definition lines_events (sc ro : bool) (lines : list string) : list event :=
  concat (map (line_events sc ro) (List.filter nonblank lines)).

End Reader.

(** ** Framing: the text of a stream, its lines and its last fragment *)

(** The text a list of chunks carries. *)
Definition joined (cs : list string) : string := foldr append EmptyString cs.

(** The newline-terminated lines of a text (without their newline) and the
    fragment after the last newline. *)
Fixpoint frame (s : string) : list string * string :=
  match s with
  | EmptyString => ([], EmptyString)
  | String c s' =>
      let '(ls, r) := frame s' in
      if Ascii.eqb c newline then (EmptyString :: ls, r)
      else match ls with
           | [] => ([], String c r)
           | l :: ls' => (String c l :: ls', r)
           end
  end.

Definition complete_lines (s : string) : list string := (frame s).1.
Definition fragment (s : string) : string := (frame s).2.

Fixpoint has_newline (s : string) : bool :=
  match s with
  | EmptyString => false
  | String c s' => Ascii.eqb c newline || has_newline s'
  end.

(** A line followed by its terminator, and a sequence of such lines. *)
Definition terminated (l : string) : string := l +:+ String newline EmptyString.
Definition lines_text (ls : list string) : string := joined (map terminated ls).

(** ** Opening a session: [stdio_client] up to its [yield] *)

(** Modelled from the spec: [StdioServerParameters], whose declaration is in
    [mcpcli.transport.stdio.stdio_server_parameters].  [command] is the
    executable, [args] a Python value that is a list, a tuple or a single
    string, [env] an optional mapping of environment variables. *)
Inductive args_value : Type :=
  | ArgsList (items : list string)
  | ArgsTuple (items : list string)
  | ArgsStr (s : string).

Record StdioServerParameters : Type := mkParams {
  command : string;
  args : args_value;
  env : option (gmap string string)
}.

(** [isinstance(v, (list, tuple))] *)
Definition is_list_or_tuple (v : args_value) : bool :=
  match v with
  | ArgsList _ | ArgsTuple _ => true
  | ArgsStr _ => false
  end.

(** [*v] in a list display: the items of a list or tuple, the characters of
    a string. *)
Definition unpack (v : args_value) : list string :=
  match v with
  | ArgsList items | ArgsTuple items => items
  | ArgsStr s => map (fun c => String c EmptyString) (list_ascii_of_string s)
  end.

(** [{**d1, **d2}]: the entries of [d2] win. *)
Definition dict_merge (d1 d2 : gmap string string) : gmap string string :=
  d2 ∪ d1.

(** [e or {}] *)
Definition or_empty (e : option (gmap string string)) : gmap string string :=
  match e with
  | Some d => d
  | None => ∅
  end.

Record process : Type := mkProcess {
  pid : Z;
  argv : list string;
  environ : gmap string string
}.

Inductive open_event : Type :=
  | Create_memory_object_stream (capacity : nat)
  | Open_process (cmdline : list string) (environment : gmap string string)
  | Log_subprocess_started (p : Z) (cmd : string).

(** The parameters the validation at the head of [stdio_client] refuses. *)
Definition invalid_parameters (server : StdioServerParameters) : Prop :=
  command server = EmptyString \/ is_list_or_tuple (args server) = false.

Section Open.

(** The mapping [get_default_environment()] returns; the function is in
    [mcpcli.environment]. *)
Variable default_environment : gmap string string.

(** What the operating system answers to a launch: a process id, or the
    exception [anyio.open_process] raises. *)
Variable os_spawn : list string -> gmap string string -> outcome Z.

(** The environment the child is launched with. *)
Definition launch_environment (server : StdioServerParameters)
  : gmap string string :=
  dict_merge default_environment (or_empty (env server)).

Definition act (ev : open_event) : Py (list open_event) unit :=
  fun t => (Returned tt, t ++ [ev]).

Definition open_process (cmdline : list string)
    (environment : gmap string string) : Py (list open_event) process :=
  act (Open_process cmdline environment) ;;
  match os_spawn cmdline environment with
  | Returned p => ret (mkProcess p cmdline environment)
  | Raised e => raise e
  end.

(** [stdio_client(server)] from entry to the point where the process has
    been started. *)
Definition stdio_client (server : StdioServerParameters)
  : Py (list open_event) process :=
  (if negb (truthy (command server))
   then raise (ValueError "Server command must not be empty.")
   else ret tt) ;;
  (if negb (is_list_or_tuple (args server))
   then raise (ValueError "Server arguments must be a list or tuple.")
   else ret tt) ;;
  act (Create_memory_object_stream 0) ;;
  act (Create_memory_object_stream 0) ;;
  proc <- open_process
            (command server :: unpack (args server))
            (launch_environment server) ;;
  act (Log_subprocess_started (pid proc) (command server)) ;;
  ret proc.

End Open.

(** The resources a run has acquired: channels created, launches tried. *)
Definition acquisitions (t : list open_event) : list open_event :=
  List.filter (fun ev => match ev with
                         | Log_subprocess_started _ _ => false
                         | _ => true
                         end) t.

(** ** [terminate_process] *)

(** What sending a signal to the child can raise: the process is gone, or
    the caller may not signal it.  Neither is a [TimeoutError]. *)
Inductive signal_error : Type := NoSuchProcess | NotPermitted.

Definition exn_of_signal_error (e : signal_error) : exn :=
  match e with
  | NoSuchProcess => ProcessLookupError
  | NotPermitted => PermissionError
  end.

(** The child as [terminate_process] meets it.  [returncode] is
    [process.returncode] on entry; [on_terminate] and [on_kill] say what
    [process.terminate()] and [process.kill()] raise, if anything;
    [exit_after] is the time from the start of [process.wait()] to the
    child's exit together with its exit code, [None] when it never exits. *)
Record child : Type := mkChild {
  returncode : option Z;
  on_terminate : option signal_error;
  exit_after : option (Q * Z);
  on_kill : option signal_error
}.

Inductive term_msg : Type :=
  | Terminating_subprocess
  | Process_already_terminated
  | Process_did_not_terminate_gracefully
  | Error_killing_process (exc : exn)
  | Error_during_process_termination (exc : exn).

Inductive term_event : Type :=
  | TLog (lvl : level) (msg : term_msg)
  | Call_terminate
  | Call_wait (deadline : Q)
  | Call_kill.

(** Time spent so far and what has been done, oldest first. *)
Record term_world : Type := mkTermWorld {
  clock : Q;
  done_so_far : list term_event
}.

Definition tdo (ev : term_event) : Py term_world unit :=
  fun w => (Returned tt, mkTermWorld (clock w) (done_so_far w ++ [ev])).

Definition tlogging (lvl : level) (msg : term_msg) : Py term_world unit :=
  tdo (TLog lvl msg).

Definition advance (d : Q) : Py term_world unit :=
  fun w => (Returned tt, mkTermWorld (clock w + d) (done_so_far w)).

Definition send_signal (ev : term_event) (result : option signal_error)
  : Py term_world unit :=
  tdo ev ;;
  match result with
  | Some e => raise (exn_of_signal_error e)
  | None => ret tt
  end.

(** [with anyio.fail_after(t): await process.wait()]: the exit code if the
    child exits before the deadline, [TimeoutError] at the deadline
    otherwise. *)
Definition wait_fail_after (t : Q) (c : child) : Py term_world Z :=
  tdo (Call_wait t) ;;
  match exit_after c with
  | Some (d, code) =>
      if Qle_bool t d then advance t ;; raise TimeoutError
      else advance d ;; ret code
  | None => advance t ;; raise TimeoutError
  end.

Definition terminate_process (c : child) : Py term_world unit :=
  try_except
    (match returncode c with
     | None =>
         tlogging DEBUG Terminating_subprocess ;;
         send_signal Call_terminate (on_terminate c) ;;
         wait_fail_after 5 c ;;
         ret tt
     | Some _ => tlogging INFO Process_already_terminated
     end)
    (fun exc =>
       if is_TimeoutError exc then
         Some (tlogging WARNING Process_did_not_terminate_gracefully ;;
               try_except
                 (send_signal Call_kill (on_kill c))
                 (fun kill_exc =>
                    if is_Exception kill_exc then
                      Some (tlogging ERROR (Error_killing_process kill_exc))
                    else None))
       else if is_Exception exc then
         Some (tlogging ERROR (Error_during_process_termination exc))
       else None).

(** The calls made on the process, without the log records. *)
Definition calls (t : list term_event) : list term_event :=
  List.filter (fun ev => match ev with TLog _ _ => false | _ => true end) t.

(** The child exits before [t] has passed. *)
Definition exits_before (t : Q) (c : child) : bool :=
  match exit_after c with
  | Some (d, _) => negb (Qle_bool t d)
  | None => false
  end.

(** ** The message codec *)

(** *** JSON values and their text *)

(** What [json.loads] returns and what the fields of a message hold.  A
    number is an integer: numbers with a fraction or an exponent are floating
    point in Python and are not part of this model.  An object keeps its
    members in insertion order, as a [dict] does. *)
#[local] Unset Elimination Schemes.
Inductive json : Type :=
  | JNull
  | JBool (b : bool)
  | JNumber (n : Z)
  | JString (s : string)
  | JArray (items : list json)
  | JObject (members : list (string * json)).
#[local] Set Elimination Schemes.

Definition dquote : ascii := "034"%char.
Definition backslash : ascii := "092"%char.

Definition str1 (c : ascii) : string := String c EmptyString.

Definition hex_digit (n : N) : ascii :=
  if (n <? 10)%N then ascii_of_N (48 + n) else ascii_of_N (87 + n).

(** One character inside a JSON string: the quote, the backslash and the
    control characters are escaped, every other character stands for
    itself. *)
Definition escape_char (c : ascii) : string :=
  let n := N_of_ascii c in
  if Ascii.eqb c dquote then String backslash (str1 dquote)
  else if Ascii.eqb c backslash then String backslash (str1 backslash)
  else if (n =? 8)%N then String backslash "b"
  else if (n =? 12)%N then String backslash "f"
  else if (n =? 10)%N then String backslash "n"
  else if (n =? 13)%N then String backslash "r"
  else if (n =? 9)%N then String backslash "t"
  else if (n <? 32)%N then
    String backslash
      (String "u" (String "0" (String "0"
         (String (hex_digit (n / 16)) (str1 (hex_digit (n mod 16)))))))
  else str1 c.

Fixpoint escape (s : string) : string :=
  match s with
  | EmptyString => EmptyString
  | String c s' => escape_char c +:+ escape s'
  end.

Definition dump_string (s : string) : string :=
  String dquote (escape s +:+ str1 dquote).

(** The decimal digits of a number, most significant first. *)
Fixpoint string_of_uint (d : Decimal.uint) : string :=
  match d with
  | Decimal.Nil => EmptyString
  | Decimal.D0 d => String "0" (string_of_uint d)
  | Decimal.D1 d => String "1" (string_of_uint d)
  | Decimal.D2 d => String "2" (string_of_uint d)
  | Decimal.D3 d => String "3" (string_of_uint d)
  | Decimal.D4 d => String "4" (string_of_uint d)
  | Decimal.D5 d => String "5" (string_of_uint d)
  | Decimal.D6 d => String "6" (string_of_uint d)
  | Decimal.D7 d => String "7" (string_of_uint d)
  | Decimal.D8 d => String "8" (string_of_uint d)
  | Decimal.D9 d => String "9" (string_of_uint d)
  end.

Definition dump_int (n : Z) : string :=
  match n with
  | Zneg p => String "-" (string_of_uint (Pos.to_uint p))
  | _ => string_of_uint (N.to_uint (Z.to_N n))
  end.

(** Compact JSON text: no space after [,] or [:]. *)
Fixpoint dumps (v : json) : string :=
  match v with
  | JNull => "null"
  | JBool true => "true"
  | JBool false => "false"
  | JNumber n => dump_int n
  | JString s => dump_string s
  | JArray [] => "[]"
  | JArray (x :: items) =>
      String "[" (dumps x
        +:+ joined (map (fun y => String "," (dumps y)) items)
        +:+ "]")
  | JObject [] => "{}"
  | JObject ((k, x) :: members) =>
      String "{" (dump_string k +:+ String ":" (dumps x)
        +:+ joined (map (fun m => String "," (dump_string m.1
                                   +:+ String ":" (dumps m.2))) members)
        +:+ "}")
  end.

(** *** Reading JSON text *)

(** The whitespace JSON allows between tokens. *)
Definition is_json_ws (c : ascii) : bool :=
  let n := N_of_ascii c in
  ((n =? 32) || (n =? 9) || (n =? 10) || (n =? 13))%N.

Fixpoint skip_ws (s : string) : string :=
  match s with
  | EmptyString => EmptyString
  | String c s' => if is_json_ws c then skip_ws s' else s
  end.

(** [s] without the prefix [p], if it starts with it. *)
Fixpoint strip_prefix (p s : string) : option string :=
  match p, s with
  | EmptyString, _ => Some s
  | String a p', String b s' =>
      if Ascii.eqb a b then strip_prefix p' s' else None
  | String _ _, EmptyString => None
  end.

Definition hex_value (c : ascii) : option N :=
  let n := N_of_ascii c in
  if ((48 <=? n) && (n <=? 57))%N then Some (n - 48)%N
  else if ((97 <=? n) && (n <=? 102))%N then Some (n - 87)%N
  else if ((65 <=? n) && (n <=? 70))%N then Some (n - 55)%N
  else None.

(** The character a one-letter escape stands for. *)
Definition unescape (c : ascii) : option ascii :=
  if Ascii.eqb c dquote then Some dquote
  else if Ascii.eqb c backslash then Some backslash
  else if Ascii.eqb c "/" then Some "/"%char
  else if Ascii.eqb c "b" then Some "008"%char
  else if Ascii.eqb c "f" then Some "012"%char
  else if Ascii.eqb c "n" then Some "010"%char
  else if Ascii.eqb c "r" then Some "013"%char
  else if Ascii.eqb c "t" then Some "009"%char
  else None.

Definition prepend (c : ascii) (r : option (string * string))
  : option (string * string) :=
  match r with
  | Some (s, rest) => Some (String c s, rest)
  | None => None
  end.

(** The text after an opening quote: the string it holds and what follows
    the closing quote.  A raw control character is refused; a [\u] escape
    above the characters of this model is refused too. *)
Fixpoint parse_string_body (s : string) : option (string * string) :=
  match s with
  | EmptyString => None
  | String c s' =>
      if Ascii.eqb c dquote then Some (EmptyString, s')
      else if Ascii.eqb c backslash then
        match s' with
        | EmptyString => None
        | String e s'' =>
            if Ascii.eqb e "u" then
              match s'' with
              | String h1 (String h2 (String h3 (String h4 r))) =>
                  match hex_value h1, hex_value h2, hex_value h3,
                        hex_value h4 with
                  | Some a, Some b, Some c', Some d =>
                      let code := (((a * 16 + b) * 16 + c') * 16 + d)%N in
                      if (code <? 256)%N
                      then prepend (ascii_of_N code) (parse_string_body r)
                      else None
                  | _, _, _, _ => None
                  end
              | _ => None
              end
            else
              match unescape e with
              | Some c' => prepend c' (parse_string_body s'')
              | None => None
              end
        end
      else if (N_of_ascii c <? 32)%N then None
      else prepend c (parse_string_body s')
  end.

Definition digit_value (c : ascii) : option N :=
  let n := N_of_ascii c in
  if ((48 <=? n) && (n <=? 57))%N then Some (n - 48)%N else None.

(** The digits at the head of a text, and the rest. *)
Fixpoint read_uint (s : string) : Decimal.uint * string :=
  match s with
  | EmptyString => (Decimal.Nil, EmptyString)
  | String c s' =>
      let '(d, r) := read_uint s' in
      match digit_value c with
      | Some 0%N => (Decimal.D0 d, r)
      | Some 1%N => (Decimal.D1 d, r)
      | Some 2%N => (Decimal.D2 d, r)
      | Some 3%N => (Decimal.D3 d, r)
      | Some 4%N => (Decimal.D4 d, r)
      | Some 5%N => (Decimal.D5 d, r)
      | Some 6%N => (Decimal.D6 d, r)
      | Some 7%N => (Decimal.D7 d, r)
      | Some 8%N => (Decimal.D8 d, r)
      | Some _ => (Decimal.D9 d, r)
      | None => (Decimal.Nil, s)
      end
  end.

(** What may not follow the digits of an integer: a fraction or an exponent
    would make the number a float. *)
Definition starts_fraction (s : string) : bool :=
  match s with
  | String c _ => Ascii.eqb c "." || Ascii.eqb c "e" || Ascii.eqb c "E"
  | EmptyString => false
  end.

(** The text after a value: not a digit, not the start of a fraction or of
    an exponent. *)
Definition ends_value (rest : string) : bool :=
  match rest with
  | EmptyString => true
  | String c _ =>
      match digit_value c with
      | Some _ => false
      | None => negb (starts_fraction rest)
      end
  end.

(** An unsigned integer without leading zero. *)
Definition parse_nat (s : string) : option (N * string) :=
  match read_uint s with
  | (Decimal.Nil, _) => None
  | (Decimal.D0 Decimal.Nil, r) =>
      if starts_fraction r then None else Some (0%N, r)
  | (Decimal.D0 _, _) => None
  | (d, r) => if starts_fraction r then None else Some (N.of_uint d, r)
  end.

Definition parse_int (s : string) : option (Z * string) :=
  match s with
  | String "-" s' =>
      match parse_nat s' with
      | Some (n, r) => Some (- Z.of_N n, r)%Z
      | None => None
      end
  | _ =>
      match parse_nat s with
      | Some (n, r) => Some (Z.of_N n, r)
      | None => None
      end
  end.

(** [d[k] = v] on a [dict] kept as a list: an existing key keeps its place
    and takes the new value, a new key goes to the end. *)
Fixpoint dict_set (k : string) (v : json) (d : list (string * json))
  : list (string * json) :=
  match d with
  | [] => [(k, v)]
  | (k', v') :: d' =>
      if String.eqb k k' then (k, v) :: d' else (k', v') :: dict_set k v d'
  end.

(** [dict(pairs)] *)
Definition dict_of_pairs (pairs : list (string * json))
  : list (string * json) :=
  fold_left (fun d kv => dict_set kv.1 kv.2 d) pairs [].

(** One JSON value at the head of a text, and the rest.  [fuel] bounds the
    depth of the calls; the length of the text is always enough.  The
    literals [NaN] and [Infinity], which Python reads as floats, are refused
    like every other float. *)
Fixpoint parse_value (fuel : nat) (s : string) : option (json * string) :=
  match fuel with
  | O => None
  | S fuel' =>
      match s with
      | EmptyString => None
      | String c s' =>
          if Ascii.eqb c dquote then
            match parse_string_body s' with
            | Some (str, r) => Some (JString str, r)
            | None => None
            end
          else if Ascii.eqb c "{" then
            match skip_ws s' with
            | String "}" r => Some (JObject [], r)
            | body =>
                match parse_members fuel' body with
                | Some (pairs, r) => Some (JObject (dict_of_pairs pairs), r)
                | None => None
                end
            end
          else if Ascii.eqb c "[" then
            match skip_ws s' with
            | String "]" r => Some (JArray [], r)
            | body =>
                match parse_elements fuel' body with
                | Some (items, r) => Some (JArray items, r)
                | None => None
                end
            end
          else if Ascii.eqb c "n" then
            match strip_prefix "ull" s' with
            | Some r => Some (JNull, r)
            | None => None
            end
          else if Ascii.eqb c "t" then
            match strip_prefix "rue" s' with
            | Some r => Some (JBool true, r)
            | None => None
            end
          else if Ascii.eqb c "f" then
            match strip_prefix "alse" s' with
            | Some r => Some (JBool false, r)
            | None => None
            end
          else
            match parse_int s with
            | Some (n, r) => Some (JNumber n, r)
            | None => None
            end
      end
  end

(** The items of an array, from the first character of an item up to the
    closing bracket. *)
with parse_elements (fuel : nat) (s : string)
  : option (list json * string) :=
  match fuel with
  | O => None
  | S fuel' =>
      match parse_value fuel' s with
      | Some (v, r) =>
          match skip_ws r with
          | String "," r' =>
              match parse_elements fuel' (skip_ws r') with
              | Some (vs, r'') => Some (v :: vs, r'')
              | None => None
              end
          | String "]" r' => Some ([v], r')
          | _ => None
          end
      | None => None
      end
  end

(** The members of an object, from the opening quote of a key up to the
    closing brace. *)
with parse_members (fuel : nat) (s : string)
  : option (list (string * json) * string) :=
  match fuel with
  | O => None
  | S fuel' =>
      match s with
      | String c s' =>
          if Ascii.eqb c dquote then
            match parse_string_body s' with
            | Some (k, r) =>
                match skip_ws r with
                | String ":" r' =>
                    match parse_value fuel' (skip_ws r') with
                    | Some (v, r'') =>
                        match skip_ws r'' with
                        | String "," r3 =>
                            match parse_members fuel' (skip_ws r3) with
                            | Some (ms, r4) => Some ((k, v) :: ms, r4)
                            | None => None
                            end
                        | String "}" r3 => Some ([(k, v)], r3)
                        | _ => None
                        end
                    | None => None
                    end
                | _ => None
                end
            | None => None
            end
          else None
      | EmptyString => None
      end
  end.

(** [json.loads(s)] on the JSON of this model: one value between optional
    whitespace, and nothing else.  It reads integers and text below code
    point 256, which is what the sample runs are made of.  Numbers with a
    fraction or an exponent, escapes above code point 255, and the bounds
    [json.loads] sets on the digits of an integer and on the depth of a
    value are outside it, so a statement about every message is not settled
    by it. *)
Definition loads (s : string) : option json :=
  match parse_value (S (String.length s)) (skip_ws s) with
  | Some (v, r) =>
      match skip_ws r with
      | EmptyString => Some v
      | _ => None
      end
  | None => None
  end.

(** *** Messages *)

(** Modelled from the spec: [JSONRPCMessage], whose declaration is in
    [mcpcli.messages.message_types.json_rpc_message].  A message is a
    JSON-RPC shaped value: named fields ([method], [params], [result],
    [error], [id] and whatever else it carries) holding JSON content.  A
    field whose value is [JNull] is a field that is [None].  [required]
    names the fields the minimal shape asks for. *)
Definition JSONRPCMessage : Type := list (string * json).

Definition is_null (v : json) : bool :=
  match v with JNull => true | _ => false end.

(** [d.get(k)] *)
Fixpoint field (k : string) (d : list (string * json)) : option json :=
  match d with
  | [] => None
  | (k', v) :: d' => if String.eqb k k' then Some v else field k d'
  end.

(** The fields that are not [None]. *)
Definition populated (m : JSONRPCMessage) : JSONRPCMessage :=
  List.filter (fun kv => negb (is_null kv.2)) m.

Definition has_field (d : list (string * json)) (k : string) : bool :=
  match field k d with Some _ => true | None => false end.

Section Codec.

Variable required : list string.

(** Modelled from the spec: [JSONRPCMessage.model_validate(data)] accepts a
    JSON object that has the required fields and refuses anything else. *)
Definition model_validate (data : json) : option JSONRPCMessage :=
  match data with
  | JObject members =>
      if forallb (has_field members) required then Some members else None
  | _ => None
  end.

(** Modelled from the spec: [message.model_dump_json(exclude_none=...)], the
    message as compact JSON, without the fields that are [None] when
    [exclude_none] is set. *)
Definition model_dump_json (exclude_none : bool) (message : JSONRPCMessage)
  : string :=
  dumps (JObject (if exclude_none then populated message else message)).

(** What [stdin_writer] writes for one message:
    [(json_str + "\n").encode()]. *)
Definition stdin_writer_line (message : JSONRPCMessage) : string :=
  model_dump_json true message +:+ str1 newline.

(** Decoding of one line as [process_json_line] does it. *)
Definition decode_line (line : string) : option JSONRPCMessage :=
  decode loads model_validate line.

End Codec.

(** Keys of an object are pairwise different, at every depth. *)
Fixpoint distinct_keys (ks : list string) : bool :=
  match ks with
  | [] => true
  | k :: ks' => negb (existsb (String.eqb k) ks') && distinct_keys ks'
  end.

Fixpoint well_formed (v : json) : bool :=
  match v with
  | JArray items => forallb well_formed items
  | JObject members =>
      distinct_keys (map fst members)
      && forallb (fun m => well_formed m.2) members
  | _ => true
  end.

(** A message value: its fields have pairwise different names and hold
    well-formed JSON. *)
Definition valid_message (m : JSONRPCMessage) : bool := well_formed (JObject m).

(** Every required field of the message is set to something else than
    [None]. *)
Definition required_populated (required : list string) (m : JSONRPCMessage)
  : bool :=
  forallb (has_field (populated m)) required.

(** The characters a JSON value can begin with. *)
Definition value_head (c : ascii) : bool :=
  Ascii.eqb c dquote || Ascii.eqb c "{" || Ascii.eqb c "[" || Ascii.eqb c "n"
  || Ascii.eqb c "t" || Ascii.eqb c "f" || Ascii.eqb c "-"
  || match digit_value c with Some _ => true | None => false end.

(** The text of the items of an array after the first, and of the members of
    an object after the first. *)
Definition items_tail (items : list json) : string :=
  joined (map (fun y => String "," (dumps y)) items).

Definition member_text (m : string * json) : string :=
  dump_string m.1 +:+ String ":" (dumps m.2).

Definition members_tail (members : list (string * json)) : string :=
  joined (map (fun m => String "," (member_text m)) members).
(** A value reads back from its text: what the induction on values
    proves. *)
Definition reads_back (v : json) : Prop :=
  well_formed v = true ->
  forall fuel rest,
    String.length (dumps v) <= fuel ->
    ends_value rest = true ->
    parse_value fuel (dumps v +:+ rest) = Some (v, rest).

(** *** Sample data *)

(** The request of the scenario in the specification, with ids 1 and 2; the
    second one also carries a field that is [None]. *)
Definition ping1 : JSONRPCMessage :=
  [("jsonrpc", JString "2.0"); ("method", JString "ping");
   ("id", JNumber 1)].

Definition ping2 : JSONRPCMessage :=
  [("jsonrpc", JString "2.0"); ("method", JString "ping");
   ("params", JNull); ("id", JNumber 2)].

(** A world with an open inbound channel and one whose receiver is gone;
    nothing has happened yet.  The send stream itself is closed by nobody but
    the reader, when it leaves. *)
Definition open_world : @world json JSONRPCMessage := mkWorld false true [].
Definition broken_world : @world json JSONRPCMessage := mkWorld false false [].

(** A server description as the configuration loader supplies it. *)
Definition sample_server : StdioServerParameters :=
  mkParams "python" (ArgsList ["server.py"])
    (Some {[ "MCP_MODE" := "stdio" ]}).

Definition sample_default_environment : gmap string string :=
  {[ "PATH" := "/usr/bin"; "MCP_MODE" := "default" ]}.

Definition sample_spawn (cmdline : list string)
    (environment : gmap string string) : outcome Z :=
  Returned 4242%Z.

(** ** [stdin_writer] *)

Section Writer.

Context {Message Bytes : Type}.

(** [message.model_dump_json(exclude_none=...)] and [str.encode()]. *)
Variable dump_json : bool -> Message -> string.
Variable encode : string -> Bytes.

Inductive writer_msg : Type :=
  | Starting_stdin_writer
  | Sending (json_str : string)
  | Write_stream_closed
  | Unexpected_error_in_stdin_writer (exc : exn)
  | Writer_traceback (exc : exn)
  | Exiting_stdin_writer.

(** The writer's world.  [room] is the number of writes the child's stdin
    still takes, [None] when it takes any number; once there is no room
    [process.stdin.send] raises [pipe_error].  [written] is what the child
    has been sent by the sends that returned, oldest first; [interrupted] is
    the payload of a send that raised, of which the child may hold a part,
    all or nothing; [receive_closed] says whether the receive end of the
    outbound channel has been closed; [wlog] holds the calls of [logging]. *)
Record writer_world : Type := mkWriterWorld {
  room : option nat;
  pipe_error : exn;
  written : list Bytes;
  interrupted : option Bytes;
  receive_closed : bool;
  wlog : list (level * writer_msg)
}.

Definition wlogging (lvl : level) (msg : writer_msg) : Py writer_world unit :=
  fun w => (Returned tt,
            mkWriterWorld (room w) (pipe_error w) (written w)
              (interrupted w) (receive_closed w) (wlog w ++ [(lvl, msg)])).

(** [await process.stdin.send(data)]: the payload goes to the pipe and the
    call waits until the pipe has taken it.  A send that raises may have
    passed a part of the payload on before it failed. *)
Definition stdin_send (data : Bytes) : Py writer_world unit :=
  fun w =>
    match room w with
    | Some O =>
        (Raised (pipe_error w),
         mkWriterWorld (Some O) (pipe_error w) (written w) (Some data)
           (receive_closed w) (wlog w))
    | Some (S r) =>
        (Returned tt,
         mkWriterWorld (Some r) (pipe_error w) (written w ++ [data])
           (interrupted w) (receive_closed w) (wlog w))
    | None =>
        (Returned tt,
         mkWriterWorld None (pipe_error w) (written w ++ [data])
           (interrupted w) (receive_closed w) (wlog w))
    end.

(** Leaving [async with write_stream_reader] closes the receive stream. *)
Definition close_receive : Py writer_world unit :=
  fun w => (Returned tt,
            mkWriterWorld (room w) (pipe_error w) (written w) (interrupted w)
              true (wlog w)).

(** The [async for] over the outbound channel: the messages it yields, then
    its end or the exception of the receive. *)
Fixpoint write_messages (messages : list Message) (fin : stream_end)
  : Py writer_world unit :=
  match messages with
  | [] =>
      match fin with
      | EndOfStream => ret tt
      | ReadError e => raise e
      end
  | message :: messages' =>
      let json_str := dump_json true message in
      wlogging DEBUG (Sending json_str) ;;
      stdin_send (encode (json_str +:+ String newline EmptyString)) ;;
      write_messages messages' fin
  end.

Definition stdin_writer (has_stdin : bool) (messages : list Message)
    (fin : stream_end) : Py writer_world unit :=
  if negb has_stdin
  then raise (AssertionError "Opened process is missing stdin")
  else
    wlogging DEBUG Starting_stdin_writer ;;
    try_finally
      (try_except
         (try_finally (write_messages messages fin) close_receive)
         (fun exc =>
            if is_ClosedResourceError exc then
              Some (wlogging DEBUG Write_stream_closed)
            else if is_Exception exc then
              Some (wlogging ERROR (Unexpected_error_in_stdin_writer exc) ;;
                    wlogging DEBUG (Writer_traceback exc) ;;
                    raise exc)
            else None))
      (wlogging DEBUG Exiting_stdin_writer).

(** What is written for one message. *)
Definition wire (message : Message) : Bytes :=
  encode (dump_json true message +:+ String newline EmptyString).

(** The messages the writer has announced with [Sending], oldest first. *)
Fixpoint announced (l : list (level * writer_msg)) : list string :=
  match l with
  | [] => []
  | (_, Sending s) :: l' => s :: announced l'
  | _ :: l' => announced l'
  end.

(** The records of the writer at level [ERROR]. *)
Fixpoint writer_errors (l : list (level * writer_msg)) : list writer_msg :=
  match l with
  | [] => []
  | (ERROR, msg) :: l' => msg :: writer_errors l'
  | _ :: l' => writer_errors l'
  end.

(** The pipe takes at least [n] more writes. *)
Definition has_room (w : writer_world) (n : nat) : Prop :=
  match room w with
  | None => True
  | Some r => n <= r
  end.

End Writer.

(** What [stdout_reader] logs when the read of the stream raises [e]. *)
Definition read_error_records {Data Message : Type} (e : exn)
  : list (@event Data Message) :=
  if is_ClosedResourceError e then [Log DEBUG Read_stream_closed]
  else if is_Exception e then
    [Log ERROR (Unexpected_error_in_stdout_reader e); Log DEBUG (Traceback e)]
  else [].

(** The text [stdin_writer] hands to [encode] for a message, without the
    newline. *)
Definition json_line (m : JSONRPCMessage) : string := model_dump_json true m.



(** ** The command line: [handle_command], [interactive_mode] and [run] *)

(** The exceptions the command line meets: those of the transport, the end
    of the user's input, the errors of Python operations on a value of the
    wrong type, any other class deriving from [Exception], and the classes
    deriving from [BaseException] only. *)
Inductive exc : Type :=
  | EOFError
  | AttributeError
  | TypeError
  | Transport (e : exn)
  | OtherException (name : string)
  | BaseOnly (name : string).

Definition is_exception (e : exc) : bool :=
  match e with
  | BaseOnly _ => false
  | Transport e' => is_Exception e'
  | _ => true
  end.

Definition is_EOFError (e : exc) : bool :=
  match e with EOFError => true | _ => false end.

Inductive result (A : Type) : Type :=
  | Value (a : A)
  | Error (e : exc).
Arguments Value {A} a.
Arguments Error {A} e.

(** The pair [(read_stream, write_stream)] of a session, named by the
    process the session drives. *)
Definition streams : Type := process.

(** The calls to the message senders and to the chat handler, which are in
    other modules of the package. *)
Inductive request : Type :=
  | Send_ping (s : streams)
  | Send_tools_list (s : streams)
  | Send_call_tool (tool_name : string) (arguments : json) (s : streams)
  | Send_resources_list (s : streams)
  | Send_prompts_list (s : streams)
  | Send_initialize (s : streams)
  | Handle_chat_mode (server_streams : list streams) (provider model : string).

Inductive prompt : Type :=
  | Prompt_command
  | Prompt_tool_name
  | Prompt_tool_arguments.

(** What is printed, one constructor for each call of [print]; the values
    that go into the text are kept, the layout is not. *)
Inductive output : Type :=
  | Pinging_servers
  | Ping_ok (server_num : nat)
  | Ping_failed (server_num : nat)
  | Fetching_tools
  | Tools_panel (server_num : nat) (rows : option (list (json * json)))
  | Tool_name_empty
  | Invalid_JSON_arguments
  | Calling_tool (tool_name : string)
  | Arguments_panel (arguments : json)
  | Tool_response (response_content : json)
  | Fetching_resources
  | Resources_panel (server_num : nat) (items : option (list json))
  | Fetching_prompts
  | Prompts_panel (server_num : nat) (items : option (list json))
  | Chat_banner (provider model : string)
  | Goodbye
  | Help
  | Unknown_command (command : string)
  | Type_help_hint
  | Error_executing_command (e : exc)
  | Welcome
  | Error_in_loop (e : exc)
  | Initialization_failed (server_name : string)
  | Error_occurred (e : exc).

Inductive ui_event : Type :=
  | Asked (r : request)
  | Input (p : prompt)
  | Print (o : output)
  | System (cmd : string)
  | Load_config (config_path server_name : string)
  | Aexit (cm : streams).

(** The world of the command line.  [pending] is what [get_input] will
    give, call after call: a line typed by the user or the exception raised
    instead; when it is used up the input is at its end.  [opened] is the
    world of the runs of [stdio_client]; [ui] is everything else done so
    far, oldest first. *)
Record main_world : Type := mkMainWorld {
  pending : list (result string);
  opened : list open_event;
  ui : list ui_event
}.

Definition Ui (A : Type) : Type := main_world -> result A * main_world.

Definition ui_ret {A} (a : A) : Ui A := fun w => (Value a, w).

Definition ui_bind {A B} (m : Ui A) (k : A -> Ui B) : Ui B :=
  fun w =>
    match m w with
    | (Value a, w') => k a w'
    | (Error e, w') => (Error e, w')
    end.

Definition ui_raise {A} (e : exc) : Ui A := fun w => (Error e, w).

Definition ui_lift {A} (r : result A) : Ui A := fun w => (r, w).

Declare Scope main_scope.
Notation "x <- c1 ;; c2" := (ui_bind c1 (fun x => c2))
  (at level 20, c1 at level 99, c2 at level 200, right associativity)
  : main_scope.
Notation "c1 ;; c2" := (ui_bind c1 (fun _ => c2))
  (at level 100, c2 at level 200, right associativity) : main_scope.
Local Open Scope main_scope.

(** [try: body except ...], as [try_except]. *)
Definition ui_try {A} (body : Ui A) (handler : exc -> option (Ui A)) : Ui A :=
  fun w =>
    match body w with
    | (Value a, w') => (Value a, w')
    | (Error e, w') =>
        match handler e with
        | Some h => h w'
        | None => (Error e, w')
        end
    end.

(** [try: body finally: fin] *)
Definition ui_finally {A} (body : Ui A) (fin : Ui unit) : Ui A :=
  fun w =>
    match body w with
    | (r, w') =>
        match fin w' with
        | (Value _, w'') => (r, w'')
        | (Error e, w'') => (Error e, w'')
        end
    end.

Fixpoint ui_for {A} (xs : list A) (body : A -> Ui unit) : Ui unit :=
  match xs with
  | [] => ui_ret tt
  | x :: xs' => body x ;; ui_for xs' body
  end.

(** A list comprehension [[f x for x in xs]]. *)
Fixpoint ui_map {A B} (f : A -> Ui B) (xs : list A) : Ui (list B) :=
  match xs with
  | [] => ui_ret []
  | x :: xs' => y <- f x ;; ys <- ui_map f xs' ;; ui_ret (y :: ys)
  end.

(** [enumerate(xs)] *)
Fixpoint enumerate_from {A} (i : nat) (xs : list A) : list (nat * A) :=
  match xs with
  | [] => []
  | x :: xs' => (i, x) :: enumerate_from (S i) xs'
  end.

Definition enumerate {A} (xs : list A) : list (nat * A) := enumerate_from 0 xs.

(** *** Python operations on the values the senders return *)

(** [bool(v)] *)
Definition py_truthy (v : json) : bool :=
  match v with
  | JNull => false
  | JBool b => b
  | JNumber n => negb (n =? 0)%Z
  | JString s => truthy s
  | JArray items => match items with [] => false | _ => true end
  | JObject members => match members with [] => false | _ => true end
  end.

(** [v.get(k, default)]: only a [dict] has [get]. *)
Definition py_get (v : json) (k : string) (default : json) : result json :=
  match v with
  | JObject members =>
      Value (match field k members with Some x => x | None => default end)
  | _ => Error AttributeError
  end.

(** What [for x in v] goes through: the items of a list, the keys of a
    [dict], the characters of a string; anything else cannot be iterated. *)
Definition py_iter (v : json) : result (list json) :=
  match v with
  | JArray items => Value items
  | JObject members => Value (map (fun m => JString m.1) members)
  | JString s =>
      Value (map (fun c => JString (String c EmptyString))
               (list_ascii_of_string s))
  | _ => Error TypeError
  end.

(** [content[0]['text'].startswith('Error:')] under [try ... except: pass]:
    every failure of the lookups counts as no. *)
Definition first_text_is_error (content : json) : bool :=
  match content with
  | JArray (JObject members :: _) =>
      match field "text" members with
      | Some (JString s) => String.prefix "Error:" s
      | _ => false
      end
  | _ => false
  end.

(** [c.lower()] on one character, for the code points below 256. *)
Definition lower_char (c : ascii) : ascii :=
  let n := N_of_ascii c in
  if (((65 <=? n) && (n <=? 90)) || ((192 <=? n) && (n <=? 214))
      || ((216 <=? n) && (n <=? 222)))%N
  then ascii_of_N (n + 32)
  else c.

(** [s.lower()] *)
Fixpoint lower (s : string) : string :=
  match s with
  | EmptyString => EmptyString
  | String c s' => String (lower_char c) (lower s')
  end.

(** A text without an opening bracket holds no markup tag: placed inside a
    markup string that [rich.print] accepts, it leaves the string
    acceptable. *)
Fixpoint markup_free (s : string) : bool :=
  match s with
  | EmptyString => true
  | String c s' => negb (Ascii.eqb c "[") && markup_free s'
  end.

Section Main.

(** What the senders and the chat handler answer, by everything done so
    far. *)
Variable answer : list ui_event -> request -> result json.

(** [sys.platform], [os.getenv("LLM_PROVIDER")] and
    [os.getenv("LLM_MODEL")]. *)
Variable platform : string.
Variable llm_provider_env : option string.
Variable llm_model_env : option string.

(** [json.loads] on what the user types; [None] stands for
    [json.JSONDecodeError]. *)
Variable json_loads : string -> option json.

(** [load_config(config_path, server_name)], which is in [mcpcli.config]. *)
Variable load_config : string -> string -> result StdioServerParameters.

(** The parameters of [stdio_client]. *)
Variable default_environment : gmap string string.
Variable os_spawn : list string -> gmap string string -> outcome Z.

(** What [await cm.__aexit__()] does under [anyio.move_on_after(1)]: it
    returns, it is still running when the second is over, or it raises. *)
Inductive aexit_outcome : Type :=
  | Exit_returned
  | Exit_timed_out
  | Exit_raised (e : exc).

Variable aexit_answer : list ui_event -> streams -> aexit_outcome.

Definition record (ev : ui_event) : Ui unit :=
  fun w => (Value tt, mkMainWorld (pending w) (opened w) (ui w ++ [ev])).

(** [rich.print]: the text is recorded and the call returns.  The parsing
    of the markup is not modelled: [rich.print] raises [MarkupError] on a
    closing tag that matches no open one, which a text placed in a markup
    string (the command, a tool name, a server name, the message of an
    error) can bring in.  The model is that of a run whose texts bring in no
    such tag, as every text that is [markup_free] does. *)
Definition print (o : output) : Ui unit := record (Print o).

Definition os_system (cmd : string) : Ui unit := record (System cmd).

(** A call to a sender or to the chat handler, which are in
    [mcpcli.messages] and [mcpcli.chat_handler]: it is recorded, and the
    answer is the one of the environment.  What the chat handler reads from
    the user is its own and is not taken from [pending]. *)
Definition ask (r : request) : Ui json :=
  fun w =>
    (answer (ui w) r, mkMainWorld (pending w) (opened w) (ui w ++ [Asked r])).

(** [await get_input(prompt)].  The function is in [mcpcli.chat_handler];
    here it is the environment: the next entry of [pending], and [EOFError],
    which the loop of [interactive_mode] expects, once the input is used
    up. *)
Definition get_input (p : prompt) : Ui string :=
  fun w =>
    match pending w with
    | [] => (Error EOFError,
             mkMainWorld [] (opened w) (ui w ++ [Input p]))
    | r :: rest => (r, mkMainWorld rest (opened w) (ui w ++ [Input p]))
    end.

Definition clear_screen : Ui unit :=
  if String.eqb platform "win32" then os_system "cls" else os_system "clear".

Definition getenv (value : option string) (default : string) : string :=
  match value with
  | Some v => v
  | None => default
  end.

Definition ping_servers (server_streams : list streams) : Ui unit :=
  print Pinging_servers ;;
  ui_for (enumerate server_streams)
    (fun '(i, s) =>
       result <- ask (Send_ping s) ;;
       let server_num := i + 1 in
       if py_truthy result then print (Ping_ok server_num)
       else print (Ping_failed server_num)).

Definition list_tools (server_streams : list streams) : Ui unit :=
  print Fetching_tools ;;
  ui_for (enumerate server_streams)
    (fun '(i, s) =>
       response <- ask (Send_tools_list s) ;;
       tools_list <- ui_lift (py_get response "tools" (JArray [])) ;;
       let server_num := i + 1 in
       if negb (py_truthy tools_list) then print (Tools_panel server_num None)
       else
         ts <- ui_lift (py_iter tools_list) ;;
         rows <- ui_map
                   (fun t =>
                      name <- ui_lift (py_get t "name" JNull) ;;
                      description <-
                        ui_lift (py_get t "description"
                                   (JString "No description")) ;;
                      ui_ret (name, description))
                   ts ;;
         print (Tools_panel server_num (Some rows))).

(** The branch [call-tool]; the result is the value of an early [return],
    if there is one. *)
Definition call_tool (server_streams : list streams) : Ui (option bool) :=
  tool_name <- get_input Prompt_tool_name ;;
  if negb (truthy tool_name) then
    print Tool_name_empty ;; ui_ret (Some true)
  else
    arguments_str <- get_input Prompt_tool_arguments ;;
    match json_loads arguments_str with
    | None => print Invalid_JSON_arguments ;; ui_ret (Some true)
    | Some arguments =>
        print (Calling_tool tool_name) ;;
        print (Arguments_panel arguments) ;;
        ui_for server_streams
          (fun s =>
             result <- ask (Send_call_tool tool_name arguments s) ;;
             is_error <- ui_lift (py_get result "isError" JNull) ;;
             if py_truthy is_error then ui_ret tt
             else
               response_content <-
                 ui_lift (py_get result "content" (JString "No content")) ;;
               if first_text_is_error response_content then ui_ret tt
               else print (Tool_response response_content)) ;;
        ui_ret None
    end.

Definition list_resources (server_streams : list streams) : Ui unit :=
  print Fetching_resources ;;
  ui_for (enumerate server_streams)
    (fun '(i, s) =>
       response <- ask (Send_resources_list s) ;;
       resources_list <-
         (if py_truthy response
          then ui_lift (py_get response "resources" (JArray []))
          else ui_ret JNull) ;;
       let server_num := i + 1 in
       if negb (py_truthy resources_list)
       then print (Resources_panel server_num None)
       else
         rs <- ui_lift (py_iter resources_list) ;;
         print (Resources_panel server_num (Some rs))).

Definition list_prompts (server_streams : list streams) : Ui unit :=
  print Fetching_prompts ;;
  ui_for (enumerate server_streams)
    (fun '(i, s) =>
       response <- ask (Send_prompts_list s) ;;
       prompts_list <-
         (if py_truthy response
          then ui_lift (py_get response "prompts" (JArray []))
          else ui_ret JNull) ;;
       let server_num := i + 1 in
       if negb (py_truthy prompts_list)
       then print (Prompts_panel server_num None)
       else
         ps <- ui_lift (py_iter prompts_list) ;;
         print (Prompts_panel server_num (Some ps))).

Definition chat (server_streams : list streams) : Ui unit :=
  let provider := getenv llm_provider_env "openai" in
  let model := getenv llm_model_env "gpt-4o-mini" in
  clear_screen ;;
  print (Chat_banner provider model) ;;
  ask (Handle_chat_mode server_streams provider model) ;;
  ui_ret tt.

(** The body of the [try] of [handle_command]: the value of a [return]
    inside it, or [None] when the end of the [try] is reached. *)
Definition dispatch (command : string) (server_streams : list streams)
  : Ui (option bool) :=
  if String.eqb command "ping" then
    ping_servers server_streams ;; ui_ret None
  else if String.eqb command "list-tools" then
    list_tools server_streams ;; ui_ret None
  else if String.eqb command "call-tool" then
    call_tool server_streams
  else if String.eqb command "list-resources" then
    list_resources server_streams ;; ui_ret None
  else if String.eqb command "list-prompts" then
    list_prompts server_streams ;; ui_ret None
  else if String.eqb command "chat" then
    chat server_streams ;; ui_ret None
  else if String.eqb command "quit" || String.eqb command "exit" then
    print Goodbye ;; ui_ret (Some false)
  else if String.eqb command "clear" then
    clear_screen ;; ui_ret None
  else if String.eqb command "help" then
    print Help ;; ui_ret None
  else
    print (Unknown_command command) ;; print Type_help_hint ;; ui_ret None.

Definition handle_command (command : string) (server_streams : list streams)
  : Ui bool :=
  returned <-
    ui_try (dispatch command server_streams)
      (fun e =>
         if is_exception e
         then Some (print (Error_executing_command e) ;; ui_ret None)
         else None) ;;
  match returned with
  | Some b => ui_ret b
  | None => ui_ret true
  end.

(** How one round of the loop of [interactive_mode] ends. *)
Inductive round_end : Type := Next_round | Leave.

(** One round: the body of the [while True]. *)
Definition interactive_round (server_streams : list streams) : Ui round_end :=
  ui_try
    (command <- get_input Prompt_command ;;
     let command := lower command in
     if negb (truthy command) then ui_ret Next_round
     else
       should_continue <- handle_command command server_streams ;;
       if negb should_continue then ui_ret Leave else ui_ret Next_round)
    (fun e =>
       if is_EOFError e then Some (ui_ret Leave)
       else if is_exception e
            then Some (print (Error_in_loop e) ;; ui_ret Next_round)
            else None).

(** The loop, for at most [fuel] rounds; [false] says that the rounds were
    used up before the loop was left. *)
Fixpoint interactive_loop (fuel : nat) (server_streams : list streams)
  : Ui bool :=
  match fuel with
  | O => ui_ret false
  | S fuel' =>
      e <- interactive_round server_streams ;;
      match e with
      | Leave => ui_ret true
      | Next_round => interactive_loop fuel' server_streams
      end
  end.

(** [interactive_mode]: every round takes at least one line of the input, so
    one round more than there are lines is enough. *)
Definition interactive_mode (server_streams : list streams) : Ui bool :=
  print Welcome ;;
  (fun w => interactive_loop (S (length (pending w))) server_streams w).

(** [await cm.__aenter__()]: [stdio_client] runs up to its [yield].  Of
    that run the part embedded above counts here, up to the start of the
    child; the start of the two tasks that follows it is left out. *)
Definition aenter (server_params : StdioServerParameters) : Ui streams :=
  fun w =>
    match stdio_client default_environment os_spawn server_params
            (opened w) with
    | (Returned proc, t) => (Value proc, mkMainWorld (pending w) t (ui w))
    | (Raised e, t) => (Error (Transport e), mkMainWorld (pending w) t (ui w))
    end.

(** [with anyio.move_on_after(1): await cm.__aexit__()].  The call passes
    none of the three arguments of [__aexit__]: on the context manager of
    [contextlib.asynccontextmanager] it raises [TypeError], the case
    [Exit_raised TypeError]. *)
Definition aexit (cm : streams) : Ui unit :=
  fun w =>
    let w' := mkMainWorld (pending w) (opened w) (ui w ++ [Aexit cm]) in
    match aexit_answer (ui w) cm with
    | Exit_returned | Exit_timed_out => (Value tt, w')
    | Exit_raised e => (Error e, w')
    end.

(** The first loop of [run]: the sessions opened, or [None] when an
    initialization failed and [run] returns. *)
Fixpoint connect (config_path : string) (server_names : list string)
    (server_streams : list streams) : Ui (option (list streams)) :=
  match server_names with
  | [] => ui_ret (Some server_streams)
  | server_name :: rest =>
      record (Load_config config_path server_name) ;;
      server_params <- ui_lift (load_config config_path server_name) ;;
      s <- aenter server_params ;;
      let server_streams := server_streams ++ [s] in
      init_result <- ask (Send_initialize s) ;;
      if negb (py_truthy init_result) then
        print (Initialization_failed server_name) ;; ui_ret None
      else connect config_path rest server_streams
  end.

Definition run (config_path : string) (server_names : list string)
    (command : option string) : Ui unit :=
  clear_screen ;;
  connected <- connect config_path server_names [] ;;
  match connected with
  | None => ui_ret tt
  | Some server_streams =>
      ui_finally
        (match command with
         | Some c =>
             if truthy c then handle_command c server_streams ;; ui_ret tt
             else interactive_mode server_streams ;; ui_ret tt
         | None => interactive_mode server_streams ;; ui_ret tt
         end)
        (ui_for server_streams aexit)
  end.

(** *** Notions used in the statements *)

(** The commands that leave the interactive loop. *)
Definition is_quit (command : string) : bool :=
  String.eqb command "quit" || String.eqb command "exit".

(** The commands that talk to the servers or to the user. *)
Definition is_server_command (command : string) : bool :=
  String.eqb command "ping" || String.eqb command "list-tools"
  || String.eqb command "call-tool" || String.eqb command "list-resources"
  || String.eqb command "list-prompts" || String.eqb command "chat".

(** The calls to senders among some events. *)
Definition asked (evs : list ui_event) : list request :=
  omap (fun ev => match ev with Asked r => Some r | _ => None end) evs.

(** The context managers whose [__aexit__] was called, in order. *)
Definition exited (evs : list ui_event) : list streams :=
  omap (fun ev => match ev with Aexit cm => Some cm | _ => None end) evs.

(** What was printed, in order. *)
Definition printed (evs : list ui_event) : list output :=
  omap (fun ev => match ev with Print o => Some o | _ => None end) evs.

End Main.

(** *** [cli_main], from the parsed arguments on *)

(** What [parser.parse_args()] returns; [command_arg] is [args.command]. *)
Record arguments : Type := mkArguments {
  config_file : string;
  servers : list string;
  all : bool;
  command_arg : option string;
  provider : string;
  model : option string
}.

(** The model that goes with a provider when none is named. *)
Definition default_model (provider : string) : string :=
  if String.eqb provider "openai" then "gpt-4o-mini"
  else if String.eqb provider "anthropic" then "claude-3-5-haiku-latest"
  else "qwen2.5-coder".

(** [value or default] *)
Definition or_else (value : option string) (default : string) : string :=
  match value with
  | Some v => if truthy v then v else default
  | None => default
  end.

Section Cli.

Variable answer : list ui_event -> request -> result json.
Variable platform : string.
Variable json_loads : string -> option json.
Variable load_config : string -> string -> result StdioServerParameters.
Variable default_environment : gmap string string.
Variable os_spawn : list string -> gmap string string -> outcome Z.
Variable aexit_answer : list ui_event -> streams -> aexit_outcome.

(** [list(json.load(f)['mcpServers'].keys())] on the file at a path. *)
Variable read_servers : string -> result (list string).

(** The servers [run] is called with. *)
Definition chosen_servers (args : arguments) : result (list string) :=
  if all args then read_servers (config_file args) else Value (servers args).

(** [cli_main] after the arguments are parsed.  The two variables of the
    environment are set before [run] starts, so [run] reads them back.  The
    value is the exit status: [sys.exit] raises [SystemExit], which is
    outside [Exception], passes the handler and ends the program; the
    status of [sys.exit(None)] is 0.  [anyio.run] is taken to return what
    [run] returns and to raise what it raises. *)
Definition cli_main (args : arguments) : Ui Z :=
  let model := or_else (model args) (default_model (provider args)) in
  ui_try
    (servers <- ui_lift (chosen_servers args) ;;
     run answer platform (Some (provider args)) (Some model) json_loads
       load_config default_environment os_spawn aexit_answer
       (config_file args) servers (command_arg args) ;;
     ui_ret 0%Z)
    (fun e =>
       if is_exception e
       then Some (print (Error_occurred e) ;; ui_ret 1%Z)
       else None).

End Cli.

Local Close Scope main_scope.

(** A computation keeps a relation between the world before and the world
    after. *)
Definition keeps (R : main_world -> main_world -> Prop) {A} (m : Ui A)
  : Prop :=
  forall w, R w (m w).2.

(** The input still to come does not grow. *)
Definition pending_shrinks (w w' : main_world) : Prop :=
  length (pending w') <= length (pending w).

(** No session is opened and no context manager is exited. *)
Definition same_sessions (w w' : main_world) : Prop :=
  opened w' = opened w /\ exited (ui w') = exited (ui w).

(** A result of [send_call_tool] that [handle_command] does not show: it is
    flagged with [isError], or the text of its first content item starts
    with [Error:]. *)
Definition tool_error (result : json) : bool :=
  match result with
  | JObject members =>
      py_truthy (match field "isError" members with
                 | Some x => x
                 | None => JNull
                 end)
      || first_text_is_error
           (match field "content" members with
            | Some x => x
            | None => JString "No content"
            end)
  | _ => false
  end.

(** The content shown for a result of [send_call_tool]. *)
Definition tool_content (result : json) : json :=
  match result with
  | JObject members =>
      match field "content" members with
      | Some x => x
      | None => JString "No content"
      end
  | _ => JString "No content"
  end.

Definition is_dict (v : json) : bool :=
  match v with JObject _ => true | _ => false end.

(** The panel [handle_command] prints for the answer of a ping. *)
Definition ping_panel (server_num : nat) (result : json) : output :=
  if py_truthy result then Ping_ok server_num else Ping_failed server_num.

(** ** Sample data for the writer and the command line *)

(** A pipe that takes [room] writes and then breaks; nothing is written
    yet. *)
Definition sample_pipe (room : option nat) : @writer_world string :=
  mkWriterWorld room BrokenResourceError [] None false [].

(** Two sessions. *)
Definition session1 : streams := mkProcess 4242%Z ["python"; "server.py"] ∅.
Definition session2 : streams := mkProcess 4343%Z ["node"; "server.js"] ∅.

(** What the sample servers answer to a call of a tool: the first session a
    result, the second one an error. *)
Definition sample_reply (s : streams) : json :=
  if (pid s =? 4242)%Z
  then JObject [("content", JArray [JObject [("text", JString "4")]])]
  else JObject [("isError", JBool true)].

(** Sample servers: they answer [init] to the initialization, the first
    session answers the ping and the second one does as [second] says;
    lists are empty. *)
Definition sample_answer (init : json) (second : result json)
    (h : list ui_event) (r : request) : result json :=
  match r with
  | Send_initialize _ => Value init
  | Send_ping s => if (pid s =? 4242)%Z then Value (JBool true) else second
  | Send_call_tool _ _ s => Value (sample_reply s)
  | _ => Value JNull
  end.

(** A user who types [lines] and then closes the input. *)
Definition sample_input (lines : list string) : main_world :=
  mkMainWorld (map Value lines) [] [].

(** A configuration in which every server is [server]. *)
Definition sample_config (server : StdioServerParameters)
    (config_path server_name : string) : result StdioServerParameters :=
  Value server.

(** * Properties *)

(** ** Opening a session *)

Example open_sample_server :
  exists proc,
    (stdio_client sample_default_environment sample_spawn sample_server []).1
      = Returned proc
    /\ pid proc = 4242%Z
    /\ argv proc = ["python"; "server.py"]
    /\ environ proc !! "MCP_MODE" = Some "stdio"
    /\ environ proc !! "PATH" = Some "/usr/bin"
    /\ environ proc !! "HOME" = None.
Proof. eexists. split; [reflexivity |]. vm_compute. repeat split. Qed.

Example open_with_string_args :
  stdio_client sample_default_environment sample_spawn
    (mkParams "python" (ArgsStr "server.py") None) [] =
    (Raised (ValueError "Server arguments must be a list or tuple."), []).
Proof. reflexivity. Qed.

Example open_with_empty_command :
  stdio_client sample_default_environment sample_spawn
    (mkParams EmptyString (ArgsList []) None) [] =
    (Raised (ValueError "Server command must not be empty."), []).
Proof. reflexivity. Qed.

Section OpenFacts.

Variable default_environment : gmap string string.
Variable os_spawn : list string -> gmap string string -> outcome Z.

Local Abbreviation stdio_client_run :=
  (stdio_client default_environment os_spawn).
Local Abbreviation launch_environment :=
  (launch_environment default_environment).

Lemma truthy_false (s : string) : truthy s = false <-> s = EmptyString.
Proof. destruct s; simpl; split; congruence. Qed.

Lemma app_eq_self_nil {A} (l t : list A) : l ++ t = l -> t = [].
Proof.
  intros H. apply (f_equal (@length A)) in H.
  rewrite length_app in H. destruct t; simpl in *; [done | lia].
Qed.

(** What a run with refused parameters is. *)
Lemma stdio_client_invalid server t :
  invalid_parameters server ->
  exists msg, stdio_client_run server t = (Raised (ValueError msg), t).
Proof.
  intros [Hc | Ha]; unfold stdio_client, bind, raise, ret.
  - rewrite Hc. simpl. eauto.
  - destruct (truthy (command server)); simpl; [| eauto].
    rewrite Ha. simpl. eauto.
Qed.

(** What a run with accepted parameters is: both channels are created, the
    launch is tried, and the outcome is the one of the launch. *)
Lemma stdio_client_valid server t :
  ~ invalid_parameters server ->
  let cmdline := command server :: unpack (args server) in
  let environment := launch_environment server in
  stdio_client_run server t =
    match os_spawn cmdline environment with
    | Returned p =>
        (Returned (mkProcess p cmdline environment),
         t ++ [Create_memory_object_stream 0; Create_memory_object_stream 0;
               Open_process cmdline environment;
               Log_subprocess_started p (command server)])
    | Raised e =>
        (Raised e,
         t ++ [Create_memory_object_stream 0; Create_memory_object_stream 0;
               Open_process cmdline environment])
    end.
Proof.
  intros Hv. unfold invalid_parameters in Hv.
  assert (Hc : truthy (command server) = true).
  { destruct (truthy (command server)) eqn:E; [done |].
    apply truthy_false in E. tauto. }
  assert (Ha : is_list_or_tuple (args server) = true).
  { destruct (is_list_or_tuple (args server)); [done | tauto]. }
  unfold stdio_client, open_process, launch_environment, bind, raise, ret, act.
  rewrite Hc, Ha. simpl.
  destruct (os_spawn _ _); simpl; rewrite <- !app_assoc; reflexivity.
Qed.

(** C5.  Entering [stdio_client] fails with the [ValueError] of the
    parameter validation, before anything else has happened, exactly when
    the command is empty or the arguments are neither a list nor a tuple.
    In every other case the validation passes and the launch is tried: the
    call of [anyio.open_process] is made with the command followed by the
    arguments, and the outcome of the run is the outcome of that launch. *)
Theorem open_fails_iff_invalid_parameters (server : StdioServerParameters)
    (t : list open_event) :
  (invalid_parameters server <->
   exists msg, stdio_client_run server t = (Raised (ValueError msg), t))
  /\ (~ invalid_parameters server ->
      exists tail,
        (stdio_client_run server t).2 =
          t ++ [Create_memory_object_stream 0; Create_memory_object_stream 0;
                Open_process (command server :: unpack (args server))
                             (launch_environment server)] ++ tail
        /\ (stdio_client_run server t).1 =
             match os_spawn (command server :: unpack (args server))
                            (launch_environment server) with
             | Returned p =>
                 Returned (mkProcess p (command server :: unpack (args server))
                                     (launch_environment server))
             | Raised e => Raised e
             end).
Proof.
  split; [split |].
  - apply stdio_client_invalid.
  - intros [msg Hrun].
    destruct (decide (command server = EmptyString)) as [| Hc]; [by left |].
    destruct (is_list_or_tuple (args server)) eqn:Ha; [| by right].
    exfalso.
    assert (Hv : ~ invalid_parameters server)
      by (unfold invalid_parameters; intros [? | ?]; congruence).
    pose proof (stdio_client_valid server t Hv) as Heq. simpl in Heq.
    rewrite Hrun in Heq.
    destruct (os_spawn _ _); inversion Heq as [[Hr Ht]];
      symmetry in Ht; apply app_eq_self_nil in Ht; discriminate.
  - intros Hv. pose proof (stdio_client_valid server t Hv) as Heq.
    simpl in Heq. rewrite Heq.
    destruct (os_spawn _ _); simpl; eexists; split; reflexivity.
Qed.

(** C9.  With accepted parameters the one launch of the run is made with the
    default environment overlaid with [server.env]: a key that [server.env]
    has carries the value of [server.env], any other key carries what the
    default environment has for it (nothing, if the default has nothing),
    without [server.env] the environment is the default one, and a process
    that starts has exactly this environment. *)
Theorem launch_environment_is_overlay (server : StdioServerParameters)
    (t : list open_event) :
  ~ invalid_parameters server ->
  exists environment tail,
    (stdio_client_run server t).2 =
      t ++ [Create_memory_object_stream 0; Create_memory_object_stream 0;
            Open_process (command server :: unpack (args server)) environment]
        ++ tail
    /\ (forall cmdline e, Open_process cmdline e ∈ tail -> False)
    /\ (forall overlay k v,
          env server = Some overlay -> overlay !! k = Some v ->
          environment !! k = Some v)
    /\ (forall overlay k,
          env server = Some overlay -> overlay !! k = None ->
          environment !! k = default_environment !! k)
    /\ (env server = None -> environment = default_environment)
    /\ (forall proc, (stdio_client_run server t).1 = Returned proc ->
                     environ proc = environment).
Proof.
  intros Hv. pose proof (stdio_client_valid server t Hv) as Heq. simpl in Heq.
  exists (launch_environment server).
  assert (Hsome : forall overlay k v,
            env server = Some overlay -> overlay !! k = Some v ->
            launch_environment server !! k = Some v).
  { intros overlay k v He Hk. unfold launch_environment, dict_merge.
    rewrite He. by apply lookup_union_Some_l. }
  assert (Hnone : forall overlay k,
            env server = Some overlay -> overlay !! k = None ->
            launch_environment server !! k = default_environment !! k).
  { intros overlay k He Hk. unfold launch_environment, dict_merge.
    rewrite He. by apply lookup_union_r. }
  assert (Hdef : env server = None ->
                 launch_environment server = default_environment).
  { intros He. unfold launch_environment, dict_merge.
    rewrite He. apply (left_id_L ∅ (∪)). }
  rewrite Heq. destruct (os_spawn _ _) as [p | e]; simpl.
  - exists [Log_subprocess_started p (command server)].
    split; [reflexivity |]. split.
    { intros c e Hin. apply list_elem_of_singleton in Hin. discriminate. }
    repeat split; auto. intros proc [= <-]. reflexivity.
  - exists []. split; [reflexivity |]. split.
    { intros c e' Hin. by apply elem_of_nil in Hin. }
    repeat split; auto. intros proc [=].
Qed.

(** C10.  With an empty command, or with arguments that are neither a list
    nor a tuple, entering [stdio_client] raises [ValueError] and the world is
    the one it started from: no channel has been created and no launch has
    been tried. *)
Theorem invalid_parameters_acquire_nothing (server : StdioServerParameters)
    (t : list open_event) :
  invalid_parameters server ->
  (exists msg, (stdio_client_run server t).1 = Raised (ValueError msg))
  /\ (stdio_client_run server t).2 = t
  /\ acquisitions (stdio_client_run server []).2 = [].
Proof.
  intros Hi.
  destruct (stdio_client_invalid server t Hi) as [msg Hrun].
  destruct (stdio_client_invalid server [] Hi) as [msg' Hrun'].
  rewrite Hrun, Hrun'. simpl. eauto.
Qed.

End OpenFacts.

(** ** Termination of the child *)

(** A child that ignores the termination request is killed after the full
    wait; that [process.kill()] fails changes nothing for the caller. *)
Example terminate_stubborn_child :
  terminate_process (mkChild None None None (Some NotPermitted))
    (mkTermWorld 0 []) =
    (Returned tt,
     mkTermWorld (0 + 5)
       [TLog DEBUG Terminating_subprocess; Call_terminate; Call_wait 5;
        TLog WARNING Process_did_not_terminate_gracefully; Call_kill;
        TLog ERROR (Error_killing_process PermissionError)]).
Proof. reflexivity. Qed.

(** A child that exits two units after the request is not killed. *)
Example terminate_cooperative_child :
  terminate_process (mkChild None None (Some (2%Q, 0%Z)) None)
    (mkTermWorld 0 []) =
    (Returned tt,
     mkTermWorld (0 + 2)
       [TLog DEBUG Terminating_subprocess; Call_terminate; Call_wait 5]).
Proof. reflexivity. Qed.

Example terminate_exited_child :
  terminate_process (mkChild (Some 0%Z) None None None) (mkTermWorld 0 []) =
    (Returned tt, mkTermWorld 0 [TLog INFO Process_already_terminated]).
Proof. reflexivity. Qed.

Lemma calls_app (t1 t2 : list term_event) :
  calls (t1 ++ t2) = calls t1 ++ calls t2.
Proof. apply List.filter_app. Qed.

Lemma exits_before_spec (t : Q) (c : child) :
  exits_before t c = true <->
  exists d code, exit_after c = Some (d, code) /\ (d < t)%Q.
Proof.
  unfold exits_before. destruct (exit_after c) as [[d code] |].
  - rewrite negb_true_iff. split.
    + intros H. exists d, code. split; [done |].
      apply Qnot_le_lt. intros Hle. apply Qle_bool_iff in Hle. congruence.
    + intros (d' & code' & [= <- <-] & Hlt).
      destruct (Qle_bool t d) eqn:E; [| done].
      apply Qle_bool_iff in E. exfalso. eapply Qlt_not_le; eauto.
  - split; [done | intros (? & ? & ? & _); done].
Qed.

(** Runs [terminate_process] on a child whose fields are known and brings
    the calls it made into the shape [calls before ++ new calls]. *)
Ltac term_run :=
  unfold terminate_process, try_except, wait_fail_after, bind; simpl;
  rewrite ?calls_app; simpl; rewrite ?app_nil_r, <- ?app_assoc; simpl.

(** C6.  [terminate_process] always returns normally.  When the child has
    already exited it makes no call on the process and takes no time.  When
    the child is still running its first call is [process.terminate()]; if
    that request went through it then waits for the exit under a deadline of
    5, and in every case at most 5 units of time pass.  [process.kill()] is
    called exactly when the request went through and the child did not exit
    before the deadline, and then only after the full 5 units of waiting;
    whatever [process.kill()] raises is logged and not raised again. *)
Theorem terminate_process_graceful_then_forced (c : child) (w : term_world) :
  (terminate_process c w).1 = Returned tt
  /\ (returncode c <> None ->
      calls (done_so_far (terminate_process c w).2) = calls (done_so_far w)
      /\ clock (terminate_process c w).2 = clock w)
  /\ (returncode c = None ->
      exists rest,
        calls (done_so_far (terminate_process c w).2) =
          calls (done_so_far w) ++ Call_terminate :: rest
        /\ (clock (terminate_process c w).2 - clock w <= 5)%Q
        /\ (on_terminate c = None -> exists rest', rest = Call_wait 5 :: rest')
        /\ (Call_kill ∈ rest <->
            on_terminate c = None /\ exits_before 5 c = false)
        /\ (Call_kill ∈ rest ->
            rest = [Call_wait 5; Call_kill]
            /\ clock (terminate_process c w).2 = (clock w + 5)%Q)).
Proof.
  destruct c as [rc ot ea ok]. unfold exits_before. simpl.
  destruct rc as [code |].
  - (* already exited *)
    split; [reflexivity |]. split; [| intros [=]].
    intros _. term_run. done.
  - split; [| split; [intros H; by destruct H |]].
    + destruct ot as [[] |]; [reflexivity | reflexivity |].
      destruct ea as [[d x] |]; [| destruct ok as [[] |]; reflexivity].
      unfold terminate_process, try_except, wait_fail_after, bind. simpl.
      destruct (Qle_bool 5 d); simpl; [| reflexivity].
      destruct ok as [[] |]; reflexivity.
    + intros _.
      destruct ot as [e |].
      * (* the request itself failed: nothing else is called *)
        exists []. destruct e; term_run;
          (split; [reflexivity |]); (split; [lra |]);
          (split; [intros [=] |]);
          (split; [split; [intros H; by apply elem_of_nil in H
                          | intros [[=] _]]
                  | intros H; by apply elem_of_nil in H]).
      * destruct ea as [[d x] |].
        -- unfold terminate_process, try_except, wait_fail_after, bind. simpl.
           destruct (Qle_bool 5 d) eqn:E; simpl.
           ++ exists [Call_wait 5; Call_kill].
              destruct ok as [[] |]; term_run;
                (split; [reflexivity |]); (split; [lra |]);
                (split; [intros _; eauto |]);
                (split; [split; [done | intros _; set_solver] | done]).
           ++ exists [Call_wait 5]. term_run.
              split; [reflexivity |].
              assert (Hd : (d < 5)%Q).
              { apply Qnot_le_lt. intros Hle. apply Qle_bool_iff in Hle.
                congruence. }
              split; [lra |]. split; [intros _; eauto |].
              assert (Hno : Call_kill ∉ [Call_wait 5]).
              { intros H. apply list_elem_of_singleton in H. discriminate. }
              split; [split; [done | intros [_ [=]]] | done].
        -- exists [Call_wait 5; Call_kill].
           destruct ok as [[] |]; term_run;
             (split; [reflexivity |]); (split; [lra |]);
             (split; [intros _; eauto |]);
             (split; [split; [done | intros _; set_solver] | done]).
Qed.

(** ** Framing *)

Example split_nl_three :
  split_nl ("a" +:+ str1 newline +:+ str1 newline +:+ "b") =
    ["a"; EmptyString; "b"].
Proof. reflexivity. Qed.

Example split_nl_terminated :
  split_nl ("a" +:+ str1 newline) = ["a"; EmptyString].
Proof. reflexivity. Qed.

Example pop_last : pop ["a"; "b"; "c"] = Some (["a"; "b"], "c").
Proof. reflexivity. Qed.

Example strip_both_ends :
  strip (String "009" " a b " +:+ str1 newline) = "a b".
Proof. reflexivity. Qed.

Example frame_partial :
  frame ("a" +:+ str1 newline +:+ "bc") = (["a"], "bc").
Proof. reflexivity. Qed.

Lemma append_nil_r (s : string) : s +:+ EmptyString = s.
Proof. induction s; simpl; congruence. Qed.

Lemma append_assoc (a b c : string) : (a +:+ b) +:+ c = a +:+ (b +:+ c).
Proof. induction a; simpl; congruence. Qed.

Lemma joined_app (cs1 cs2 : list string) :
  joined (cs1 ++ cs2) = joined cs1 +:+ joined cs2.
Proof.
  induction cs1 as [| c cs1 IH]; simpl; [done |].
  by rewrite IH, append_assoc.
Qed.

Lemma has_newline_app (a b : string) :
  has_newline (a +:+ b) = has_newline a || has_newline b.
Proof.
  induction a as [| c a IH]; simpl; [done |].
  by rewrite IH, orb_assoc.
Qed.

Lemma split_nl_nonempty (s : string) : split_nl s <> [].
Proof.
  destruct s as [| c s]; simpl; [done |].
  destruct (Ascii.eqb c newline); [done |]. by destruct (split_nl s).
Qed.

Lemma pop_cons {A} (x : A) (l : list A) :
  l <> [] ->
  pop (x :: l) = match pop l with
                 | Some (init, y) => Some (x :: init, y)
                 | None => None
                 end.
Proof. by destruct l. Qed.

(** [split] and [pop] together are [frame]. *)
Lemma pop_split_nl (s : string) : pop (split_nl s) = Some (frame s).
Proof.
  induction s as [| c s IH]; simpl; [done |].
  destruct (frame s) as [ls r] eqn:Ef.
  destruct (Ascii.eqb c newline).
  - rewrite pop_cons by apply split_nl_nonempty. by rewrite IH.
  - destruct (split_nl s) as [| x xs] eqn:Es;
      [by apply split_nl_nonempty in Es |].
    destruct xs as [| y ys].
    + simpl in IH. by injection IH as <- <-.
    + rewrite pop_cons in IH by done. rewrite pop_cons by done.
      destruct (pop (y :: ys)) as [[init z] |]; [| discriminate].
      by injection IH as <- <-.
Qed.

Lemma split_nl_frame (s : string) :
  split_nl s = complete_lines s ++ [fragment s].
Proof.
  unfold complete_lines, fragment.
  induction s as [| c s IH]; simpl; [done |].
  destruct (frame s) as [ls r]. simpl in IH.
  destruct (Ascii.eqb c newline); simpl; [by rewrite IH |].
  rewrite IH. by destruct ls.
Qed.

(** The text after the last newline holds no newline. *)
Lemma fragment_no_newline (s : string) : has_newline (fragment s) = false.
Proof.
  unfold fragment. induction s as [| c s IH]; simpl; [done |].
  destruct (frame s) as [ls r]. simpl in IH.
  destruct (Ascii.eqb c newline) eqn:E; simpl; [done |].
  destruct ls; simpl; [by rewrite E | done].
Qed.

Lemma complete_lines_no_newline (s : string) :
  Forall (fun l => has_newline l = false) (complete_lines s).
Proof.
  unfold complete_lines. induction s as [| c s IH]; simpl; [constructor |].
  destruct (frame s) as [ls r]. simpl in IH.
  destruct (Ascii.eqb c newline) eqn:E; simpl; [by constructor |].
  destruct ls as [| l ls']; simpl; [constructor |].
  inversion IH; subst. constructor; [simpl; by rewrite E | done].
Qed.

(** A text without newline is its own fragment. *)
Lemma frame_no_newline (s : string) :
  has_newline s = false -> frame s = ([], s).
Proof.
  induction s as [| c s IH]; simpl; [done |].
  intros H. apply orb_false_iff in H as [Hc Hs].
  by rewrite (IH Hs), Hc.
Qed.

(** Framing a text in two parts: the fragment of the first part is carried
    in front of the second. *)
Lemma frame_app (a b : string) :
  frame (a +:+ b) =
    (complete_lines a ++ complete_lines (fragment a +:+ b),
     fragment (fragment a +:+ b)).
Proof.
  unfold complete_lines, fragment.
  induction a as [| c a IH]; simpl.
  - by destruct (frame b).
  - rewrite IH. destruct (frame a) as [la ra]. simpl.
    destruct (frame (ra +:+ b)) as [lb rb] eqn:Eb. simpl.
    destruct (Ascii.eqb c newline) eqn:E; simpl; [by rewrite Eb |].
    destruct la as [| l la']; simpl; [| by rewrite Eb].
    rewrite Eb, E. by destruct lb.
Qed.

Lemma complete_lines_app (a b : string) :
  complete_lines (a +:+ b) =
    complete_lines a ++ complete_lines (fragment a +:+ b).
Proof. unfold complete_lines at 1. by rewrite frame_app. Qed.

Lemma fragment_app (a b : string) :
  fragment (a +:+ b) = fragment (fragment a +:+ b).
Proof. unfold fragment at 1. by rewrite frame_app. Qed.

(** The text is the lines, each with its newline, then the fragment. *)
Lemma frame_text (s : string) :
  s = lines_text (complete_lines s) +:+ fragment s.
Proof.
  unfold complete_lines, fragment, lines_text, terminated.
  induction s as [| c s IH]; simpl; [done |].
  destruct (frame s) as [ls r]. simpl in IH.
  destruct (Ascii.eqb c newline) eqn:E; simpl.
  - apply Ascii.eqb_eq in E. subst c. by rewrite <- IH.
  - destruct ls as [| l ls']; simpl in *; by rewrite IH at 1.
Qed.

(** Lines without newline, each terminated, frame back to themselves. *)
Lemma frame_lines_text (ls : list string) :
  Forall (fun l => has_newline l = false) ls ->
  frame (lines_text ls) = (ls, EmptyString).
Proof.
  induction 1 as [| l ls Hl _ IH]; [done |].
  unfold lines_text in *. simpl. rewrite frame_app.
  assert (Hf : frame (terminated l) = ([l], EmptyString)).
  { unfold terminated. clear -Hl.
    induction l as [| c l IHl]; simpl; [done |].
    simpl in Hl. apply orb_false_iff in Hl as [Hc Hl].
    by rewrite (IHl Hl), Hc. }
  unfold complete_lines, fragment. rewrite Hf. simpl. by rewrite IH.
Qed.

(** ** The reader loop *)

Section ReaderFacts.

Context {Data Message : Type}.
Variable json_loads : string -> option Data.
Variable model_validate : Data -> option Message.

Local Abbreviation world := (@world Data Message).
Local Abbreviation event := (@event Data Message).

Implicit Types (w : world) (line buffer chunk : string) (cs : list string).

Lemma grow_nil w : grow w [] = w.
Proof. destruct w. unfold grow. simpl. by rewrite app_nil_r. Qed.

Lemma grow_grow w (e1 e2 : list event) :
  grow (grow w e1) e2 = grow w (e1 ++ e2).
Proof. unfold grow. simpl. by rewrite app_assoc. Qed.

Lemma lines_events_app sc ro (l1 l2 : list string) :
  lines_events json_loads model_validate sc ro (l1 ++ l2) =
    lines_events json_loads model_validate sc ro l1
      ++ lines_events json_loads model_validate sc ro l2.
Proof.
  unfold lines_events. by rewrite List.filter_app, map_app, concat_app.
Qed.

(** One call of [process_json_line]: it returns normally whatever the line
    and the state of the channel, and the channel is as before. *)
Lemma process_json_line_run line w :
  process_json_line json_loads model_validate line w =
    (Returned tt,
     grow w (line_events json_loads model_validate
               (send_closed w) (receivers_open w) line)).
Proof.
  unfold process_json_line, line_events, try_except, bind,
    logging, emit, send, or_raise, grow, ret, raise.
  simpl.
  destruct (json_loads line) as [data |]; simpl; [| by rewrite <- !app_assoc].
  destruct (model_validate data) as [message |]; simpl.
  - destruct (send_closed w); simpl.
    { by rewrite <- !app_assoc. }
    destruct (receivers_open w); simpl; by rewrite <- !app_assoc.
  - by rewrite <- !app_assoc.
Qed.

Lemma process_if_nonblank_run line w :
  process_if_nonblank json_loads model_validate line w =
    (Returned tt,
     grow w (lines_events json_loads model_validate
               (send_closed w) (receivers_open w) [line])).
Proof.
  unfold process_if_nonblank, lines_events, nonblank.
  simpl. destruct (truthy (strip line)); simpl.
  - by rewrite process_json_line_run, app_nil_r.
  - unfold ret. by rewrite grow_nil.
Qed.

Lemma for_each_lines_run (lines : list string) w :
  for_each lines
    (fun line =>
       if truthy (strip line)
       then process_json_line json_loads model_validate line
       else ret tt) w =
    (Returned tt,
     grow w (lines_events json_loads model_validate
               (send_closed w) (receivers_open w) lines)).
Proof.
  revert w. induction lines as [| line lines IH]; intros w; simpl.
  - unfold ret. by rewrite grow_nil.
  - unfold bind. fold (process_if_nonblank json_loads model_validate line).
    rewrite process_if_nonblank_run, IH. simpl.
    by rewrite grow_grow, <- lines_events_app.
Qed.

(** One round of the loop: the complete lines of buffer and chunk together
    are handled, their fragment is the new buffer. *)
Lemma on_chunk_run buffer chunk w :
  on_chunk json_loads model_validate buffer chunk w =
    (Returned (fragment (buffer +:+ chunk)),
     grow w (lines_events json_loads model_validate
               (send_closed w) (receivers_open w)
               (complete_lines (buffer +:+ chunk)))).
Proof.
  unfold on_chunk. rewrite pop_split_nl.
  destruct (frame (buffer +:+ chunk)) as [ls r] eqn:Ef.
  unfold bind. rewrite for_each_lines_run.
  unfold complete_lines, fragment. by rewrite Ef.
Qed.

(** The whole loop: the complete lines of the text read are handled in
    order, and the buffer at the end is the fragment of the text. *)
Lemma read_chunks_run cs buffer (fin : stream_end) w :
  has_newline buffer = false ->
  read_chunks json_loads model_validate buffer cs fin w =
    (match fin with
     | EndOfStream => Returned (fragment (buffer +:+ joined cs))
     | ReadError e => Raised e
     end,
     grow w (lines_events json_loads model_validate
               (send_closed w) (receivers_open w)
               (complete_lines (buffer +:+ joined cs)))).
Proof.
  revert buffer w. induction cs as [| c cs IH]; intros buffer w Hb; simpl.
  - rewrite append_nil_r. unfold complete_lines, fragment.
    rewrite (frame_no_newline _ Hb). simpl.
    rewrite grow_nil. by destruct fin.
  - unfold bind. rewrite on_chunk_run.
    rewrite IH by apply fragment_no_newline. simpl.
    rewrite grow_grow, <- lines_events_app.
    rewrite <- append_assoc.
    rewrite (complete_lines_app (buffer +:+ c)), (fragment_app (buffer +:+ c)).
    by destruct fin.
Qed.

(** The block under [async with], for a stream that ends normally: every
    line of the text, the last fragment included, is handled in order. *)
Lemma reader_body_run cs w :
  reader_body json_loads model_validate (mkStream cs EndOfStream) w =
    (Returned tt,
     grow w (lines_events json_loads model_validate
               (send_closed w) (receivers_open w)
               (split_nl (joined cs)))).
Proof.
  unfold reader_body, bind. simpl.
  rewrite read_chunks_run by done. simpl.
  fold (process_if_nonblank json_loads model_validate
          (fragment (joined cs))).
  rewrite process_if_nonblank_run. simpl.
  by rewrite grow_grow, <- lines_events_app, <- split_nl_frame.
Qed.

(** [stdout_reader] on a stream that ends normally. *)
Lemma stdout_reader_run cs w :
  stdout_reader json_loads model_validate (Some (mkStream cs EndOfStream)) w =
    (Returned tt,
     mkWorld true (receivers_open w)
       (trace w ++ [Log DEBUG Starting_stdout_reader]
          ++ lines_events json_loads model_validate
               (send_closed w) (receivers_open w) (split_nl (joined cs))
          ++ [Log DEBUG Exiting_stdout_reader])).
Proof.
  unfold stdout_reader, bind, try_finally, try_except,
    async_with_writer, try_finally, logging, emit, aclose.
  simpl. rewrite reader_body_run. simpl.
  by rewrite <- !app_assoc.
Qed.

Lemma read_chunks_app cs cs' buffer (fin : stream_end) w :
  read_chunks json_loads model_validate buffer (cs ++ cs') fin w =
    (buffer' <- read_chunks json_loads model_validate buffer cs EndOfStream ;;
     read_chunks json_loads model_validate buffer' cs' fin) w.
Proof.
  revert buffer w. induction cs as [| c cs IH]; intros buffer w; simpl.
  - done.
  - unfold bind at 1 2 3. rewrite on_chunk_run. apply IH.
Qed.

Lemma sent_app (t1 t2 : list event) : sent (t1 ++ t2) = sent t1 ++ sent t2.
Proof.
  induction t1 as [| [lvl msg | m] t1 IH]; simpl; [done | done |].
  by rewrite IH.
Qed.

Lemma attempts_app (t1 t2 : list event) :
  attempts (t1 ++ t2) = attempts t1 ++ attempts t2.
Proof.
  induction t1 as [| [lvl [] | m] t1 IH]; simpl; try done.
  by rewrite IH.
Qed.

Lemma errors_app (t1 t2 : list event) :
  errors (t1 ++ t2) = errors t1 ++ errors t2.
Proof.
  induction t1 as [| [[] msg | m] t1 IH]; simpl; try done.
  by rewrite IH.
Qed.

(** Every call of [process_json_line] is one attempt, on the line given. *)
Lemma attempts_line_events sc ro line :
  attempts (line_events json_loads model_validate sc ro line) = [strip line].
Proof.
  unfold line_events. simpl.
  destruct (json_loads line) as [data |]; simpl; [| done].
  destruct (model_validate data) as [message |]; simpl; [| done].
  destruct sc; [done |]. by destruct ro.
Qed.

Lemma attempts_lines_events sc ro (lines : list string) :
  attempts (lines_events json_loads model_validate sc ro lines) =
    map strip (List.filter nonblank lines).
Proof.
  unfold lines_events.
  induction (List.filter nonblank lines) as [| l ls IH]; [done |].
  rewrite map_cons, concat_cons, attempts_app, attempts_line_events, IH.
  done.
Qed.

(** On an open channel a line is forwarded exactly when it decodes. *)
Lemma sent_line_events line :
  sent (line_events json_loads model_validate false true line) =
    match decode json_loads model_validate line with
    | Some m => [m]
    | None => []
    end.
Proof.
  unfold line_events, decode. simpl.
  destruct (json_loads line) as [data |]; simpl; [| done].
  by destruct (model_validate data).
Qed.

Lemma sent_lines_events (lines : list string) :
  sent (lines_events json_loads model_validate false true lines) =
    omap (decode json_loads model_validate) (List.filter nonblank lines).
Proof.
  unfold lines_events.
  induction (List.filter nonblank lines) as [| l ls IH]; [done |].
  rewrite map_cons, concat_cons, sent_app, sent_line_events, IH. simpl.
  by destruct (decode json_loads model_validate l).
Qed.

(** On a closed channel nothing is forwarded. *)
Lemma sent_lines_events_closed sc ro (lines : list string) :
  sc = true \/ ro = false ->
  sent (lines_events json_loads model_validate sc ro lines) = [].
Proof.
  intros Hc. unfold lines_events.
  induction (List.filter nonblank lines) as [| l ls IH]; [done |].
  rewrite map_cons, concat_cons, sent_app, IH, app_nil_r.
  unfold line_events. simpl.
  destruct (json_loads l) as [data |]; simpl; [| done].
  destruct (model_validate data) as [message |]; simpl; [| done].
  destruct sc; [done |]. destruct ro; [| done]. by destruct Hc.
Qed.

(** The lines of a text made of terminated lines: the lines, then an empty
    fragment. *)
Lemma split_nl_lines_text (ls : list string) :
  Forall (fun l => has_newline l = false) ls ->
  split_nl (lines_text ls) = ls ++ [EmptyString].
Proof.
  intros H. rewrite split_nl_frame. unfold complete_lines, fragment.
  by rewrite (frame_lines_text ls H).
Qed.

Lemma lines_events_blank_end sc ro (ls : list string) :
  lines_events json_loads model_validate sc ro (ls ++ [EmptyString]) =
    lines_events json_loads model_validate sc ro ls.
Proof.
  rewrite lines_events_app. unfold lines_events at 2. simpl.
  apply app_nil_r.
Qed.

(** A text of terminated lines is empty or ends with a newline. *)
Lemma lines_text_ends_with_newline (ls : list string) :
  lines_text ls = EmptyString
  \/ exists q, lines_text ls = q +:+ String newline EmptyString.
Proof.
  destruct ls as [| l ls] using rev_ind; [by left |].
  right. exists (lines_text ls +:+ l).
  unfold lines_text. rewrite map_app, joined_app. simpl.
  unfold terminated. by rewrite append_nil_r, append_assoc.
Qed.

Local Abbreviation run_reader cs :=
  (stdout_reader json_loads model_validate (Some (mkStream cs EndOfStream))).
Local Abbreviation run_loop cs :=
  (read_chunks json_loads model_validate EmptyString cs EndOfStream).

(** A stream that ends with [ClosedResourceError] on the read: the handler
    of [stdout_reader] logs it at level [DEBUG] and the reader returns
    normally, without looking at the buffer. *)
Lemma read_closed_stops_quietly cs w :
  stdout_reader json_loads model_validate
    (Some (mkStream cs (ReadError ClosedResourceError))) w =
    (Returned tt,
     mkWorld true (receivers_open w)
       (trace w ++ [Log DEBUG Starting_stdout_reader]
          ++ lines_events json_loads model_validate
               (send_closed w) (receivers_open w)
               (complete_lines (joined cs))
          ++ [Log DEBUG Read_stream_closed;
              Log DEBUG Exiting_stdout_reader])).
Proof.
  unfold stdout_reader, bind, try_finally, try_except,
    async_with_writer, try_finally, logging, emit, aclose, reader_body, bind.
  cbn [chunks ending fst snd].
  rewrite read_chunks_run by done.
  change (EmptyString +:+ joined cs) with (joined cs).
  cbn. by rewrite <- !app_assoc.
Qed.

(** On a closed channel every call of [process_json_line] ends in one
    record at level [ERROR]: the line does not parse, does not validate, or
    its send fails. *)
Lemma errors_lines_events_closed sc ro (lines : list string) :
  sc = true \/ ro = false ->
  length (errors (lines_events json_loads model_validate sc ro lines)) =
    length (List.filter nonblank lines).
Proof.
  intros Hc. unfold lines_events.
  induction (List.filter nonblank lines) as [| l ls IH]; [done |].
  rewrite map_cons, concat_cons, errors_app, length_app, IH.
  cbn [length]. f_equal.
  unfold line_events. simpl.
  destruct (json_loads l) as [data |]; simpl; [| done].
  destruct (model_validate data) as [message |]; simpl; [| done].
  destruct sc; [done |]. destruct ro; [| done]. by destruct Hc.
Qed.

(** C1.  When the inbound channel is closed, a line that decodes is not
    forwarded and its failed send does not reach the caller: the reader
    sends nothing and returns normally at the end of the stream.  But the
    loop does not stop, and it is not silent: every non-blank line of the
    stream is still handed to [process_json_line], and each of them leaves
    one record at level [ERROR]. *)
Theorem closed_channel_forwards_nothing cs w :
  channel_closed w ->
  (run_reader cs w).1 = Returned tt
  /\ sent (trace (run_reader cs w).2) = sent (trace w)
  /\ attempts (trace (run_reader cs w).2) =
       attempts (trace w)
         ++ map strip (List.filter nonblank (split_nl (joined cs)))
  /\ length (errors (trace (run_reader cs w).2)) =
       length (errors (trace w))
         + length (List.filter nonblank (split_nl (joined cs))).
Proof.
  intros Hc. rewrite stdout_reader_run. cbn [fst snd trace].
  split; [done |]. split; [| split].
  - rewrite !sent_app, (sent_lines_events_closed _ _ _ Hc). cbn [sent].
    by rewrite !app_nil_r.
  - rewrite !attempts_app, attempts_lines_events. cbn [attempts].
    by rewrite app_nil_r.
  - rewrite !errors_app, !length_app, (errors_lines_events_closed _ _ _ Hc).
    cbn [errors length]. lia.
Qed.

(** C2.  Take lines without newline and cut the text made of these lines,
    each followed by a newline, into chunks in two ways.  From the same world
    [stdout_reader] then ends in the same outcome and the same world, so it
    sends the same messages in the same order; on an open channel these are
    the messages the non-blank lines decode to, in the order of the lines. *)
Theorem chunk_boundary_invariance (ls cs1 cs2 : list string) w :
  Forall (fun l => has_newline l = false) ls ->
  joined cs1 = lines_text ls ->
  joined cs2 = lines_text ls ->
  run_reader cs1 w = run_reader cs2 w
  /\ sent (trace (run_reader cs1 w).2) = sent (trace (run_reader cs2 w).2)
  /\ (channel_open w ->
      sent (trace (run_reader cs1 w).2) =
        sent (trace w)
          ++ omap (decode json_loads model_validate)
               (List.filter nonblank ls)).
Proof.
  intros Hls H1 H2.
  rewrite !stdout_reader_run, H1, H2.
  split; [done |]. split; [done |].
  intros [Hsc Hro]. cbn [fst snd trace]. rewrite Hsc, Hro.
  rewrite split_nl_lines_text by done.
  rewrite lines_events_blank_end, !sent_app, sent_lines_events.
  cbn [sent]. by rewrite app_nil_r.
Qed.

(** C4.  A stream whose text is a line that decodes, a line that does not,
    and a second line that decodes, each terminated, however it is cut into
    chunks: on an open channel [stdout_reader] returns normally and has sent
    the two decoded messages, in order, and nothing else.  If the middle
    line is not blank it is handed to [process_json_line] between the other
    two and exactly one record is logged at level [ERROR], for that line;
    the third line is handled after it. *)
Theorem malformed_line_is_skipped (l1 l2 l3 : string) (m1 m3 : Message)
    cs w :
  has_newline l1 = false -> has_newline l2 = false ->
  has_newline l3 = false ->
  nonblank l1 = true -> nonblank l3 = true ->
  decode json_loads model_validate l1 = Some m1 ->
  decode json_loads model_validate l2 = None ->
  decode json_loads model_validate l3 = Some m3 ->
  joined cs = lines_text [l1; l2; l3] ->
  channel_open w ->
  (run_reader cs w).1 = Returned tt
  /\ sent (trace (run_reader cs w).2) = sent (trace w) ++ [m1; m3]
  /\ (nonblank l2 = true ->
      attempts (trace (run_reader cs w).2) =
        attempts (trace w) ++ [strip l1; strip l2; strip l3]
      /\ exists exc,
          (errors (trace (run_reader cs w).2) =
             errors (trace w) ++ [JSON_decode_error exc (strip l2)]
           \/ errors (trace (run_reader cs w).2) =
                errors (trace w) ++ [Error_processing_message exc (strip l2)])).
Proof.
  intros N1 N2 N3 B1 B3 D1 D2 D3 Hcs [Hsc Hro].
  rewrite stdout_reader_run, Hcs, Hsc, Hro. cbn [fst snd trace].
  rewrite split_nl_lines_text by (repeat constructor; done).
  rewrite lines_events_blank_end.
  split; [done |]. split.
  - rewrite !sent_app, sent_lines_events. simpl.
    rewrite B1, B3. destruct (nonblank l2); simpl;
      rewrite D1, ?D2, D3; done.
  - intros B2. split.
    + rewrite !attempts_app, attempts_lines_events. simpl.
      rewrite B1, B2, B3. simpl. rewrite ?app_nil_r; done.
    + rewrite !errors_app. unfold lines_events. simpl.
      rewrite B1, B2, B3. simpl. rewrite !errors_app.
      unfold decode in D1, D2, D3. unfold line_events.
      destruct (json_loads l1) as [d1 |]; [| done].
      destruct (json_loads l3) as [d3 |]; [| done].
      rewrite D1, D3. simpl.
      destruct (json_loads l2) as [d2 |]; simpl.
      * rewrite D2. simpl. exists ValidationError. right.
        rewrite ?app_nil_r; done.
      * exists JSONDecodeError. left. rewrite ?app_nil_r; done.
Qed.


(** C8.  After the chunks [cs] the loop holds a buffer [b] without newline:
    the text read so far is [p +:+ b] where [p] is empty or ends with a
    newline, that is, [b] is what follows the last newline.  The loop
    goes on from exactly this buffer, and after one more chunk the buffer is
    again the fragment of the text read. *)
Theorem buffer_is_trailing_fragment cs chunk w :
  exists b,
    (run_loop cs w).1 = Returned b
    /\ has_newline b = false
    /\ (exists p, joined cs = p +:+ b
                  /\ (p = EmptyString
                      \/ exists q, p = q +:+ String newline EmptyString))
    /\ b = fragment (joined cs)
    /\ (on_chunk json_loads model_validate b chunk (run_loop cs w).2).1 =
         Returned (fragment (joined (cs ++ [chunk])))
    /\ has_newline (fragment (joined (cs ++ [chunk]))) = false
    /\ (forall cs' fin,
          read_chunks json_loads model_validate EmptyString (cs ++ cs') fin w =
            read_chunks json_loads model_validate b cs' fin (run_loop cs w).2).
Proof.
  exists (fragment (joined cs)).
  rewrite read_chunks_run by done.
  change (EmptyString +:+ joined cs) with (joined cs). cbn [fst snd].
  split; [done |]. split; [apply fragment_no_newline |].
  split; [| split; [done | split; [| split]]].
  - exists (lines_text (complete_lines (joined cs))).
    split; [apply frame_text | apply lines_text_ends_with_newline].
  - rewrite on_chunk_run. cbn [fst].
    rewrite joined_app, <- fragment_app. cbn [joined foldr].
    by rewrite append_nil_r.
  - apply fragment_no_newline.
  - intros cs' fin. rewrite read_chunks_app. unfold bind.
    by rewrite read_chunks_run.
Qed.

End ReaderFacts.

(** ** The codec: reading back what was written *)

Example loads_nested :
  loads "{ } " = Some (JObject [])
  /\ loads "[1, -20 ,true,null,[ ]]" =
       Some (JArray [JNumber 1; JNumber (-20); JBool true; JNull; JArray []])
  /\ loads "[01]" = None
  /\ loads "[1,]" = None
  /\ loads "[1.5]" = None
  /\ loads "{} x" = None
  /\ loads "   " = None.
Proof. vm_compute. repeat split; reflexivity. Qed.

Example dumps_escapes :
  dumps (JString (String "010" (String "001" "a/b"))) =
    String dquote (String backslash "n"
                     +:+ String backslash "u0001a/b" +:+ str1 dquote).
Proof. reflexivity. Qed.

Example ping1_round_trip :
  loads (model_dump_json true ping1) = Some (JObject ping1)
  /\ String.length (model_dump_json true ping1) = 40.
Proof. vm_compute. split; reflexivity. Qed.

Example ping2_loses_its_None_field :
  decode_line ["jsonrpc"] (stdin_writer_line ping2) =
    Some [("jsonrpc", JString "2.0"); ("method", JString "ping");
          ("id", JNumber 2)]
  /\ decode_line ["params"] (stdin_writer_line ping2) = None.
Proof. vm_compute. split; reflexivity. Qed.

Lemma length_append (a b : string) :
  String.length (a +:+ b) = String.length a + String.length b.
Proof. induction a as [| c a IH]; simpl; [done | by rewrite IH]. Qed.

(** An escaped character reads back as the character. *)
Lemma parse_string_body_escape_char (c : ascii) (t : string) :
  parse_string_body (escape_char c +:+ t) = prepend c (parse_string_body t).
Proof. destruct c as [[] [] [] [] [] [] [] []]; reflexivity. Qed.

Lemma parse_string_body_escape (s rest : string) :
  parse_string_body (escape s +:+ String dquote rest) = Some (s, rest).
Proof.
  induction s as [| c s IH]; [done |].
  cbn [escape]. rewrite append_assoc, parse_string_body_escape_char, IH.
  done.
Qed.

Lemma escape_char_no_newline (c : ascii) : has_newline (escape_char c) = false.
Proof. destruct c as [[] [] [] [] [] [] [] []]; reflexivity. Qed.

Lemma dump_string_no_newline (s : string) : has_newline (dump_string s) = false.
Proof.
  unfold dump_string. cbn [has_newline]. rewrite has_newline_app.
  assert (H : has_newline (escape s) = false).
  { induction s as [| c s IH]; [done |].
    cbn [escape]. by rewrite has_newline_app, escape_char_no_newline, IH. }
  by rewrite H.
Qed.

Lemma read_uint_string_of_uint (d : Decimal.uint) (rest : string) :
  ends_value rest = true ->
  read_uint (string_of_uint d +:+ rest) = (d, rest).
Proof.
  intros Hr. induction d; cbn [string_of_uint];
    try (change (String ?c ?s +:+ rest) with (String c (s +:+ rest));
         cbn [read_uint]; rewrite IHd; reflexivity).
  change (EmptyString +:+ rest) with rest.
  destruct rest as [| c rest]; [done |].
  cbn [read_uint]. simpl in Hr.
  destruct (read_uint rest). by destruct (digit_value c).
Qed.

Lemma ends_value_no_fraction (rest : string) :
  ends_value rest = true -> starts_fraction rest = false.
Proof.
  destruct rest as [| c rest]; [done |]. unfold ends_value.
  destruct (digit_value c); [done |]. by rewrite negb_true_iff.
Qed.

(** The digits of a positive number do not start with a zero. *)
Lemma to_uint_head (p : positive) :
  Pos.to_uint p <> Decimal.Nil /\ forall d, Pos.to_uint p <> Decimal.D0 d.
Proof.
  split; [apply DecimalPos.Unsigned.to_uint_nonnil |].
  intros d Hd.
  pose proof (DecimalPos.Unsigned.to_of (Pos.to_uint p)) as H.
  rewrite DecimalPos.Unsigned.of_to in H. cbn [N.to_uint] in H.
  assert (Hz : Decimal.nzhead (Pos.to_uint p) <> Decimal.Nil).
  { intros Hn. apply DecimalFacts.unorm_0 in Hn. rewrite <- H in Hn.
    by apply (DecimalPos.Unsigned.to_uint_nonzero p). }
  rewrite (DecimalFacts.unorm_nzhead _ Hz) in H.
  rewrite H in Hd. by apply DecimalFacts.nzhead_nonzero in Hd.
Qed.

Lemma parse_nat_to_uint (n : N) (rest : string) :
  ends_value rest = true ->
  parse_nat (string_of_uint (N.to_uint n) +:+ rest) = Some (n, rest).
Proof.
  intros Hr. unfold parse_nat.
  rewrite read_uint_string_of_uint by done.
  rewrite (ends_value_no_fraction _ Hr).
  destruct n as [| p]; [done |]. cbn [N.to_uint].
  destruct (to_uint_head p) as [Hnil Hzero].
  pose proof (DecimalPos.Unsigned.of_to p) as Hof.
  destruct (Pos.to_uint p) eqn:E; try done; try (by rewrite <- Hof).
  by destruct (Hzero u).
Qed.

Lemma string_of_uint_digit_head (d : Decimal.uint) :
  d <> Decimal.Nil ->
  exists c s, string_of_uint d = String c s /\ digit_value c <> None.
Proof. destruct d; [done | ..]; intros _; eexists _, _; split; done. Qed.

Lemma to_uint_nonnil (n : N) : N.to_uint n <> Decimal.Nil.
Proof.
  destruct n; [done |]. apply DecimalPos.Unsigned.to_uint_nonnil.
Qed.

Lemma parse_int_dump_int (n : Z) (rest : string) :
  ends_value rest = true ->
  parse_int (dump_int n +:+ rest) = Some (n, rest).
Proof.
  intros Hr. destruct n as [| p | p]; cbn [dump_int Z.to_N].
  - unfold parse_int. cbn [N.to_uint string_of_uint].
    change (String "0" EmptyString +:+ rest) with (String "0" rest).
    change (String "0" rest)
      with (string_of_uint (N.to_uint 0) +:+ rest).
    cbn match. by rewrite parse_nat_to_uint.
  - destruct (string_of_uint_digit_head (N.to_uint (Npos p))
                (to_uint_nonnil _)) as (c & s & Hs & Hc).
    pose proof (parse_nat_to_uint (Npos p) rest Hr) as Hp.
    rewrite Hs in *.
    change (String c s +:+ rest) with (String c (s +:+ rest)) in *.
    unfold parse_int.
    assert (Hminus : Ascii.eqb c "-" = false).
    { destruct (Ascii.eqb c "-") eqn:E; [| done].
      apply Ascii.eqb_eq in E. by subst c. }
    destruct c as [[] [] [] [] [] [] [] []]; try discriminate;
      by rewrite Hp.
  - change (String "-" ?x +:+ rest) with (String "-" (x +:+ rest)).
    unfold parse_int.
    change (Pos.to_uint p) with (N.to_uint (Npos p)).
    by rewrite parse_nat_to_uint.
Qed.

(** *** Induction on JSON values *)

Lemma json_induction (P : json -> Prop) :
  P JNull ->
  (forall b, P (JBool b)) ->
  (forall n, P (JNumber n)) ->
  (forall s, P (JString s)) ->
  (forall items, Forall P items -> P (JArray items)) ->
  (forall members, Forall (fun m => P m.2) members -> P (JObject members)) ->
  forall v, P v.
Proof.
  intros Hnull Hbool Hnum Hstr Harr Hobj.
  fix IH 1. intros [| b | n | s | items | members].
  - exact Hnull.
  - apply Hbool.
  - apply Hnum.
  - apply Hstr.
  - apply Harr.
    refine ((fix go (l : list json) : Forall P l :=
               match l with
               | [] => Forall_nil_2 P
               | x :: l' => Forall_cons_2 P x l' (IH x) (go l')
               end) items).
  - apply Hobj.
    refine ((fix go (l : list (string * json)) : Forall (fun m => P m.2) l :=
               match l with
               | [] => Forall_nil_2 _
               | m :: l' => Forall_cons_2 _ m l' (IH m.2) (go l')
               end) members).
Qed.

Lemma append_String (c : ascii) (s t : string) :
  String c s +:+ t = String c (s +:+ t).
Proof. reflexivity. Qed.

Lemma dumps_array (x : json) (items : list json) :
  dumps (JArray (x :: items)) =
    String "[" (dumps x +:+ items_tail items +:+ String "]" EmptyString).
Proof. reflexivity. Qed.

Lemma dumps_object (k : string) (x : json) (members : list (string * json)) :
  dumps (JObject ((k, x) :: members)) =
    String "{" (member_text (k, x) +:+ members_tail members
                  +:+ String "}" EmptyString).
Proof. unfold member_text. cbn [dumps fst snd]. by rewrite append_assoc. Qed.

(** *** The first character of a value *)

Lemma dumps_head (v : json) :
  exists c s, dumps v = String c s /\ value_head c = true.
Proof.
  destruct v as [| [] | n | s | [| x items] | [| [k x] members]];
    try (eexists _, _; split; [reflexivity | reflexivity]).
  cbn [dumps]. destruct n as [| p | p]; cbn [dump_int Z.to_N].
  - eexists _, _. split; reflexivity.
  - destruct (string_of_uint_digit_head (N.to_uint (Npos p))
                (to_uint_nonnil _)) as (c & s & Hs & Hc).
    exists c, s. split; [done |]. unfold value_head.
    destruct (digit_value c); [| done]. by rewrite !orb_true_r.
  - eexists _, _. split; reflexivity.
Qed.

Lemma value_head_not_ws (c : ascii) :
  value_head c = true -> is_json_ws c = false.
Proof. destruct c as [[] [] [] [] [] [] [] []]; done. Qed.

Lemma skip_ws_dumps (v : json) (rest : string) :
  skip_ws (dumps v +:+ rest) = dumps v +:+ rest.
Proof.
  destruct (dumps_head v) as (c & s & -> & Hc).
  rewrite append_String. cbn [skip_ws].
  by rewrite (value_head_not_ws c Hc).
Qed.

Lemma dumps_length_pos (v : json) : 1 <= String.length (dumps v).
Proof. destruct (dumps_head v) as (c & s & -> & _). simpl. lia. Qed.

(** *** Reading back one value *)

Lemma dump_int_head (n : Z) :
  exists c s, dump_int n = String c s
              /\ (c = "-"%char \/ digit_value c <> None).
Proof.
  destruct n as [| p | p]; cbn [dump_int Z.to_N].
  - eexists _, _. split; [reflexivity | by right].
  - destruct (string_of_uint_digit_head (N.to_uint (Npos p))
                (to_uint_nonnil _)) as (c & s & Hs & Hc).
    exists c, s. split; [done | by right].
  - eexists _, _. split; [reflexivity | by left].
Qed.

Lemma parse_value_int_head (fuel : nat) (c : ascii) (s : string) :
  c = "-"%char \/ digit_value c <> None ->
  parse_value (S fuel) (String c s) =
    match parse_int (String c s) with
    | Some (n, r) => Some (JNumber n, r)
    | None => None
    end.
Proof.
  intros H.
  destruct c as [[] [] [] [] [] [] [] []]; try reflexivity;
    exfalso; destruct H as [H | H]; done.
Qed.

Lemma parse_value_number (fuel : nat) (n : Z) (rest : string) :
  ends_value rest = true ->
  parse_value (S fuel) (dump_int n +:+ rest) = Some (JNumber n, rest).
Proof.
  intros Hr. pose proof (parse_int_dump_int n rest Hr) as Hp.
  destruct (dump_int_head n) as (c & s & Hs & Hc).
  rewrite Hs in *. rewrite append_String in *.
  by rewrite (parse_value_int_head fuel c _ Hc), Hp.
Qed.

Lemma parse_value_string (fuel : nat) (s rest : string) :
  parse_value (S fuel) (dump_string s +:+ rest) = Some (JString s, rest).
Proof.
  unfold dump_string, str1. rewrite append_String, append_assoc, append_String.
  change (EmptyString +:+ rest) with rest.
  cbn [parse_value].
  change (Ascii.eqb dquote dquote) with true. cbn match.
  by rewrite parse_string_body_escape.
Qed.

Lemma parse_value_array (fuel : nat) (x : json) (t : string) :
  parse_value (S fuel) (String "[" (dumps x +:+ t)) =
    match parse_elements fuel (dumps x +:+ t) with
    | Some (items, r) => Some (JArray items, r)
    | None => None
    end.
Proof.
  cbn [parse_value].
  change (Ascii.eqb "[" dquote) with false.
  change (Ascii.eqb "[" "{") with false.
  change (Ascii.eqb "[" "[") with true. cbn match.
  rewrite skip_ws_dumps.
  destruct (dumps_head x) as (c & s & -> & Hc). rewrite append_String.
  destruct c as [[] [] [] [] [] [] [] []]; try done.
Qed.

Lemma parse_value_object (fuel : nat) (m : string * json) (t : string) :
  parse_value (S fuel) (String "{" (member_text m +:+ t)) =
    match parse_members fuel (member_text m +:+ t) with
    | Some (pairs, r) => Some (JObject (dict_of_pairs pairs), r)
    | None => None
    end.
Proof. reflexivity. Qed.

Lemma items_tail_cons (y : json) (items : list json) :
  items_tail (y :: items) = String "," (dumps y +:+ items_tail items).
Proof. reflexivity. Qed.

Lemma members_tail_cons (m : string * json) (members : list (string * json)) :
  members_tail (m :: members) =
    String "," (member_text m +:+ members_tail members).
Proof. reflexivity. Qed.

Lemma parse_elements_dumps (items : list json) :
  Forall reads_back items ->
  forall x fuel rest,
    reads_back x ->
    forallb well_formed (x :: items) = true ->
    String.length (dumps x) + String.length (items_tail items) + 1 <= fuel ->
    parse_elements fuel
      (dumps x +:+ items_tail items +:+ String "]" rest) =
      Some (x :: items, rest).
Proof.
  induction 1 as [| y items Hy _ IH]; intros x fuel rest Hx Hwf Hfuel;
    (destruct fuel as [| fuel]; [lia |]);
    cbn [forallb] in Hwf; apply andb_true_iff in Hwf as [Hwx Hwf].
  - change (items_tail []) with EmptyString in *.
    change (EmptyString +:+ String "]" rest) with (String "]" rest).
    cbn [parse_elements].
    rewrite (Hx Hwx) by (done || simpl in Hfuel; lia). done.
  - rewrite items_tail_cons in *. cbn [String.length] in Hfuel.
    rewrite length_append in Hfuel.
    rewrite append_String, append_assoc.
    cbn [parse_elements].
    rewrite (Hx Hwx) by (done || lia).
    cbn [skip_ws]. change (is_json_ws ",") with false. cbn match.
    rewrite skip_ws_dumps.
    assert (Hfuel' : String.length (dumps y)
                     + String.length (items_tail items) + 1 <= fuel) by lia.
    by rewrite (IH y fuel rest Hy Hwf Hfuel').
Qed.

Lemma member_text_app (k : string) (x : json) (t : string) :
  member_text (k, x) +:+ t =
    String dquote (escape k +:+ String dquote (String ":" (dumps x +:+ t))).
Proof.
  unfold member_text, dump_string, str1. cbn [fst snd].
  by rewrite !append_String, !append_assoc.
Qed.

Lemma member_text_length (k : string) (x : json) :
  String.length (member_text (k, x)) =
    String.length (dump_string k) + 1 + String.length (dumps x).
Proof.
  unfold member_text. cbn [fst snd]. rewrite length_append. simpl. lia.
Qed.

Lemma ends_value_members_tail (members : list (string * json)) (rest : string) :
  ends_value (members_tail members +:+ String "}" rest) = true.
Proof. by destruct members. Qed.

Lemma parse_members_dumps (members : list (string * json)) :
  Forall (fun m => reads_back m.2) members ->
  forall k x fuel rest,
    reads_back x ->
    forallb (fun m => well_formed m.2) ((k, x) :: members) = true ->
    String.length (member_text (k, x))
      + String.length (members_tail members) + 1 <= fuel ->
    parse_members fuel
      (member_text (k, x) +:+ members_tail members +:+ String "}" rest) =
      Some ((k, x) :: members, rest).
Proof.
  induction 1 as [| [k' y] members Hy _ IH];
    intros k x fuel rest Hx Hwf Hfuel;
    (destruct fuel as [| fuel]; [lia |]);
    cbn [forallb snd] in Hwf; apply andb_true_iff in Hwf as [Hwx Hwf];
    rewrite member_text_length in Hfuel;
    rewrite member_text_app; cbn [parse_members];
    change (Ascii.eqb dquote dquote) with true; cbn match;
    rewrite parse_string_body_escape;
    cbn [skip_ws]; change (is_json_ws ":") with false; cbn match;
    rewrite skip_ws_dumps;
    rewrite (Hx Hwx) by (apply ends_value_members_tail || lia).
  - done.
  - rewrite members_tail_cons in *. rewrite append_String.
    cbn [skip_ws]. change (is_json_ws ",") with false. cbn match.
    cbn [String.length] in Hfuel. rewrite length_append in Hfuel.
    assert (Hfuel' : String.length (member_text (k', y))
                     + String.length (members_tail members) + 1 <= fuel)
      by lia.
    rewrite append_assoc.
    pose proof (IH k' y fuel rest Hy Hwf Hfuel') as Hrec.
    rewrite member_text_app in *. cbn [skip_ws].
    change (is_json_ws dquote) with false. cbn match.
    by rewrite Hrec.
Qed.

(** *** Objects as dictionaries *)

Lemma distinct_keys_NoDup (ks : list string) :
  distinct_keys ks = true <-> NoDup ks.
Proof.
  induction ks as [| k ks IH]; cbn [distinct_keys].
  - split; [constructor | done].
  - rewrite andb_true_iff, negb_true_iff, IH, NoDup_cons.
    assert (Hex : existsb (String.eqb k) ks = false <-> k ∉ ks).
    { rewrite <- not_true_iff_false, existsb_exists. split.
      - intros Hn Hin. apply Hn. exists k. split.
        + by apply list_elem_of_In.
        + apply String.eqb_refl.
      - intros Hn (k' & Hin & Heq). apply String.eqb_eq in Heq. subst k'.
        by apply Hn, list_elem_of_In. }
    by rewrite Hex.
Qed.

Lemma dict_set_fresh (k : string) (v : json) (d : list (string * json)) :
  k ∉ map fst d -> dict_set k v d = d ++ [(k, v)].
Proof.
  induction d as [| [k' v'] d IH]; cbn [dict_set map fst]; [done |].
  intros Hn. apply not_elem_of_cons in Hn as [Hne Hn].
  destruct (String.eqb k k') eqn:E.
  - apply String.eqb_eq in E. done.
  - by rewrite (IH Hn).
Qed.

Lemma fold_dict_set (pairs acc : list (string * json)) :
  NoDup (map fst (acc ++ pairs)) ->
  fold_left (fun d kv => dict_set kv.1 kv.2 d) pairs acc = acc ++ pairs.
Proof.
  revert acc. induction pairs as [| [k v] pairs IH]; intros acc Hnd.
  - by rewrite app_nil_r.
  - cbn [fold_left fst snd].
    assert (Hk : k ∉ map fst acc).
    { rewrite map_app in Hnd. apply NoDup_app in Hnd as (_ & Hd & _).
      intros Hin. apply (Hd k Hin). cbn [map fst]. apply list_elem_of_here. }
    rewrite (dict_set_fresh k v acc Hk).
    rewrite IH; rewrite <- app_assoc; done.
Qed.

Lemma dict_of_pairs_distinct (pairs : list (string * json)) :
  distinct_keys (map fst pairs) = true -> dict_of_pairs pairs = pairs.
Proof.
  intros H. apply distinct_keys_NoDup in H.
  unfold dict_of_pairs. by rewrite fold_dict_set.
Qed.

(** *** Every well-formed value reads back *)

Lemma parse_value_dumps (v : json) : reads_back v.
Proof.
  induction v as [| b | n | s | items IH | members IH] using json_induction;
    intros Hwf fuel rest Hfuel Hrest;
    (destruct fuel as [| fuel];
     [match type of Hfuel with
      | String.length (dumps ?u) <= _ =>
          pose proof (dumps_length_pos u) as Hpos; lia
      end |]).
  - reflexivity.
  - by destruct b.
  - by apply parse_value_number.
  - apply parse_value_string.
  - destruct items as [| x items]; [reflexivity |].
    rewrite dumps_array in *. rewrite append_String.
    rewrite !append_assoc. change (String "]" EmptyString +:+ rest)
      with (String "]" rest).
    rewrite parse_value_array.
    apply Forall_cons in IH as [Hx IH].
    rewrite (parse_elements_dumps items IH x fuel rest Hx Hwf); [done |].
    cbn [String.length] in Hfuel. rewrite !length_append in Hfuel.
    cbn [String.length] in Hfuel. lia.
  - destruct members as [| [k x] members]; [reflexivity |].
    rewrite dumps_object in *. rewrite append_String.
    rewrite !append_assoc. change (String "}" EmptyString +:+ rest)
      with (String "}" rest).
    rewrite parse_value_object.
    apply Forall_cons in IH as [Hx IH]. cbn [snd] in Hx.
    cbn [well_formed] in Hwf. apply andb_true_iff in Hwf as [Hkeys Hwf].
    rewrite (parse_members_dumps members IH k x fuel rest Hx Hwf).
    + by rewrite (dict_of_pairs_distinct _ Hkeys).
    + cbn [String.length] in Hfuel. rewrite !length_append in Hfuel.
      cbn [String.length] in Hfuel. lia.
Qed.

(** [loads] reads a value back from its text, followed by nothing or by the
    newline that ends a line. *)
Lemma loads_dumps (v : json) (tail : string) :
  well_formed v = true ->
  tail = EmptyString \/ tail = str1 newline ->
  loads (dumps v +:+ tail) = Some v.
Proof.
  intros Hwf Htail. unfold loads. rewrite skip_ws_dumps.
  rewrite (parse_value_dumps v Hwf).
  - by destruct Htail as [-> | ->].
  - rewrite length_append. lia.
  - by destruct Htail as [-> | ->].
Qed.

(** *** The text of a value is one non-blank line *)

Lemma string_of_uint_no_newline (d : Decimal.uint) :
  has_newline (string_of_uint d) = false.
Proof. induction d; simpl; done. Qed.

Lemma dump_int_no_newline (n : Z) : has_newline (dump_int n) = false.
Proof.
  destruct n; cbn [dump_int]; cbn [has_newline];
    rewrite ?string_of_uint_no_newline; done.
Qed.

Lemma dumps_no_newline (v : json) : has_newline (dumps v) = false.
Proof.
  induction v as [| b | n | s | items IH | members IH] using json_induction.
  - done.
  - by destruct b.
  - apply dump_int_no_newline.
  - apply dump_string_no_newline.
  - destruct items as [| x items]; [done |].
    rewrite dumps_array. apply Forall_cons in IH as [Hx IH].
    cbn [has_newline]. rewrite !has_newline_app, Hx.
    assert (Ht : has_newline (items_tail items) = false).
    { clear Hx. induction IH as [| y items Hy _ IHt]; [done |].
      rewrite items_tail_cons. cbn [has_newline].
      by rewrite has_newline_app, Hy, IHt. }
    by rewrite Ht.
  - destruct members as [| [k x] members]; [done |].
    rewrite dumps_object. apply Forall_cons in IH as [Hx IH].
    cbn [snd] in Hx.
    assert (Hm : forall k' y, has_newline (dumps y) = false ->
                 has_newline (member_text (k', y)) = false).
    { intros k' y Hy. unfold member_text. cbn [fst snd].
      rewrite has_newline_app, dump_string_no_newline. cbn [has_newline].
      by rewrite Hy. }
    cbn [has_newline]. rewrite !has_newline_app, (Hm k x Hx).
    assert (Ht : has_newline (members_tail members) = false).
    { clear Hx. induction IH as [| [k' y] members Hy _ IHt]; [done |].
      rewrite members_tail_cons. cbn [has_newline].
      by rewrite has_newline_app, (Hm k' y Hy), IHt. }
    by rewrite Ht.
Qed.

Lemma value_head_not_space (c : ascii) :
  value_head c = true -> isspace c = false.
Proof. destruct c as [[] [] [] [] [] [] [] []]; done. Qed.

Lemma dumps_nonblank (v : json) : nonblank (dumps v) = true.
Proof.
  destruct (dumps_head v) as (c & s & -> & Hc).
  apply value_head_not_space in Hc.
  unfold nonblank, strip. cbn [lstrip]. rewrite Hc. cbn [rstrip].
  destruct (rstrip s); [by rewrite Hc | done].
Qed.

(** *** Messages *)

Lemma populated_well_formed (m : JSONRPCMessage) :
  valid_message m = true -> well_formed (JObject (populated m)) = true.
Proof.
  unfold valid_message. cbn [well_formed]. rewrite !andb_true_iff.
  intros [Hk Hv]. split.
  - apply distinct_keys_NoDup in Hk. apply distinct_keys_NoDup.
    clear Hv. induction m as [| [k v] m IH]; [constructor |].
    cbn [map fst] in Hk. apply NoDup_cons in Hk as [Hn Hk].
    unfold populated. cbn [List.filter snd].
    destruct (negb (is_null v)); [| by apply IH].
    cbn [map fst]. apply NoDup_cons. split; [| by apply IH].
    intros Hin. apply Hn.
    apply list_elem_of_fmap in Hin as ([k' v'] & -> & Hin).
    apply list_elem_of_fmap. exists (k', v'). split; [done |].
    apply list_elem_of_In. apply list_elem_of_In in Hin.
    by apply List.filter_In in Hin as [Hin _].
  - apply forallb_forall. intros kv Hin.
    apply List.filter_In in Hin as [Hin _].
    by apply (proj1 (forallb_forall _ _) Hv).
Qed.

(** A field that is set keeps its value when the [None] fields go. *)
Lemma populated_all_set (m : JSONRPCMessage) :
  forallb (fun kv => negb (is_null kv.2)) m = true -> populated m = m.
Proof.
  induction m as [| kv m IH]; [done |].
  cbn [forallb]. rewrite andb_true_iff. intros [Hkv Hm].
  unfold populated. cbn [List.filter]. rewrite Hkv.
  f_equal. by apply IH.
Qed.

Lemma field_absent (k : string) (d : list (string * json)) :
  existsb (String.eqb k) (map fst d) = false -> field k d = None.
Proof.
  induction d as [| [k' v'] d IH]; [done |].
  cbn [map fst existsb field]. rewrite orb_false_iff. intros [-> Hd].
  by apply IH.
Qed.

(** The fields of [populated m] are the fields of [m] that are set. *)
Lemma field_populated_spec (m : JSONRPCMessage) (k : string) :
  distinct_keys (map fst m) = true ->
  field k (populated m) =
    match field k m with
    | Some v => if is_null v then None else Some v
    | None => None
    end.
Proof.
  induction m as [| [k' v'] m IH]; [done |].
  cbn [map fst distinct_keys]. rewrite andb_true_iff, negb_true_iff.
  intros [Hk' Hm]. specialize (IH Hm).
  unfold populated in *. cbn [List.filter snd field].
  destruct (String.eqb k k') eqn:E.
  - apply String.eqb_eq in E. subst k'.
    destruct (is_null v'); cbn [negb].
    + rewrite IH. by rewrite (field_absent k m Hk').
    + cbn [field]. by rewrite String.eqb_refl.
  - destruct (negb (is_null v')); [| exact IH].
    cbn [field]. by rewrite E.
Qed.

(** The round trip on the JSON of this model, with integers for numbers and
    text below code point 256.  Take a message whose fields have pairwise
    different names and hold well-formed JSON, and whose required fields are
    all set.  The line [stdin_writer] writes for it decodes to a message that
    has exactly the fields of the first that are set, each with its value:
    a field that is [None] is gone, and a message without [None] fields
    comes back unchanged.  The same line, cut into chunks in any way and
    read by [stdout_reader] on an open channel, is forwarded as exactly that
    message. *)
Theorem round_trip_on_integer_json (required : list string)
    (m : JSONRPCMessage) :
  valid_message m = true ->
  required_populated required m = true ->
  exists m',
    decode_line required (stdin_writer_line m) = Some m'
    /\ (forall k,
          field k m' =
            match field k m with
            | Some v => if is_null v then None else Some v
            | None => None
            end)
    /\ (forallb (fun kv => negb (is_null kv.2)) m = true -> m' = m)
    /\ (forall cs (w : @world json JSONRPCMessage),
          joined cs = stdin_writer_line m ->
          channel_open w ->
          sent (trace (stdout_reader loads (model_validate required)
                         (Some (mkStream cs EndOfStream)) w).2) =
            sent (trace w) ++ [m']).
Proof.
  intros Hvalid Hreq. exists (populated m).
  pose proof (populated_well_formed m Hvalid) as Hwf.
  assert (Hdec : forall tail,
             tail = EmptyString \/ tail = str1 newline ->
             decode_line required
               (dumps (JObject (populated m)) +:+ tail) = Some (populated m)).
  { intros tail Htail. unfold decode_line, decode.
    rewrite (loads_dumps _ tail Hwf Htail). unfold model_validate.
    unfold required_populated in Hreq. by rewrite Hreq. }
  assert (Hline : decode_line required (stdin_writer_line m) =
                  Some (populated m)).
  { unfold stdin_writer_line, model_dump_json. apply Hdec. by right. }
  split; [done |]. split.
  { intros k. apply field_populated_spec.
    unfold valid_message in Hvalid. cbn [well_formed] in Hvalid.
    by apply andb_true_iff in Hvalid as [Hk _]. }
  split; [intros Hall; by rewrite (populated_all_set m Hall) |].
  intros cs w Hcs [Hsc Hro].
  rewrite stdout_reader_run, Hcs, Hsc, Hro. cbn [snd trace].
  unfold stdin_writer_line, model_dump_json.
  assert (Hl : dumps (JObject (populated m)) +:+ str1 newline =
               lines_text [dumps (JObject (populated m))]).
  { unfold lines_text, terminated, str1. cbn [map joined foldr].
    by rewrite append_nil_r. }
  rewrite Hl.
  rewrite split_nl_lines_text
    by (constructor; [apply dumps_no_newline | constructor]).
  rewrite lines_events_blank_end, !sent_app, sent_lines_events.
  cbn [sent List.filter]. rewrite dumps_nonblank. cbn [omap list_omap].
  specialize (Hdec EmptyString (or_introl eq_refl)).
  rewrite append_nil_r in Hdec. unfold decode_line in Hdec.
  rewrite Hdec. by rewrite app_nil_r.
Qed.

(** ** The reader with the codec: runs on sample data *)

(** C1, the counterexample.  The receiver of the inbound channel is gone
    and the child writes two requests.  The first line decodes and its send
    fails.  The loop does not stop there and is not silent: the second line
    is handed to [process_json_line] as well, and both failures are logged
    at level [ERROR]. *)
Lemma closed_channel_loop_does_not_stop :
  let line1 := model_dump_json true ping1 in
  let line2 := model_dump_json true ping2 in
  let run :=
    stdout_reader loads (model_validate [])
      (Some (mkStream [stdin_writer_line ping1 +:+ stdin_writer_line ping2]
                      EndOfStream))
      broken_world in
  decode_line [] line1 = Some (populated ping1)
  /\ receivers_open broken_world = false
  /\ attempts (trace run.2) = [line1; line2]
  /\ attempts (trace run.2) <> [line1]
  /\ errors (trace run.2) =
       [Error_processing_message BrokenResourceError line1;
        Error_processing_message BrokenResourceError line2]
  /\ errors (trace run.2) <> []
  /\ sent (trace run.2) = []
  /\ run.1 = Returned tt.
Proof. vm_compute. repeat split; try reflexivity; discriminate. Qed.

(** The same stream on an open channel: both requests are forwarded. *)
Example open_channel_forwards_both :
  sent (trace (stdout_reader loads (model_validate [])
                 (Some (mkStream [stdin_writer_line ping1
                                    +:+ stdin_writer_line ping2]
                                 EndOfStream))
                 open_world).2) =
    [populated ping1; populated ping2].
Proof. vm_compute. reflexivity. Qed.

(** ** Instances on sample data *)

Lemma closed_channel_forwards_nothing_witness :
  let cs := [stdin_writer_line ping1 +:+ stdin_writer_line ping2] in
  let run :=
    stdout_reader loads (model_validate []) (Some (mkStream cs EndOfStream))
      broken_world in
  run.1 = Returned tt
  /\ sent (trace run.2) = sent (trace broken_world)
  /\ attempts (trace run.2) =
       attempts (trace broken_world)
         ++ map strip (List.filter nonblank (split_nl (joined cs)))
  /\ length (errors (trace run.2)) =
       length (errors (trace broken_world))
         + length (List.filter nonblank (split_nl (joined cs))).
Proof.
  apply (closed_channel_forwards_nothing loads (model_validate [])
           [stdin_writer_line ping1 +:+ stdin_writer_line ping2]
           broken_world).
  right. reflexivity.
Defined.

Lemma chunk_boundary_invariance_witness :
  let text := stdin_writer_line ping1 +:+ stdin_writer_line ping2 in
  let cs1 := [text] in
  let cs2 := [substring 0 7 text; substring 7 50 text;
              substring 57 (String.length text - 57) text] in
  let run cs :=
    stdout_reader loads (model_validate ["jsonrpc"])
      (Some (mkStream cs EndOfStream)) open_world in
  run cs1 = run cs2
  /\ sent (trace (run cs1).2) = sent (trace (run cs2).2)
  /\ (channel_open open_world ->
      sent (trace (run cs1).2) =
        sent (trace open_world)
          ++ omap (decode loads (model_validate ["jsonrpc"]))
               (List.filter nonblank
                  [model_dump_json true ping1; model_dump_json true ping2])).
Proof.
  apply (chunk_boundary_invariance loads (model_validate ["jsonrpc"])
           [model_dump_json true ping1; model_dump_json true ping2]).
  - repeat constructor.
  - vm_compute. reflexivity.
  - vm_compute. reflexivity.
Defined.

Lemma malformed_line_is_skipped_witness :
  let l1 := model_dump_json true ping1 in
  let l2 := "{oops" in
  let l3 := model_dump_json true ping2 in
  let cs := [l1; str1 newline +:+ l2; str1 newline +:+ l3 +:+ str1 newline] in
  let run :=
    stdout_reader loads (model_validate ["jsonrpc"])
      (Some (mkStream cs EndOfStream)) open_world in
  run.1 = Returned tt
  /\ sent (trace run.2) = sent (trace open_world)
                            ++ [populated ping1; populated ping2]
  /\ (nonblank l2 = true ->
      attempts (trace run.2) =
        attempts (trace open_world) ++ [strip l1; strip l2; strip l3]
      /\ exists exc,
          (errors (trace run.2) =
             errors (trace open_world) ++ [JSON_decode_error exc (strip l2)]
           \/ errors (trace run.2) =
                errors (trace open_world)
                  ++ [Error_processing_message exc (strip l2)])).
Proof.
  apply (malformed_line_is_skipped loads (model_validate ["jsonrpc"])
           (model_dump_json true ping1) "{oops" (model_dump_json true ping2)
           (populated ping1) (populated ping2));
    try (vm_compute; reflexivity).
  split; reflexivity.
Defined.

Lemma launch_environment_is_overlay_witness :
  exists environment tail,
    (stdio_client sample_default_environment sample_spawn sample_server []).2 =
      [] ++ [Create_memory_object_stream 0; Create_memory_object_stream 0;
             Open_process (command sample_server :: unpack (args sample_server))
                          environment]
         ++ tail
    /\ (forall cmdline e, Open_process cmdline e ∈ tail -> False)
    /\ (forall overlay k v,
          env sample_server = Some overlay -> overlay !! k = Some v ->
          environment !! k = Some v)
    /\ (forall overlay k,
          env sample_server = Some overlay -> overlay !! k = None ->
          environment !! k = sample_default_environment !! k)
    /\ (env sample_server = None -> environment = sample_default_environment)
    /\ (forall proc,
          (stdio_client sample_default_environment sample_spawn
             sample_server []).1 = Returned proc ->
          environ proc = environment).
Proof.
  apply (launch_environment_is_overlay sample_default_environment sample_spawn
           sample_server []).
  intros [H | H]; discriminate H.
Defined.

Lemma invalid_parameters_acquire_nothing_witness :
  let server := mkParams "python" (ArgsStr "server.py") None in
  (exists msg,
     (stdio_client sample_default_environment sample_spawn server []).1 =
       Raised (ValueError msg))
  /\ (stdio_client sample_default_environment sample_spawn server []).2 = []
  /\ acquisitions
       (stdio_client sample_default_environment sample_spawn server []).2 = [].
Proof.
  apply (invalid_parameters_acquire_nothing sample_default_environment
           sample_spawn (mkParams "python" (ArgsStr "server.py") None) []).
  right. reflexivity.
Defined.

(** * Further properties of the transport *)

(** ** The reader: every way a stream can end *)

Section ReaderEndings.

Context {Data Message : Type}.
Variable json_loads : string -> option Data.
Variable model_validate : Data -> option Message.

Local Abbreviation world := (@world Data Message).
Local Abbreviation run s w := (stdout_reader json_loads model_validate s w).
Local Abbreviation events sc ro ls :=
  (lines_events json_loads model_validate sc ro ls).

Implicit Types (w : world) (cs : list string) (e : exn).

(** [stdout_reader] on a stream whose read raises [e]. *)
Lemma stdout_reader_run_error cs e w :
  run (Some (mkStream cs (ReadError e))) w =
    (if is_ClosedResourceError e then Returned tt else Raised e,
     mkWorld true (receivers_open w)
       (trace w ++ [Log DEBUG Starting_stdout_reader]
          ++ events (send_closed w) (receivers_open w)
               (complete_lines (joined cs))
          ++ read_error_records e
          ++ [Log DEBUG Exiting_stdout_reader])).
Proof.
  unfold stdout_reader, bind, try_finally, try_except,
    async_with_writer, try_finally, logging, emit, aclose, reader_body, bind.
  cbn [chunks ending fst snd].
  rewrite read_chunks_run by done.
  change (EmptyString +:+ joined cs) with (joined cs).
  destruct e; cbn; by rewrite <- ?app_assoc.
Qed.

(** The run on a stream, whatever its end. *)
Lemma stdout_reader_run_any cs (fin : stream_end) w :
  exists o t,
    run (Some (mkStream cs fin)) w =
      (o, mkWorld true (receivers_open w)
            (trace w ++ t ++ [Log DEBUG Exiting_stdout_reader])).
Proof.
  destruct fin as [| e].
  - rewrite stdout_reader_run.
    exists (Returned tt),
      (Log DEBUG Starting_stdout_reader
         :: events (send_closed w) (receivers_open w) (split_nl (joined cs))).
    reflexivity.
  - rewrite stdout_reader_run_error.
    exists (if is_ClosedResourceError e then Returned tt else Raised e),
      (Log DEBUG Starting_stdout_reader
         :: events (send_closed w) (receivers_open w)
              (complete_lines (joined cs))
         ++ read_error_records e).
    cbn [app]. by rewrite <- !app_assoc.
Qed.

(** X1. The reader sees the text of the stream and its end, not the chunks:
    two streams with the same text and the same end, the last line terminated
    or not, the end normal or an exception, give the same run. *)
Theorem reader_chunking_irrelevant cs1 cs2 (fin : stream_end) w :
  joined cs1 = joined cs2 ->
  run (Some (mkStream cs1 fin)) w = run (Some (mkStream cs2 fin)) w.
Proof.
  intros H. destruct fin as [| e].
  - by rewrite !stdout_reader_run, H.
  - by rewrite !stdout_reader_run_error, H.
Qed.

(** X2. When the read raises [e]: [ClosedResourceError] ends the reader with a
    normal return and no record at level [ERROR]; any other exception is
    raised again, unchanged, after one [ERROR] record if it derives from
    [Exception] and without a record otherwise. The records of the lines come
    first. *)
Theorem read_error_outcome cs e w :
  (run (Some (mkStream cs (ReadError e))) w).1 =
    (if is_ClosedResourceError e then Returned tt else Raised e)
  /\ errors (trace (run (Some (mkStream cs (ReadError e))) w).2) =
       errors (trace w)
         ++ errors (events (send_closed w) (receivers_open w)
                      (complete_lines (joined cs)))
         ++ (if is_ClosedResourceError e then []
             else if is_Exception e
                  then [Unexpected_error_in_stdout_reader e]
                  else []).
Proof.
  rewrite stdout_reader_run_error. cbn [fst snd trace].
  split; [done |].
  rewrite !errors_app. cbn [errors]. rewrite app_nil_r. cbn [app].
  do 2 f_equal. by destruct e.
Qed.

(** X3. When the read raises, the text after the last newline is dropped: the
    lines handed to [process_json_line] are the non-blank complete lines and
    nothing else, and on an open channel the messages sent are what these
    lines decode to. On a normal end the same text gives one more attempt when
    the fragment is not blank. *)
Theorem read_error_drops_partial_line cs e w :
  attempts (trace (run (Some (mkStream cs (ReadError e))) w).2) =
    attempts (trace w)
      ++ map strip (List.filter nonblank (complete_lines (joined cs)))
  /\ attempts (trace (run (Some (mkStream cs EndOfStream)) w).2) =
       attempts (trace (run (Some (mkStream cs (ReadError e))) w).2)
         ++ (if nonblank (fragment (joined cs))
             then [strip (fragment (joined cs))] else [])
  /\ (channel_open w ->
      sent (trace (run (Some (mkStream cs (ReadError e))) w).2) =
        sent (trace w)
          ++ omap (decode json_loads model_validate)
               (List.filter nonblank (complete_lines (joined cs)))).
Proof.
  rewrite stdout_reader_run_error, stdout_reader_run. cbn [fst snd trace].
  assert (Ha : attempts (read_error_records (Data:=Data) (Message:=Message) e)
               = []) by by destruct e.
  assert (Hs : sent (read_error_records (Data:=Data) (Message:=Message) e)
               = []) by by destruct e.
  split; [| split].
  - rewrite !attempts_app, attempts_lines_events, Ha. cbn [attempts].
    by rewrite !app_nil_r.
  - rewrite split_nl_frame, lines_events_app, !attempts_app,
      !attempts_lines_events, Ha.
    cbn [attempts List.filter]. rewrite ?app_nil_r, <- ?app_assoc.
    cbn [app]. do 2 f_equal.
    by destruct (nonblank (fragment (joined cs))).
  - intros [Hsc Hro]. rewrite Hsc, Hro.
    rewrite !sent_app, sent_lines_events, Hs. cbn [sent].
    by rewrite !app_nil_r.
Qed.

(** X4. Whatever the stream does, a reader that has a stdout leaves with the
    send end of the inbound channel closed, and its last record is [Exiting
    stdout_reader]. A reader without stdout raises [AssertionError] at once:
    nothing is logged and the channel is left as it was. *)
Theorem reader_releases_channel (s : text_stream) w :
  send_closed (run (Some s) w).2 = true
  /\ last (trace (run (Some s) w).2) = Some (Log DEBUG Exiting_stdout_reader)
  /\ receivers_open (run (Some s) w).2 = receivers_open w
  /\ run None w =
       (Raised (AssertionError "Opened process is missing stdout"), w).
Proof.
  destruct s as [cs fin].
  destruct (stdout_reader_run_any cs fin w) as (o & t & ->).
  cbn [fst snd send_closed trace receivers_open].
  repeat split. by rewrite !app_assoc, last_snoc.
Qed.

(** X5. Blank lines leave no mark: a stream of terminated lines and the stream
    of its non-blank lines give the same run, record for record. *)
Theorem blank_lines_ignored (ls : list string) cs cs' w :
  Forall (fun l => has_newline l = false) ls ->
  joined cs = lines_text ls ->
  joined cs' = lines_text (List.filter nonblank ls) ->
  run (Some (mkStream cs EndOfStream)) w =
    run (Some (mkStream cs' EndOfStream)) w.
Proof.
  intros Hls Hcs Hcs'.
  assert (Hls' : Forall (fun l => has_newline l = false)
                   (List.filter nonblank ls)).
  { apply Forall_forall. intros l Hin. apply list_elem_of_In in Hin.
    apply List.filter_In in Hin as [Hin _].
    apply (proj1 (Forall_forall _ _) Hls). by apply list_elem_of_In. }
  rewrite !stdout_reader_run, Hcs, Hcs'.
  rewrite !split_nl_lines_text by done.
  rewrite !lines_events_blank_end.
  unfold lines_events.
  assert (Hidem : List.filter nonblank (List.filter nonblank ls) =
                  List.filter nonblank ls).
  { clear. induction ls as [| l ls IH]; [done |]. cbn [List.filter].
    destruct (nonblank l) eqn:E; [| done].
    cbn [List.filter]. by rewrite E, IH. }
  by rewrite Hidem.
Qed.

(** X6. No failure of the parse, of the validation or of the send leaves
    [process_json_line]: the call returns normally and does not touch the
    state of the channel. It sends the message the line decodes to when the
    channel takes it, and nothing in every other case: a line that fails to
    parse or to validate is never forwarded. *)
Theorem process_json_line_forwards_iff (line : string) w :
  let r := process_json_line json_loads model_validate line w in
  r.1 = Returned tt
  /\ send_closed r.2 = send_closed w
  /\ receivers_open r.2 = receivers_open w
  /\ sent (trace r.2) =
       sent (trace w)
         ++ (if negb (send_closed w) && receivers_open w
             then match decode json_loads model_validate line with
                  | Some m => [m]
                  | None => []
                  end
             else []).
Proof.
  cbn zeta. rewrite process_json_line_run. cbn [fst snd grow send_closed
    receivers_open trace].
  repeat split. rewrite sent_app. f_equal.
  unfold line_events, decode. cbn [sent].
  destruct (json_loads line) as [data |]; cbn [sent];
    [| by destruct (negb (send_closed w) && receivers_open w)].
  destruct (model_validate data) as [m |]; cbn [sent];
    [| by destruct (negb (send_closed w) && receivers_open w)].
  destruct (send_closed w); [done |]. by destruct (receivers_open w).
Qed.

End ReaderEndings.

(** ** The writer *)

Section WriterFacts.

Context {Message Bytes : Type}.
Variable dump_json : bool -> Message -> string.
Variable encode : string -> Bytes.

Local Abbreviation writer_world := (@writer_world Bytes).
Local Abbreviation wire m := (wire dump_json encode m).
Local Abbreviation run_writer ms fin w :=
  (stdin_writer dump_json encode true ms fin w).
Local Abbreviation sending m := (DEBUG, Sending (dump_json true m)).

Implicit Types (w : writer_world) (ms : list Message) (fin : stream_end).

(** The room left after [n] writes. *)
Local Abbreviation room_after w n :=
  (match room w with
   | None => None
   | Some r => Some (r - n)
   end).

(** The loop while the pipe has room for every message. *)
Lemma write_messages_run ms fin w :
  has_room w (length ms) ->
  write_messages dump_json encode ms fin w =
    (match fin with
     | EndOfStream => Returned tt
     | ReadError e => Raised e
     end,
     mkWriterWorld (room_after w (length ms)) (pipe_error w)
       (written w ++ map (fun m => wire m) ms) (interrupted w)
       (receive_closed w) (wlog w ++ map (fun m => sending m) ms)).
Proof.
  revert w. induction ms as [| m ms IH]; intros w Hroom.
  - destruct w as [[r |] pe wr it rc lg]; destruct fin; cbn;
      rewrite ?Nat.sub_0_r, !app_nil_r; done.
  - cbn [write_messages]. unfold bind, wlogging, stdin_send. cbn.
    unfold has_room in Hroom. cbn [length] in Hroom.
    destruct (room w) as [[| r] |] eqn:Er; [lia | |].
    + rewrite IH by (unfold has_room; cbn; lia). cbn.
      by rewrite <- !app_assoc.
    + rewrite IH by (unfold has_room; by cbn). cbn.
      by rewrite <- !app_assoc.
Qed.

(** The loop when the pipe runs out of room after [k] writes. *)
Lemma write_messages_run_short ms fin w k :
  room w = Some k ->
  k < length ms ->
  write_messages dump_json encode ms fin w =
    (Raised (pipe_error w),
     mkWriterWorld (Some 0) (pipe_error w)
       (written w ++ map (fun m => wire m) (take k ms))
       ((fun m => wire m) <$> ms !! k) (receive_closed w)
       (wlog w ++ map (fun m => sending m) (take (S k) ms))).
Proof.
  revert w k. induction ms as [| m ms IH]; intros w k Hroom Hk;
    [cbn in Hk; lia |].
  cbn [write_messages]. unfold bind, wlogging, stdin_send. cbn.
  rewrite Hroom. destruct k as [| k].
  - cbn. by rewrite app_nil_r.
  - cbn [length] in Hk.
    rewrite (IH _ k) by (cbn; (done || lia)). cbn.
    by rewrite <- !app_assoc.
Qed.

(** The writer around the loop, by what the loop did. *)
Lemma stdin_writer_wrap ms fin w :
  run_writer ms fin w =
    let start :=
      mkWriterWorld (room w) (pipe_error w) (written w) (interrupted w)
        (receive_closed w) (wlog w ++ [(DEBUG, Starting_stdin_writer)]) in
    let '(o, w1) := write_messages dump_json encode ms fin start in
    let records :=
      match o with
      | Returned _ => []
      | Raised e =>
          if is_ClosedResourceError e then [(DEBUG, Write_stream_closed)]
          else if is_Exception e then
            [(ERROR, Unexpected_error_in_stdin_writer e);
             (DEBUG, Writer_traceback e)]
          else []
      end in
    (match o with
     | Returned _ => Returned tt
     | Raised e => if is_ClosedResourceError e then Returned tt else Raised e
     end,
     mkWriterWorld (room w1) (pipe_error w1) (written w1) (interrupted w1)
       true (wlog w1 ++ records ++ [(DEBUG, Exiting_stdin_writer)])).
Proof.
  unfold stdin_writer, bind, try_finally, try_except, close_receive, wlogging.
  cbn [negb].
  destruct (write_messages _ _ _ _ _) as [[[] | e] w1]; cbn.
  - done.
  - destruct e; cbn; by rewrite <- ?app_assoc.
Qed.

Lemma announced_app (l1 l2 : list (level * writer_msg)) :
  announced (l1 ++ l2) = announced l1 ++ announced l2.
Proof.
  induction l1 as [| [lvl []] l1 IH]; cbn; try done. by rewrite IH.
Qed.

Lemma writer_errors_app (l1 l2 : list (level * writer_msg)) :
  writer_errors (l1 ++ l2) = writer_errors l1 ++ writer_errors l2.
Proof.
  induction l1 as [| [[] msg] l1 IH]; cbn; try done. by rewrite IH.
Qed.

Lemma announced_sending ms :
  announced (map (fun m => sending m) ms) = map (dump_json true) ms.
Proof. induction ms as [| m ms IH]; cbn; [done | by rewrite IH]. Qed.

Lemma writer_errors_sending ms :
  writer_errors (map (fun m => sending m) ms) = [].
Proof. induction ms as [| m ms IH]; cbn; done. Qed.

(** X7. While the child takes what it is sent and the outbound channel ends
    normally, the writer hands every message to the pipe, one write for each
    and in the order of the channel, logs nothing at level [ERROR], closes the
    receive end of the channel and returns normally. *)
Theorem stdin_writer_writes_in_order ms w :
  has_room w (length ms) ->
  (run_writer ms EndOfStream w).1 = Returned tt
  /\ written (run_writer ms EndOfStream w).2 =
       written w ++ map (fun m => wire m) ms
  /\ announced (wlog (run_writer ms EndOfStream w).2) =
       announced (wlog w) ++ map (dump_json true) ms
  /\ writer_errors (wlog (run_writer ms EndOfStream w).2) =
       writer_errors (wlog w)
  /\ receive_closed (run_writer ms EndOfStream w).2 = true.
Proof.
  intros Hroom. rewrite stdin_writer_wrap. cbn zeta.
  rewrite write_messages_run by done.
  cbn [fst snd written wlog receive_closed].
  split; [done |]. split; [done |]. split; [| split; [| done]].
  - rewrite !announced_app, announced_sending. cbn [announced].
    by rewrite !app_nil_r.
  - rewrite !writer_errors_app, writer_errors_sending. cbn [writer_errors].
    by rewrite !app_nil_r.
Qed.

(** X8. When the pipe fails at the write number [k + 1], the sends of the
    first [k] messages have returned, the send that raised is the one of
    message [k + 1], of which the child may hold a part, and no later message
    has been handed to the pipe; the message of the failed write is the last
    one announced, so the loop has stopped there. A [ClosedResourceError]
    ends the writer with a normal return and without a record at level
    [ERROR]; any other exception is raised again, after one [ERROR] record if
    it derives from [Exception]. *)
Theorem stdin_writer_stops_at_failed_write ms fin w k :
  room w = Some k ->
  k < length ms ->
  written (run_writer ms fin w).2 =
    written w ++ map (fun m => wire m) (take k ms)
  /\ interrupted (run_writer ms fin w).2 = (fun m => wire m) <$> ms !! k
  /\ is_Some (ms !! k)
  /\ announced (wlog (run_writer ms fin w).2) =
       announced (wlog w) ++ map (dump_json true) (take (S k) ms)
  /\ (run_writer ms fin w).1 =
       (if is_ClosedResourceError (pipe_error w) then Returned tt
        else Raised (pipe_error w))
  /\ writer_errors (wlog (run_writer ms fin w).2) =
       writer_errors (wlog w)
         ++ (if is_ClosedResourceError (pipe_error w) then []
             else if is_Exception (pipe_error w)
                  then [Unexpected_error_in_stdin_writer (pipe_error w)]
                  else []).
Proof.
  intros Hroom Hk. rewrite stdin_writer_wrap. cbn zeta.
  rewrite (write_messages_run_short ms fin _ k) by done.
  cbn [fst snd written interrupted wlog receive_closed pipe_error].
  split; [done |]. split; [done |].
  split; [by apply lookup_lt_is_Some_2 |]. split; [| split; [done |]].
  - rewrite !announced_app, announced_sending. cbn [announced].
    rewrite ?app_nil_r, <- ?app_assoc.
    destruct (pipe_error w); cbn; rewrite ?app_nil_r; done.
  - rewrite !writer_errors_app, writer_errors_sending. cbn [writer_errors].
    rewrite ?app_nil_r. f_equal.
    by destruct (pipe_error w).
Qed.

(** X9. Whatever the channel and the pipe do, a writer that has a stdin leaves
    with the receive end of the outbound channel closed, and its last record
    is [Exiting stdin_writer]; what it has written only grows. A writer
    without stdin raises [AssertionError] at once and changes nothing. *)
Theorem writer_releases_channel ms fin w :
  receive_closed (run_writer ms fin w).2 = true
  /\ last (wlog (run_writer ms fin w).2) = Some (DEBUG, Exiting_stdin_writer)
  /\ (exists more, written (run_writer ms fin w).2 = written w ++ more)
  /\ stdin_writer dump_json encode false ms fin w =
       (Raised (AssertionError "Opened process is missing stdin"), w).
Proof.
  rewrite stdin_writer_wrap. cbn zeta.
  destruct (write_messages _ _ _ _ _) as [o w1] eqn:Erun.
  cbn [fst snd receive_closed wlog written].
  split; [done |]. split; [by rewrite !app_assoc, last_snoc |].
  split; [| done].
  destruct (room w) as [k |] eqn:Er.
  - destruct (decide (k < length ms)) as [Hk | Hk].
    + rewrite (write_messages_run_short ms fin _ k) in Erun by done.
      injection Erun as <- <-. eauto.
    + rewrite write_messages_run in Erun
        by (unfold has_room; cbn; lia).
      injection Erun as <- <-. eauto.
  - rewrite write_messages_run in Erun
      by (unfold has_room; by cbn).
    injection Erun as <- <-. eauto.
Qed.

End WriterFacts.

Lemma stdin_writer_written {Message Bytes : Type}
    (dump_json : bool -> Message -> string) (encode : string -> Bytes)
    (ms : list Message) (fin : stream_end) (w : @writer_world Bytes) :
  exists n,
    n <= length ms
    /\ written (stdin_writer dump_json encode true ms fin w).2 =
         written w ++ map (wire dump_json encode) (take n ms)
    /\ (has_room w (length ms) -> n = length ms).
Proof.
  rewrite stdin_writer_wrap. cbn zeta.
  destruct (write_messages _ _ _ _ _) as [o w1] eqn:Erun.
  cbn [fst snd written].
  destruct (room w) as [k |] eqn:Er.
  - destruct (decide (k < length ms)) as [Hk | Hk].
    + rewrite (write_messages_run_short _ _ ms fin _ k) in Erun by done.
      injection Erun as <- <-. exists k. cbn [written].
      split; [lia |]. split; [done |].
      unfold has_room. rewrite Er. lia.
    + rewrite write_messages_run in Erun by (unfold has_room; cbn; lia).
      injection Erun as <- <-. exists (length ms). cbn [written].
      by rewrite firstn_all.
  - rewrite write_messages_run in Erun by (unfold has_room; by cbn).
    injection Erun as <- <-. exists (length ms). cbn [written].
    by rewrite firstn_all.
Qed.

(** X10. At every exit of the writer, the sends that have returned carry
    the wire forms of a prefix of the messages of the channel, in their
    order and each once. At most one more payload has reached the pipe: that
    of the message after the prefix, in a send that raised, so that the child
    may hold a part of it. While the pipe has room nothing is cut short and
    every message is written. *)
Theorem stdin_writer_writes_prefix {Message Bytes : Type}
    (dump_json : bool -> Message -> string) (encode : string -> Bytes)
    (ms : list Message) (fin : stream_end) (w : @writer_world Bytes) :
  let w' := (stdin_writer dump_json encode true ms fin w).2 in
  exists n,
    n <= length ms
    /\ written w' = written w ++ map (wire dump_json encode) (take n ms)
    /\ (interrupted w' = interrupted w
        \/ exists m, ms !! n = Some m
                     /\ interrupted w' = Some (wire dump_json encode m))
    /\ (has_room w (length ms) ->
        n = length ms /\ interrupted w' = interrupted w).
Proof.
  cbn zeta. rewrite stdin_writer_wrap. cbn zeta.
  destruct (write_messages _ _ _ _ _) as [o w1] eqn:Erun.
  cbn [fst snd written interrupted].
  destruct (room w) as [k |] eqn:Er.
  - destruct (decide (k < length ms)) as [Hk | Hk].
    + rewrite (write_messages_run_short _ _ ms fin _ k) in Erun by done.
      injection Erun as <- <-. exists k. cbn [written interrupted].
      split; [lia |]. split; [done |]. split.
      * right. destruct (lookup_lt_is_Some_2 ms k Hk) as [m Hm].
        exists m. by rewrite Hm.
      * unfold has_room. rewrite Er. lia.
    + rewrite write_messages_run in Erun by (unfold has_room; cbn; lia).
      injection Erun as <- <-. exists (length ms).
      cbn [written interrupted]. rewrite firstn_all. auto.
  - rewrite write_messages_run in Erun by (unfold has_room; by cbn).
    injection Erun as <- <-. exists (length ms).
    cbn [written interrupted]. rewrite firstn_all. auto.
Qed.

(** ** The lines the writer writes *)

Lemma json_line_no_newline (m : JSONRPCMessage) :
  has_newline (json_line m) = false.
Proof. apply dumps_no_newline. Qed.

Lemma json_line_nonblank (m : JSONRPCMessage) : nonblank (json_line m) = true.
Proof. apply dumps_nonblank. Qed.

(** X11. Every write of [stdin_writer] carries one line: the text handed to
    [encode] is a non-blank text without newline followed by exactly one
    newline, so a message never spans two lines nor shares one. *)
Theorem written_lines_are_framed {Bytes : Type} (encode : string -> Bytes)
    (ms : list JSONRPCMessage) (fin : stream_end) (w : @writer_world Bytes) :
  exists texts,
    written (stdin_writer model_dump_json encode true ms fin w).2 =
      written w ++ map encode texts
    /\ Forall (fun t => exists l, t = terminated l
                                  /\ has_newline l = false
                                  /\ nonblank l = true
                                  /\ frame t = ([l], EmptyString)) texts.
Proof.
  destruct (stdin_writer_written model_dump_json encode ms fin w)
    as (n & _ & Hw & _).
  exists (map (fun m => terminated (json_line m)) (take n ms)).
  split.
  - rewrite Hw. f_equal. by rewrite map_map.
  - apply Forall_forall. intros t Hin.
    apply list_elem_of_fmap in Hin as (m & -> & _).
    exists (json_line m). split; [done |].
    split; [apply json_line_no_newline |].
    split; [apply json_line_nonblank |].
    pose proof (frame_lines_text [json_line m]) as Hf.
    unfold lines_text in Hf. cbn [map joined foldr] in Hf.
    rewrite append_nil_r in Hf. apply Hf.
    constructor; [apply json_line_no_newline | constructor].
Qed.

(** ** Writer and reader together, for any codec *)

Section EchoFacts.

Context {Data Message : Type}.
Variable json_loads : string -> option Data.
Variable model_validate : Data -> option Message.
Variable dump_json : bool -> Message -> string.

Local Abbreviation decoded l := (decode json_loads model_validate l).
Local Abbreviation reader cs w :=
  (stdout_reader json_loads model_validate (Some (mkStream cs EndOfStream))
     w).

Lemma omap_decoded (ms ms' : list Message) :
  Forall2 (fun m m' => decoded (dump_json true m) = Some m') ms ms' ->
  omap (decode json_loads model_validate) (map (dump_json true) ms) = ms'.
Proof.
  induction 1 as [| m m' ms ms' Hm _ IH]; [done |].
  cbn. rewrite Hm. cbn. f_equal. exact IH.
Qed.

Lemma filter_all_nonblank (ls : list string) :
  Forall (fun l => nonblank l = true) ls -> List.filter nonblank ls = ls.
Proof.
  induction 1 as [| l ls Hl _ IH]; [done |].
  cbn [List.filter]. by rewrite Hl, IH.
Qed.

(** X12. The scenario of a child that copies its input to its output, for
    any codec whose JSON text is one non-blank line.  The messages are
    written by [stdin_writer]; the text written comes back on stdout cut into
    chunks in any way; [stdout_reader] on an open channel then forwards, in
    the order in which the messages were written, what each written line
    decodes to, and nothing else. *)
Theorem echo_round_trip (ms ms' : list Message) (ww : @writer_world string)
    (cs : list string) (w : @world Data Message) :
  Forall (fun m => has_newline (dump_json true m) = false) ms ->
  Forall (fun m => nonblank (dump_json true m) = true) ms ->
  Forall2 (fun m m' => decoded (dump_json true m) = Some m') ms ms' ->
  has_room ww (length ms) ->
  written ww = [] ->
  joined cs =
    joined (written (stdin_writer dump_json (fun s => s) true ms
                       EndOfStream ww).2) ->
  channel_open w ->
  (reader cs w).1 = Returned tt
  /\ sent (trace (reader cs w).2) = sent (trace w) ++ ms'.
Proof.
  intros Hnl Hnb Hdec Hroom Hempty Hcs [Hsc Hro].
  destruct (stdin_writer_written dump_json (fun s => s) ms EndOfStream ww)
    as (n & _ & Hw & Hn).
  rewrite (Hn Hroom), firstn_all, Hempty in Hw. cbn [app] in Hw.
  rewrite Hw in Hcs.
  assert (Htext : joined cs = lines_text (map (dump_json true) ms)).
  { rewrite Hcs. unfold lines_text, wire, terminated. by rewrite map_map. }
  rewrite stdout_reader_run, Htext, Hsc, Hro. cbn [fst snd trace].
  split; [done |].
  rewrite split_nl_lines_text by (by apply Forall_fmap).
  rewrite lines_events_blank_end, !sent_app, sent_lines_events.
  rewrite filter_all_nonblank by (by apply Forall_fmap).
  rewrite (omap_decoded ms ms' Hdec). cbn [sent]. by rewrite app_nil_r.
Qed.






End EchoFacts.

(** * Properties of the command line *)

Local Open Scope main_scope.

(** ** Relations every step of a computation keeps *)

Section Respects.

(** A relation between the world before and the world after that holds for
    no step at all and for steps in a row. *)
Variable R : main_world -> main_world -> Prop.
Hypothesis R_refl : forall w, R w w.
Hypothesis R_trans : forall w1 w2 w3, R w1 w2 -> R w2 w3 -> R w1 w3.

Local Abbreviation respects m := (keeps R m).

Lemma respects_ret {A} (a : A) : respects (ui_ret a).
Proof. intros w. apply R_refl. Qed.

Lemma respects_raise {A} (e : exc) : respects (@ui_raise A e).
Proof. intros w. apply R_refl. Qed.

Lemma respects_lift {A} (r : result A) : respects (ui_lift r).
Proof. intros w. apply R_refl. Qed.

Lemma respects_bind {A B} (m : Ui A) (k : A -> Ui B) :
  respects m -> (forall a, respects (k a)) -> respects (ui_bind m k).
Proof.
  intros Hm Hk w. unfold ui_bind. specialize (Hm w).
  destruct (m w) as [[a | e] w']; [| done].
  eapply R_trans; [exact Hm | apply Hk].
Qed.

Lemma respects_try {A} (body : Ui A) (handler : exc -> option (Ui A)) :
  respects body ->
  (forall e h, handler e = Some h -> respects h) ->
  respects (ui_try body handler).
Proof.
  intros Hb Hh w. unfold ui_try. specialize (Hb w).
  destruct (body w) as [[a | e] w']; [done |].
  destruct (handler e) as [h |] eqn:E; [| done].
  eapply R_trans; [exact Hb | by apply (Hh e h)].
Qed.

Lemma respects_finally {A} (body : Ui A) (fin : Ui unit) :
  respects body -> respects fin -> respects (ui_finally body fin).
Proof.
  intros Hb Hf w. unfold ui_finally. specialize (Hb w).
  destruct (body w) as [r w']. specialize (Hf w').
  destruct (fin w') as [[[] | e] w'']; by eapply R_trans.
Qed.

Lemma respects_for {A} (xs : list A) (body : A -> Ui unit) :
  (forall x, respects (body x)) -> respects (ui_for xs body).
Proof.
  intros Hb. induction xs as [| x xs IH]; cbn [ui_for].
  - apply respects_ret.
  - apply respects_bind; [apply Hb | intros _; apply IH].
Qed.

Lemma respects_map {A B} (f : A -> Ui B) (xs : list A) :
  (forall x, respects (f x)) -> respects (ui_map f xs).
Proof.
  intros Hf. induction xs as [| x xs IH]; cbn [ui_map].
  - apply respects_ret.
  - apply respects_bind; [apply Hf | intros y].
    apply respects_bind; [apply IH | intros ys; apply respects_ret].
Qed.

Lemma respects_if {A} (b : bool) (m1 m2 : Ui A) :
  respects m1 -> respects m2 -> respects (if b then m1 else m2).
Proof. by destruct b. Qed.

Section Commands.

Variable answer : list ui_event -> request -> result json.
Variable platform : string.
Variable llm_provider_env llm_model_env : option string.
Variable json_loads : string -> option json.

(** The steps the commands are made of keep the relation. *)
Hypothesis R_record : forall ev, (forall cm, ev <> Aexit cm) ->
                                 respects (record ev).
Hypothesis R_ask : forall r, respects (ask answer r).
Hypothesis R_get_input : forall p, respects (get_input p).

Lemma respects_print (o : output) : respects (print o).
Proof. apply R_record. done. Qed.

Lemma respects_clear_screen : respects (clear_screen platform).
Proof.
  unfold clear_screen, os_system.
  destruct (String.eqb platform "win32"); by apply R_record.
Qed.

(** Takes a computation apart down to its steps. *)
Ltac respects_steps :=
  repeat first
    [ apply respects_ret
    | apply respects_lift
    | apply respects_print
    | apply respects_clear_screen
    | apply R_ask
    | apply R_get_input
    | apply respects_for; intros ?
    | apply respects_map; intros ?
    | apply respects_bind; [| intros ?]
    | apply respects_if
    | match goal with
      | |- respects (match ?x with _ => _ end) => destruct x
      | |- respects (let '(_, _) := ?x in _) => destruct x
      end ].

Lemma respects_dispatch command server_streams :
  respects (dispatch answer platform llm_provider_env llm_model_env
              json_loads command server_streams).
Proof.
  unfold dispatch, ping_servers, list_tools, call_tool, list_resources,
    list_prompts, chat.
  respects_steps.
Qed.

Lemma respects_handle_command command server_streams :
  respects (handle_command answer platform llm_provider_env llm_model_env
              json_loads command server_streams).
Proof.
  unfold handle_command.
  apply respects_bind.
  - apply respects_try; [apply respects_dispatch |].
    intros e h. destruct (is_exception e); [| done].
    intros [= <-]. respects_steps.
  - intros [b |]; apply respects_ret.
Qed.

Lemma respects_interactive_round server_streams :
  respects (interactive_round answer platform llm_provider_env llm_model_env
              json_loads server_streams).
Proof.
  unfold interactive_round. apply respects_try.
  - apply respects_bind; [apply R_get_input | intros command].
    apply respects_if; [apply respects_ret |].
    apply respects_bind; [apply respects_handle_command | intros b].
    apply respects_if; apply respects_ret.
  - intros e h. destruct (is_EOFError e); [intros [= <-]; apply respects_ret |].
    destruct (is_exception e); [| done].
    intros [= <-]. respects_steps.
Qed.

Lemma respects_interactive_loop fuel server_streams :
  respects (interactive_loop answer platform llm_provider_env llm_model_env
              json_loads fuel server_streams).
Proof.
  induction fuel as [| fuel IH]; cbn [interactive_loop].
  - apply respects_ret.
  - apply respects_bind; [apply respects_interactive_round |].
    intros []; [exact IH | apply respects_ret].
Qed.

Lemma respects_interactive_mode server_streams :
  respects (interactive_mode answer platform llm_provider_env llm_model_env
              json_loads server_streams).
Proof.
  unfold interactive_mode. apply respects_bind; [apply respects_print |].
  intros _ w. apply respects_interactive_loop.
Qed.

End Commands.

End Respects.

(** ** [handle_command] *)

Section MainFacts.

Variable answer : list ui_event -> request -> result json.
Variable platform : string.
Variable llm_provider_env llm_model_env : option string.
Variable json_loads : string -> option json.

Local Abbreviation handle command ss :=
  (handle_command answer platform llm_provider_env llm_model_env json_loads
     command ss).
Local Abbreviation dispatch_ command ss :=
  (dispatch answer platform llm_provider_env llm_model_env json_loads
     command ss).
Local Abbreviation round ss :=
  (interactive_round answer platform llm_provider_env llm_model_env
     json_loads ss).
Local Abbreviation loop fuel ss :=
  (interactive_loop answer platform llm_provider_env llm_model_env
     json_loads fuel ss).
Local Abbreviation interactive ss :=
  (interactive_mode answer platform llm_provider_env llm_model_env
     json_loads ss).

Implicit Types (w : main_world) (ss : list streams) (command : string).

(** *** The input never grows, sessions are left alone *)

Lemma pending_shrinks_refl w : pending_shrinks w w.
Proof. unfold pending_shrinks. lia. Qed.

Lemma pending_shrinks_trans w1 w2 w3 :
  pending_shrinks w1 w2 -> pending_shrinks w2 w3 -> pending_shrinks w1 w3.
Proof. unfold pending_shrinks. lia. Qed.

Lemma same_sessions_refl w : same_sessions w w.
Proof. by split. Qed.

Lemma same_sessions_trans w1 w2 w3 :
  same_sessions w1 w2 -> same_sessions w2 w3 -> same_sessions w1 w3.
Proof. intros [H1 H2] [H3 H4]. split; congruence. Qed.

Lemma exited_app (l1 l2 : list ui_event) :
  exited (l1 ++ l2) = exited l1 ++ exited l2.
Proof. apply omap_app. Qed.

Lemma asked_app (l1 l2 : list ui_event) :
  asked (l1 ++ l2) = asked l1 ++ asked l2.
Proof. apply omap_app. Qed.

Lemma printed_app (l1 l2 : list ui_event) :
  printed (l1 ++ l2) = printed l1 ++ printed l2.
Proof. apply omap_app. Qed.

Lemma handle_pending_shrinks command ss :
  keeps pending_shrinks (handle command ss).
Proof.
  apply respects_handle_command.
  - apply pending_shrinks_refl.
  - apply pending_shrinks_trans.
  - intros ev _ w. unfold pending_shrinks. cbn. lia.
  - intros r w. unfold pending_shrinks. cbn. lia.
  - intros p w. unfold pending_shrinks, get_input.
    destruct (pending w); cbn; lia.
Qed.

Lemma same_sessions_record ev :
  (forall cm, ev <> Aexit cm) -> keeps same_sessions (record ev).
Proof.
  intros Hev w. split; [done |]. cbn. rewrite exited_app.
  destruct ev; cbn; try by rewrite app_nil_r. by destruct (Hev cm).
Qed.

Lemma same_sessions_ask r : keeps same_sessions (ask answer r).
Proof. intros w. split; [done |]. cbn. by rewrite exited_app, app_nil_r. Qed.

Lemma same_sessions_get_input p : keeps same_sessions (get_input p).
Proof.
  intros w. unfold get_input.
  destruct (pending w); (split; [done |]); cbn;
    by rewrite exited_app, app_nil_r.
Qed.

Lemma handle_same_sessions command ss :
  keeps same_sessions (handle command ss).
Proof.
  apply respects_handle_command.
  - apply same_sessions_refl.
  - apply same_sessions_trans.
  - apply same_sessions_record.
  - apply same_sessions_ask.
  - apply same_sessions_get_input.
Qed.

Lemma interactive_same_sessions ss : keeps same_sessions (interactive ss).
Proof.
  apply respects_interactive_mode.
  - apply same_sessions_refl.
  - apply same_sessions_trans.
  - apply same_sessions_record.
  - apply same_sessions_ask.
  - apply same_sessions_get_input.
Qed.

(** *** What [handle_command] returns *)

Lemma bind_ret_value {A B} (m : Ui A) (x : B) w (r : B) w' :
  (m ;; ui_ret x) w = (Value r, w') -> r = x.
Proof.
  unfold ui_bind, ui_ret. destruct (m w) as [[a | e] w1]; congruence.
Qed.

Lemma call_tool_value ss w (r : option bool) w' :
  call_tool answer json_loads ss w = (Value r, w') ->
  r = None \/ r = Some true.
Proof.
  unfold call_tool, ui_bind, get_input, print, record, ui_ret.
  destruct (pending w) as [| [name | e] rest]; cbn; [done | | done].
  destruct (truthy name); cbn; [| intros [= <- _]; by right].
  destruct rest as [| [args | e] rest]; cbn; [done | | done].
  destruct (json_loads args) as [arguments |]; cbn;
    [| intros [= <- _]; by right].
  destruct (ui_for _ _ _) as [[[] | e] w1]; [| done].
  intros [= <- _]. by left.
Qed.

Lemma is_quit_eq command :
  is_quit command = true <-> command = "quit" \/ command = "exit".
Proof.
  unfold is_quit. rewrite orb_true_iff, !String.eqb_eq. done.
Qed.

(** A branch of [dispatch] that is taken. *)
Local Ltac taken H E :=
  apply String.eqb_eq in E; subst; simpl;
  first [ left; exact (bind_ret_value _ _ _ _ _ H)
        | exact (call_tool_value _ _ _ _ H) ].

(** The value of the body of the [try]: [Some false] on [quit] and [exit]
    and on nothing else. *)
Lemma dispatch_value command ss w (r : option bool) w' :
  dispatch_ command ss w = (Value r, w') ->
  if is_quit command then r = Some false
  else r = None \/ r = Some true.
Proof.
  unfold dispatch. intros H.
  destruct (String.eqb command "ping") eqn:E1; [taken H E1 |].
  destruct (String.eqb command "list-tools") eqn:E2; [taken H E2 |].
  destruct (String.eqb command "call-tool") eqn:E3; [taken H E3 |].
  destruct (String.eqb command "list-resources") eqn:E4; [taken H E4 |].
  destruct (String.eqb command "list-prompts") eqn:E5; [taken H E5 |].
  destruct (String.eqb command "chat") eqn:E6; [taken H E6 |].
  fold (is_quit command) in H. destruct (is_quit command).
  - exact (bind_ret_value _ _ _ _ _ H).
  - left.
    destruct (String.eqb command "clear");
      [exact (bind_ret_value _ _ _ _ _ H) |].
    destruct (String.eqb command "help");
      [exact (bind_ret_value _ _ _ _ _ H) |].
    unfold ui_bind, print, record, ui_ret in H. cbn in H. congruence.
Qed.

(** X14. Whenever [handle_command] returns, it returns [False] on [quit] and
    [exit] and [True] on every other command, known or not, whatever the
    servers answer and whatever the user types; and on [quit] and [exit],
    where all it does is print a constant text, it does return. *)
Theorem handle_command_result command ss w :
  (forall b, (handle command ss w).1 = Value b -> b = negb (is_quit command))
  /\ (is_quit command = true ->
      handle command ss w
      = (Value false,
         mkMainWorld (pending w) (opened w) (ui w ++ [Print Goodbye]))).
Proof.
  split.
  - intros b Hb. unfold handle_command, ui_bind, ui_try in Hb.
    destruct (dispatch_ command ss w) as [[r | e] w1] eqn:Hd.
    + apply dispatch_value in Hd. cbn in Hb.
      destruct (is_quit command); cbn;
        [subst r; cbn in Hb; congruence |].
      destruct Hd as [-> | ->]; cbn in Hb; congruence.
    + destruct (is_exception e) eqn:He; [| by cbn in Hb].
      unfold print, record, ui_ret in Hb. cbn in Hb.
      injection Hb as <-.
      destruct (is_quit command) eqn:Hq; [| done].
      exfalso. apply is_quit_eq in Hq.
      unfold dispatch, ui_bind, print, record, ui_ret in Hd.
      destruct Hq as [-> | ->]; cbn in Hd; congruence.
  - intros Hq. apply is_quit_eq in Hq. by destruct Hq as [-> | ->].
Qed.

(** X15. Only [ping], [list-tools], [call-tool], [list-resources],
    [list-prompts] and [chat] reach the servers or the user: every other
    command calls no sender, reads no input and touches no session. *)
Theorem handle_command_without_servers command ss w :
  is_server_command command = false ->
  asked (ui (handle command ss w).2) = asked (ui w)
  /\ pending (handle command ss w).2 = pending w
  /\ opened (handle command ss w).2 = opened w.
Proof.
  unfold is_server_command. rewrite !orb_false_iff.
  intros [[[[[H1 H2] H3] H4] H5] H6].
  unfold handle_command, dispatch, ui_try, ui_bind.
  rewrite H1, H2, H3, H4, H5, H6. fold (is_quit command).
  destruct (is_quit command); cbn; [by rewrite asked_app, app_nil_r |].
  destruct (String.eqb command "clear").
  - unfold clear_screen. destruct (String.eqb platform "win32"); cbn;
      by rewrite asked_app, app_nil_r.
  - destruct (String.eqb command "help"); cbn;
      by rewrite !asked_app, !app_nil_r.
Qed.


(** *** The interactive loop *)

(** A round that asks for another round has taken a line of the input. *)
Lemma round_outcome ss w :
  match round ss w with
  | (Value Next_round, w') => length (pending w') < length (pending w)
  | _ => True
  end.
Proof.
  unfold interactive_round, ui_try, ui_bind, get_input.
  destruct (pending w) as [| [c | e] rest] eqn:Hp; cbn.
  - done.
  - destruct (truthy (lower c)); cbn; [| lia].
    set (w1 := mkMainWorld rest _ _).
    pose proof (handle_pending_shrinks (lower c) ss w1) as Hs.
    unfold pending_shrinks in Hs.
    destruct (handle (lower c) ss w1) as [[[] | e] w2]; cbn in *.
    + lia.
    + done.
    + destruct (is_EOFError e); [done |].
      destruct (is_exception e); cbn; [lia | done].
  - destruct (is_EOFError e); [done |].
    destruct (is_exception e) eqn:He; cbn; [lia | done].
Qed.

(** With more rounds than there are lines of input the loop is left before
    the rounds are used up. *)
Lemma loop_ends fuel ss w :
  length (pending w) < fuel ->
  match (loop fuel ss w).1 with
  | Value finished => finished = true
  | Error _ => True
  end.
Proof.
  revert w. induction fuel as [| fuel IH]; intros w Hf; [lia |].
  cbn [interactive_loop]. unfold ui_bind.
  pose proof (round_outcome ss w) as Hr.
  destruct (round ss w) as [[[] | e] w1]; cbn; [| done | done].
  apply IH. lia.
Qed.

(** X16. [interactive_mode] ends on every finite input: a round that is
    followed by another one has taken a line of the input, and at the end of
    the input the prompt raises [EOFError], which leaves the loop.  So the
    loop is over after at most one round more than there are lines, by a
    return or by an exception. *)
Theorem interactive_mode_ends ss w :
  match
    (interactive_mode answer platform llm_provider_env llm_model_env
       json_loads ss w).1
  with
  | Value finished => finished = true
  | Error _ => True
  end.
Proof.
  unfold interactive_mode, ui_bind, print, record.
  cbn [pending opened ui]. apply loop_ends. cbn. lia.
Qed.

Lemma lower_char_idem c : lower_char (lower_char c) = lower_char c.
Proof. destruct c as [[] [] [] [] [] [] [] []]; reflexivity. Qed.

Lemma lower_idem s : lower (lower s) = lower s.
Proof.
  induction s as [| c s IH]; [done |].
  cbn [lower]. by rewrite lower_char_idem, IH.
Qed.

(** X17. Commands are read without regard to case: a line and its lower-case
    form lead [interactive_mode] the same way. *)
Theorem commands_ignore_case c rest o u ss :
  interactive ss (mkMainWorld (Value c :: rest) o u)
  = interactive ss (mkMainWorld (Value (lower c) :: rest) o u).
Proof.
  unfold interactive_mode, ui_bind, print, record.
  cbn [pending opened ui length interactive_loop].
  unfold ui_bind, interactive_round, ui_try, ui_bind, get_input.
  cbn [pending opened ui]. by rewrite lower_idem.
Qed.

(** X18. [quit] and [exit], in any case, end [interactive_mode] at once: the
    rest of the input is not read and no server is contacted. *)
Theorem quit_leaves_input_unread c rest ss w :
  pending w = Value c :: rest ->
  is_quit (lower c) = true ->
  interactive ss w
  = (Value true,
     mkMainWorld rest (opened w)
       (ui w ++ [Print Welcome; Input Prompt_command; Print Goodbye])).
Proof.
  intros Hp Hq.
  unfold interactive_mode, ui_bind, print, record.
  cbn [pending opened ui]. rewrite Hp.
  cbn [length interactive_loop].
  unfold ui_bind, interactive_round, ui_try, ui_bind, get_input.
  cbn [pending opened ui].
  apply is_quit_eq in Hq.
  destruct Hq as [-> | ->]; cbn; by rewrite <- !app_assoc.
Qed.


(** *** [ping] *)

Lemma ui_for_app {A} (l1 l2 : list A) (body : A -> Ui unit) w :
  ui_for (l1 ++ l2) body w = (ui_for l1 body ;; ui_for l2 body) w.
Proof.
  revert w. induction l1 as [| x l1 IH]; intros w; [done |].
  cbn [app ui_for]. unfold ui_bind.
  destruct (body x w) as [[[] | e] w1]; [| done]. apply IH.
Qed.

Lemma enumerate_from_app {A} i (l1 l2 : list A) :
  enumerate_from i (l1 ++ l2)
  = enumerate_from i l1 ++ enumerate_from (i + length l1) l2.
Proof.
  revert i. induction l1 as [| x l1 IH]; intros i; cbn.
  - by rewrite Nat.add_0_r.
  - rewrite IH. do 3 f_equal. lia.
Qed.

(** The loop of [ping] over servers that all answer. *)
Lemma ping_loop (reply : streams -> json) i ss w :
  (forall h s, s ∈ ss -> answer h (Send_ping s) = Value (reply s)) ->
  exists w',
    ui_for (enumerate_from i ss)
      (fun '(i, s) =>
         result <- ask answer (Send_ping s) ;;
         let server_num := i + 1 in
         if py_truthy result then print (Ping_ok server_num)
         else print (Ping_failed server_num)) w = (Value tt, w')
    /\ pending w' = pending w /\ opened w' = opened w
    /\ asked (ui w') = asked (ui w) ++ map Send_ping ss
    /\ printed (ui w')
       = printed (ui w)
         ++ map (fun p => ping_panel (p.1 + 1) (reply p.2))
              (enumerate_from i ss).
Proof.
  revert i w. induction ss as [| s ss IH]; intros i w H.
  - exists w. cbn. by rewrite !app_nil_r.
  - cbn [enumerate_from ui_for]. unfold ui_bind at 1 2, ask at 1.
    rewrite (H _ s) by left.
    set (w1 := mkMainWorld _ _ _).
    assert ((if py_truthy (reply s) then print (Ping_ok (i + 1))
             else print (Ping_failed (i + 1))) w1
            = (Value tt,
               mkMainWorld (pending w) (opened w)
                 (ui w1 ++ [Print (ping_panel (i + 1) (reply s))])))
      as -> by (unfold ping_panel; by destruct (py_truthy (reply s))).
    destruct (IH (S i)
                (mkMainWorld (pending w) (opened w)
                   (ui w1 ++ [Print (ping_panel (i + 1) (reply s))])))
      as (w' & Hrun & Hp & Ho & Ha & Hpr).
    { intros h s' Hs'. apply H. by right. }
    exists w'. split; [exact Hrun |]. rewrite Hp, Ho, Ha, Hpr. subst w1.
    cbn [pending opened ui map fst snd].
    rewrite !asked_app, !printed_app. cbn. by rewrite <- !app_assoc.
Qed.

(** The loop of [ping] when a server raises. *)
Lemma ping_loop_fail (reply : streams -> json) e i ss1 s ss2 w :
  (forall h s', s' ∈ ss1 -> answer h (Send_ping s') = Value (reply s')) ->
  (forall h, answer h (Send_ping s) = Error e) ->
  exists w',
    ui_for (enumerate_from i (ss1 ++ s :: ss2))
      (fun '(i, s) =>
         result <- ask answer (Send_ping s) ;;
         let server_num := i + 1 in
         if py_truthy result then print (Ping_ok server_num)
         else print (Ping_failed server_num)) w = (Error e, w')
    /\ asked (ui w') = asked (ui w) ++ map Send_ping (ss1 ++ [s])
    /\ printed (ui w')
       = printed (ui w)
         ++ map (fun p => ping_panel (p.1 + 1) (reply p.2))
              (enumerate_from i ss1).
Proof.
  revert i w. induction ss1 as [| s1 ss1 IH]; intros i w H Hs.
  - cbn [app enumerate_from ui_for]. unfold ui_bind at 1 2, ask at 1.
    rewrite Hs. eexists. split; [reflexivity |]. cbn [ui map].
    rewrite asked_app, printed_app. by split.
  - cbn [app enumerate_from ui_for]. unfold ui_bind at 1 2, ask at 1.
    rewrite (H _ s1) by left.
    set (w1 := mkMainWorld _ _ _).
    assert ((if py_truthy (reply s1) then print (Ping_ok (i + 1))
             else print (Ping_failed (i + 1))) w1
            = (Value tt,
               mkMainWorld (pending w) (opened w)
                 (ui w1 ++ [Print (ping_panel (i + 1) (reply s1))])))
      as -> by (unfold ping_panel; by destruct (py_truthy (reply s1))).
    destruct (IH (S i)
                (mkMainWorld (pending w) (opened w)
                   (ui w1 ++ [Print (ping_panel (i + 1) (reply s1))])))
      as (w' & Hrun & Ha & Hpr); [| done |].
    { intros h s' Hs'. apply H. by right. }
    exists w'. split; [exact Hrun |]. rewrite Ha, Hpr. subst w1.
    cbn [pending opened ui map fst snd].
    rewrite !asked_app, !printed_app. cbn. by rewrite <- !app_assoc.
Qed.

(** [handle_command] on [ping], by what [ping_servers] does. *)
Lemma handle_ping ss w :
  handle "ping" ss w
  = match ping_servers answer ss w with
    | (Value _, w') => (Value true, w')
    | (Error e, w') =>
        if is_exception e
        then (Value true,
              mkMainWorld (pending w') (opened w')
                (ui w' ++ [Print (Error_executing_command e)]))
        else (Error e, w')
    end.
Proof.
  unfold handle_command, dispatch, ui_try, ui_bind.
  change (String.eqb "ping" "ping") with true. cbn beta iota.
  destruct (ping_servers answer ss w) as [[[] | e] w1]; [reflexivity |].
  destruct (is_exception e); reflexivity.
Qed.

(** X19. When every server answers the ping, [ping] asks every server once, in
    the order of the connections, and prints one panel for each, numbered from
    1: the green one for an answer that is true, the red one otherwise. *)
Theorem ping_reports_every_server (reply : streams -> json) ss w :
  (forall h s, s ∈ ss -> answer h (Send_ping s) = Value (reply s)) ->
  (handle "ping" ss w).1 = Value true
  /\ asked (ui (handle "ping" ss w).2) = asked (ui w) ++ map Send_ping ss
  /\ printed (ui (handle "ping" ss w).2)
     = printed (ui w)
       ++ Pinging_servers
          :: map (fun p => ping_panel (p.1 + 1) (reply p.2)) (enumerate ss).
Proof.
  intros H. rewrite handle_ping.
  destruct (ping_loop reply 0 ss
              (mkMainWorld (pending w) (opened w)
                 (ui w ++ [Print Pinging_servers])) H)
    as (w' & Hrun & _ & _ & Ha & Hpr).
  assert (ping_servers answer ss w = (Value tt, w')) as -> by exact Hrun.
  cbn [fst snd]. rewrite Ha, Hpr. cbn [ui].
  rewrite asked_app, printed_app. cbn. by rewrite app_nil_r, <- app_assoc.
Qed.

(** X20. A server whose ping raises ends the command: the error is printed,
    the servers after it are not asked, and [handle_command] returns [True]. *)
Theorem ping_stops_at_failing_server (reply : streams -> json) e ss1 s ss2 w :
  (forall h s', s' ∈ ss1 -> answer h (Send_ping s') = Value (reply s')) ->
  (forall h, answer h (Send_ping s) = Error e) ->
  is_exception e = true ->
  (handle "ping" (ss1 ++ s :: ss2) w).1 = Value true
  /\ asked (ui (handle "ping" (ss1 ++ s :: ss2) w).2)
     = asked (ui w) ++ map Send_ping (ss1 ++ [s])
  /\ printed (ui (handle "ping" (ss1 ++ s :: ss2) w).2)
     = printed (ui w)
       ++ Pinging_servers
          :: map (fun p => ping_panel (p.1 + 1) (reply p.2)) (enumerate ss1)
       ++ [Error_executing_command e].
Proof.
  intros H Hs He. rewrite handle_ping.
  destruct (ping_loop_fail reply e 0 ss1 s ss2
              (mkMainWorld (pending w) (opened w)
                 (ui w ++ [Print Pinging_servers])) H Hs)
    as (w' & Hrun & Ha & Hpr).
  assert (ping_servers answer (ss1 ++ s :: ss2) w = (Error e, w')) as ->
    by exact Hrun.
  rewrite He. cbn [fst snd ui].
  rewrite asked_app, printed_app, Ha, Hpr. cbn [ui].
  rewrite asked_app, printed_app. cbn. by rewrite !app_nil_r, <- !app_assoc.
Qed.


(** *** [call-tool] *)

(** The body of the loop of [call-tool]. *)
Local Abbreviation call_body name a :=
  (fun s =>
     result <- ask answer (Send_call_tool name a s) ;;
     is_error <- ui_lift (py_get result "isError" JNull) ;;
     if py_truthy is_error then ui_ret tt
     else
       response_content <-
         ui_lift (py_get result "content" (JString "No content")) ;;
       if first_text_is_error response_content then ui_ret tt
       else print (Tool_response response_content)).

Lemma call_body_asks name a s w :
  asked (ui (call_body name a s w).2)
  = asked (ui w) ++ [Send_call_tool name a s].
Proof.
  unfold ui_bind, ask, ui_lift, ui_ret, print, record.
  destruct (answer (ui w) _) as [v | e]; [| cbn; by rewrite asked_app].
  destruct v; cbn; try by rewrite asked_app.
  destruct (py_truthy _); cbn; [by rewrite asked_app |].
  destruct (first_text_is_error _); cbn; [by rewrite asked_app |].
  by rewrite !asked_app, app_nil_r.
Qed.

Lemma call_loop_prefix name a ss w :
  exists k,
    asked (ui (ui_for ss (call_body name a) w).2)
    = asked (ui w) ++ map (Send_call_tool name a) (take k ss).
Proof.
  revert w. induction ss as [| s ss IH]; intros w.
  - exists 0. cbn. by rewrite app_nil_r.
  - cbn [ui_for]. unfold ui_bind at 1.
    pose proof (call_body_asks name a s w) as Hb.
    destruct (call_body name a s w) as [[[] | e] w1]; cbn [snd] in Hb.
    + destruct (IH w1) as [k Hk]. exists (S k).
      rewrite Hk, Hb. cbn. by rewrite <- app_assoc.
    + exists 1. cbn. by rewrite Hb.
Qed.

(** [handle_command] on [call-tool], by what [call_tool] does. *)
Lemma handle_call_tool ss w :
  handle "call-tool" ss w
  = match call_tool answer json_loads ss w with
    | (Value (Some b), w') => (Value b, w')
    | (Value None, w') => (Value true, w')
    | (Error e, w') =>
        if is_exception e
        then (Value true,
              mkMainWorld (pending w') (opened w')
                (ui w' ++ [Print (Error_executing_command e)]))
        else (Error e, w')
    end.
Proof.
  unfold handle_command, dispatch, ui_try, ui_bind.
  change (String.eqb "call-tool" "ping") with false.
  change (String.eqb "call-tool" "list-tools") with false.
  change (String.eqb "call-tool" "call-tool") with true. cbn beta iota.
  destruct (call_tool answer json_loads ss w) as [[[[] |] | e] w1];
    try reflexivity.
  destruct (is_exception e); reflexivity.
Qed.

Lemma handle_call_tool_asked ss w :
  asked (ui (handle "call-tool" ss w).2)
  = asked (ui (call_tool answer json_loads ss w).2).
Proof.
  rewrite handle_call_tool.
  destruct (call_tool answer json_loads ss w) as [[[[] |] | e] w1];
    try reflexivity.
  destruct (is_exception e); [| reflexivity].
  cbn. by rewrite asked_app, app_nil_r.
Qed.

(** X21. [call-tool] contacts a server only after a tool name that is not
    empty and arguments that are JSON were typed; what it sends then is that
    name with those arguments, to the servers in the order of the connections,
    each at most once, and nothing else. *)
Theorem call_tool_requests ss w :
  asked (ui (handle "call-tool" ss w).2) = asked (ui w)
  \/ exists name args rest a k,
       pending w = Value name :: Value args :: rest
       /\ truthy name = true
       /\ json_loads args = Some a
       /\ asked (ui (handle "call-tool" ss w).2)
          = asked (ui w) ++ map (Send_call_tool name a) (take k ss).
Proof.
  rewrite handle_call_tool_asked.
  destruct (call_tool answer json_loads ss w) as [r w'] eqn:Hc. cbn [snd].
  unfold call_tool in Hc. unfold ui_bind at 1, get_input at 1 in Hc.
  destruct (pending w) as [| [name | e] rest] eqn:Hp;
    try (injection Hc as <- <-; left; cbn; by rewrite asked_app, app_nil_r).
  destruct (truthy name) eqn:Hn; cbn [negb] in Hc;
    [| injection Hc as <- <-; left; cbn; by rewrite !asked_app, !app_nil_r].
  unfold ui_bind at 1, get_input at 1 in Hc. cbn [pending] in Hc.
  destruct rest as [| [args | e] rest];
    try (injection Hc as <- <-; left; cbn;
         by rewrite !asked_app, !app_nil_r).
  destruct (json_loads args) as [a |] eqn:Ha;
    [| injection Hc as <- <-; left; cbn; by rewrite !asked_app, !app_nil_r].
  right. exists name, args, rest, a.
  unfold ui_bind at 1 2 3, print at 1 2, record at 1 2 in Hc.
  cbn [pending opened ui] in Hc.
  destruct (call_loop_prefix name a ss
              (mkMainWorld rest (opened w)
                 ((((ui w ++ [Input Prompt_tool_name])
                    ++ [Input Prompt_tool_arguments])
                   ++ [Print (Calling_tool name)])
                  ++ [Print (Arguments_panel a)]))) as [k Hk].
  exists k. repeat split; try done.
  destruct (ui_for ss _ _) as [[[] | e] w2]; cbn [snd] in *;
    injection Hc as <- <-; rewrite Hk; cbn [ui];
    rewrite !asked_app; cbn; by rewrite !app_nil_r.
Qed.

(** The loop of [call-tool] over servers that all answer with a [dict]. *)
Lemma call_loop_shows name a (reply : streams -> json) ss w :
  (forall h s,
     s ∈ ss -> answer h (Send_call_tool name a s) = Value (reply s)) ->
  (forall s, s ∈ ss -> is_dict (reply s) = true) ->
  exists w',
    ui_for ss (call_body name a) w = (Value tt, w')
    /\ pending w' = pending w
    /\ asked (ui w') = asked (ui w) ++ map (Send_call_tool name a) ss
    /\ printed (ui w')
       = printed (ui w)
         ++ map (fun s => Tool_response (tool_content (reply s)))
              (List.filter (fun s => negb (tool_error (reply s))) ss).
Proof.
  revert w. induction ss as [| s ss IH]; intros w H Hd.
  - exists w. cbn. by rewrite !app_nil_r.
  - assert (forall h s',
              s' ∈ ss ->
              answer h (Send_call_tool name a s') = Value (reply s'))
      as H' by (intros h s' Hs'; apply H; by right).
    assert (forall s', s' ∈ ss -> is_dict (reply s') = true)
      as Hd' by (intros s' Hs'; apply Hd; by right).
    cbn [ui_for List.filter]. unfold ui_bind at 1 2, ask at 1.
    rewrite (H _ s) by left.
    pose proof (Hd s ltac:(left)) as Hs.
    destruct (reply s) as [| | | | | members] eqn:Er; try discriminate Hs.
    cbn [py_get tool_error]. unfold ui_lift at 1, ui_bind at 1.
    destruct (py_truthy _); cbn [orb negb].
    + destruct (IH (mkMainWorld (pending w) (opened w)
                      (ui w ++ [Asked (Send_call_tool name a s)])) H' Hd')
        as (w' & Hrun & Hp & Ha & Hpr).
      exists w'. split; [exact Hrun |]. rewrite Hp, Ha, Hpr. cbn [pending ui].
      rewrite asked_app, printed_app. cbn.
      by rewrite app_nil_r, <- app_assoc.
    + unfold ui_lift at 1, ui_bind at 1.
      destruct (first_text_is_error _); cbn [negb].
      * destruct (IH (mkMainWorld (pending w) (opened w)
                        (ui w ++ [Asked (Send_call_tool name a s)])) H' Hd')
          as (w' & Hrun & Hp & Ha & Hpr).
        exists w'. split; [exact Hrun |]. rewrite Hp, Ha, Hpr.
        cbn [pending ui]. rewrite asked_app, printed_app. cbn.
        by rewrite app_nil_r, <- app_assoc.
      * destruct (IH (mkMainWorld (pending w) (opened w)
                        ((ui w ++ [Asked (Send_call_tool name a s)])
                         ++ [Print
                               (Tool_response
                                  match field "content" members with
                                  | Some x => x
                                  | None => JString "No content"
                                  end)])) H' Hd')
          as (w' & Hrun & Hp & Ha & Hpr).
        exists w'. split; [exact Hrun |]. rewrite Hp, Ha, Hpr.
        cbn [pending ui map]. rewrite !asked_app, !printed_app, Er. cbn.
        by rewrite !app_nil_r, <- !app_assoc.
Qed.

(** X22. When the tool name holds no opening bracket, so that the line that
    announces the call prints, and every server answers a call with a
    [dict], [call-tool] calls the tool on every server, in the order of the
    connections, and shows the content of exactly those results that are not
    errors: a result flagged with [isError], or whose first content item has
    a text that starts with [Error:], is passed over in silence. *)
Theorem call_tool_shows_results name args a rest (reply : streams -> json)
    ss w :
  pending w = Value name :: Value args :: rest ->
  truthy name = true ->
  markup_free name = true ->
  json_loads args = Some a ->
  (forall h s,
     s ∈ ss -> answer h (Send_call_tool name a s) = Value (reply s)) ->
  (forall s, s ∈ ss -> is_dict (reply s) = true) ->
  (handle "call-tool" ss w).1 = Value true
  /\ pending (handle "call-tool" ss w).2 = rest
  /\ asked (ui (handle "call-tool" ss w).2)
     = asked (ui w) ++ map (Send_call_tool name a) ss
  /\ printed (ui (handle "call-tool" ss w).2)
     = printed (ui w)
       ++ [Calling_tool name; Arguments_panel a]
       ++ map (fun s => Tool_response (tool_content (reply s)))
            (List.filter (fun s => negb (tool_error (reply s))) ss).
Proof.
  intros Hp Hn _ Ha H Hd. rewrite handle_call_tool.
  destruct (call_loop_shows name a reply ss
              (mkMainWorld rest (opened w)
                 ((((ui w ++ [Input Prompt_tool_name])
                    ++ [Input Prompt_tool_arguments])
                   ++ [Print (Calling_tool name)])
                  ++ [Print (Arguments_panel a)])) H Hd)
    as (w' & Hrun & Hp' & Has & Hpr).
  assert (call_tool answer json_loads ss w = (Value None, w')) as ->.
  { unfold call_tool. unfold ui_bind at 1, get_input at 1. rewrite Hp, Hn.
    cbn [negb]. unfold ui_bind at 1, get_input at 1. cbn [pending].
    rewrite Ha. unfold ui_bind at 1 2 3, print at 1 2, record at 1 2.
    cbn [pending opened ui]. by rewrite Hrun. }
  cbn [fst snd]. rewrite Hp', Has, Hpr. cbn [pending ui].
  rewrite !asked_app, !printed_app. cbn.
  by rewrite !app_nil_r, <- !app_assoc.
Qed.

(** *** Responses that are empty *)

(** X23. [list-tools] takes the response of a server for a [dict]: on any
    other value, [None] included, the lookup of [tools] fails, the error is
    printed and the servers after it are not asked. *)
Theorem list_tools_needs_a_dict v s ss w :
  (forall h, answer h (Send_tools_list s) = Value v) ->
  is_dict v = false ->
  handle "list-tools" (s :: ss) w
  = (Value true,
     mkMainWorld (pending w) (opened w)
       (ui w ++ [Print Fetching_tools; Asked (Send_tools_list s);
                 Print (Error_executing_command AttributeError)])).
Proof.
  intros H Hv.
  unfold handle_command, dispatch, ui_try.
  change (String.eqb "list-tools" "ping") with false.
  change (String.eqb "list-tools" "list-tools") with true. cbn beta iota.
  unfold list_tools, enumerate. cbn [enumerate_from ui_for].
  unfold ui_bind, print, record, ask, ui_lift. cbn [pending opened ui].
  rewrite H.
  destruct v; try discriminate Hv; cbn; by rewrite <- !app_assoc.
Qed.

(** The loop of [list-resources] over servers whose response is empty. *)
Lemma resources_loop_empty (reply : streams -> json) i ss w :
  (forall h s,
     s ∈ ss -> answer h (Send_resources_list s) = Value (reply s)) ->
  (forall s, s ∈ ss -> py_truthy (reply s) = false) ->
  exists w',
    ui_for (enumerate_from i ss)
      (fun '(i, s) =>
         response <- ask answer (Send_resources_list s) ;;
         resources_list <-
           (if py_truthy response
            then ui_lift (py_get response "resources" (JArray []))
            else ui_ret JNull) ;;
         let server_num := i + 1 in
         if negb (py_truthy resources_list)
         then print (Resources_panel server_num None)
         else
           rs <- ui_lift (py_iter resources_list) ;;
           print (Resources_panel server_num (Some rs))) w = (Value tt, w')
    /\ asked (ui w') = asked (ui w) ++ map Send_resources_list ss
    /\ printed (ui w')
       = printed (ui w)
         ++ map (fun p => Resources_panel (p.1 + 1) None)
              (enumerate_from i ss).
Proof.
  revert i w. induction ss as [| s ss IH]; intros i w H Hf.
  - exists w. cbn. by rewrite !app_nil_r.
  - cbn [enumerate_from ui_for]. unfold ui_bind at 1 2, ask at 1.
    rewrite (H _ s), (Hf s) by left. unfold ui_bind at 1, ui_ret at 1.
    cbn [py_truthy negb]. unfold print at 1, record at 1.
    cbn [pending opened ui].
    destruct (IH (S i)
                (mkMainWorld (pending w) (opened w)
                   ((ui w ++ [Asked (Send_resources_list s)])
                    ++ [Print (Resources_panel (i + 1) None)])))
      as (w' & Hrun & Ha & Hpr).
    { intros h s' Hs'. apply H. by right. }
    { intros s' Hs'. apply Hf. by right. }
    exists w'. split; [exact Hrun |]. rewrite Ha, Hpr.
    cbn [ui map fst snd]. rewrite !asked_app, !printed_app. cbn.
    by rewrite !app_nil_r, <- !app_assoc.
Qed.

(** X24. [list-resources] takes an empty response, [None] included, for a
    server without resources: it prints that none are available and goes on
    with the next server, so every server is asked. *)
Theorem list_resources_tolerates_empty (reply : streams -> json) ss w :
  (forall h s,
     s ∈ ss -> answer h (Send_resources_list s) = Value (reply s)) ->
  (forall s, s ∈ ss -> py_truthy (reply s) = false) ->
  (handle "list-resources" ss w).1 = Value true
  /\ asked (ui (handle "list-resources" ss w).2)
     = asked (ui w) ++ map Send_resources_list ss
  /\ printed (ui (handle "list-resources" ss w).2)
     = printed (ui w)
       ++ Fetching_resources
          :: map (fun p => Resources_panel (p.1 + 1) None) (enumerate ss).
Proof.
  intros H Hf.
  destruct (resources_loop_empty reply 0 ss
              (mkMainWorld (pending w) (opened w)
                 (ui w ++ [Print Fetching_resources])) H Hf)
    as (w' & Hrun & Ha & Hpr).
  assert (handle "list-resources" ss w = (Value true, w')) as ->.
  { unfold handle_command, dispatch, ui_try.
    change (String.eqb "list-resources" "ping") with false.
    change (String.eqb "list-resources" "list-tools") with false.
    change (String.eqb "list-resources" "call-tool") with false.
    change (String.eqb "list-resources" "list-resources") with true.
    cbn beta iota. unfold ui_bind.
    assert (list_resources answer ss w = (Value tt, w')) as ->
      by exact Hrun.
    reflexivity. }
  cbn [fst snd]. rewrite Ha, Hpr. cbn [ui].
  rewrite asked_app, printed_app. cbn. by rewrite app_nil_r, <- app_assoc.
Qed.

(** *** [run] *)

Variable load_config : string -> string -> result StdioServerParameters.
Variable default_environment : gmap string string.
Variable os_spawn : list string -> gmap string string -> outcome Z.
Variable aexit_answer : list ui_event -> streams -> aexit_outcome.

Local Abbreviation connect_ cfg names acc :=
  (connect answer load_config default_environment os_spawn cfg names acc).
Local Abbreviation run_ cfg names cmd :=
  (run answer platform llm_provider_env llm_model_env json_loads load_config
     default_environment os_spawn aexit_answer cfg names cmd).
Local Abbreviation cleanup ss := (ui_for ss (aexit aexit_answer)).
Local Abbreviation work cmd ss :=
  (match cmd with
   | Some c =>
       if truthy c then handle c ss ;; ui_ret tt
       else interactive ss ;; ui_ret tt
   | None => interactive ss ;; ui_ret tt
   end).

Implicit Types (cfg : string) (names : list string) (cmd : option string).

Lemma clear_screen_run w :
  exists c,
    clear_screen platform w
    = (Value tt, mkMainWorld (pending w) (opened w) (ui w ++ [System c])).
Proof.
  unfold clear_screen. destruct (String.eqb platform "win32"); by eexists.
Qed.

(** [run], by its three parts. *)
Lemma run_parts cfg names cmd w :
  run_ cfg names cmd w
  = match connect_ cfg names [] (clear_screen platform w).2 with
    | (Value (Some ss), w1) => ui_finally (work cmd ss) (cleanup ss) w1
    | (Value None, w1) => (Value tt, w1)
    | (Error e, w1) => (Error e, w1)
    end.
Proof.
  unfold run. unfold ui_bind at 1.
  destruct (clear_screen_run w) as [c ->]. cbn [snd]. unfold ui_bind at 1.
  by destruct (connect_ cfg names [] _) as [[[ss |] | e] w1].
Qed.

Lemma connect_exited cfg names acc w :
  exited (ui (connect_ cfg names acc w).2) = exited (ui w).
Proof.
  revert acc w. induction names as [| n names IH]; intros acc w; [done |].
  cbn [connect].
  unfold ui_bind at 1 2 3 4, record at 1, ui_lift at 1, aenter at 1,
    ask at 1.
  cbn [pending opened ui].
  destruct (load_config cfg n) as [p | e];
    [| cbn; by rewrite exited_app, app_nil_r].
  destruct (stdio_client _ _ p (opened w)) as [[proc | e] t];
    [| cbn; by rewrite exited_app, app_nil_r].
  cbn [pending opened ui].
  destruct (answer _ _) as [v | e];
    [| cbn; by rewrite !exited_app, !app_nil_r].
  destruct (py_truthy v); cbn [negb].
  - rewrite IH. cbn. by rewrite !exited_app, !app_nil_r.
  - cbn. by rewrite !exited_app, !app_nil_r.
Qed.

(** What the command or the interactive mode leaves behind: the sessions
    as they were. *)
Lemma work_outcome cmd ss w : same_sessions w (work cmd ss w).2.
Proof.
  assert (forall c, same_sessions w ((handle c ss ;; ui_ret tt) w).2) as Hh.
  { intros c. unfold ui_bind.
    pose proof (handle_same_sessions c ss w) as Hs.
    by destruct (handle c ss w) as [[b | e] w1]. }
  assert (same_sessions w ((interactive ss ;; ui_ret tt) w).2) as Hi.
  { unfold ui_bind.
    pose proof (interactive_same_sessions ss w) as Hs.
    by destruct (interactive ss w) as [[b | e] w1]. }
  destruct cmd as [c |]; [| exact Hi].
  destruct (truthy c); [apply Hh | exact Hi].
Qed.

Lemma exited_Aexit ss : exited (map Aexit ss) = ss.
Proof. induction ss as [| s ss IH]; [done |]. cbn. f_equal. exact IH. Qed.

(** The loop of the [finally] over context managers whose exit does not
    raise. *)
Lemma cleanup_all ss w :
  (forall h cm e, cm ∈ ss -> aexit_answer h cm <> Exit_raised e) ->
  cleanup ss w
  = (Value tt, mkMainWorld (pending w) (opened w) (ui w ++ map Aexit ss)).
Proof.
  revert w. induction ss as [| cm ss IH]; intros w H.
  - cbn. rewrite app_nil_r. by destruct w.
  - cbn [ui_for map]. unfold ui_bind, aexit at 1.
    pose proof (H (ui w) cm) as Hcm.
    destruct (aexit_answer (ui w) cm) as [| | e].
    + rewrite IH by (intros h cm' e' Hin; apply H; by right).
      cbn. by rewrite <- app_assoc.
    + rewrite IH by (intros h cm' e' Hin; apply H; by right).
      cbn. by rewrite <- app_assoc.
    + by destruct (Hcm e); [left |].
Qed.

(** X25. When the first loop of [run] does not complete, because a
    configuration does not load, a session does not open or an initialization
    fails, [run] ends there: it calls [__aexit__] on none of the context
    managers it has entered. It returns normally after a failed initialization
    and raises the error otherwise. *)
Theorem run_without_connection_exits_nothing cfg names cmd w :
  (forall ss,
     (connect_ cfg names [] (clear_screen platform w).2).1
     <> Value (Some ss)) ->
  exited (ui (run_ cfg names cmd w).2) = exited (ui w)
  /\ (run_ cfg names cmd w).1
     = match (connect_ cfg names [] (clear_screen platform w).2).1 with
       | Value _ => Value tt
       | Error e => Error e
       end.
Proof.
  intros H. rewrite run_parts.
  pose proof (connect_exited cfg names [] (clear_screen platform w).2) as He.
  destruct (clear_screen_run w) as [c Hc]. rewrite Hc in *.
  destruct (connect_ cfg names [] _) as [[[ss |] | e] w1];
    cbn [fst snd ui] in *.
  - by destruct (H ss).
  - split; [| done]. rewrite He, exited_app. cbn. by rewrite app_nil_r.
  - split; [| done]. rewrite He, exited_app. cbn. by rewrite app_nil_r.
Qed.

(** [run] when the initialization of the first server fails. *)
Lemma run_failed_initialization cfg n rest cmd p child_pid v w :
  load_config cfg n = Value p ->
  ~ invalid_parameters p ->
  os_spawn (command p :: unpack (args p))
    (launch_environment default_environment p) = Returned child_pid ->
  (forall h s, answer h (Send_initialize s) = Value v) ->
  py_truthy v = false ->
  let cmdline := command p :: unpack (args p) in
  let environment := launch_environment default_environment p in
  (run_ cfg (n :: rest) cmd w).1 = Value tt
  /\ opened (run_ cfg (n :: rest) cmd w).2
     = opened w
       ++ [Create_memory_object_stream 0; Create_memory_object_stream 0;
           Open_process cmdline environment;
           Log_subprocess_started child_pid (command p)]
  /\ exited (ui (run_ cfg (n :: rest) cmd w).2) = exited (ui w)
  /\ printed (ui (run_ cfg (n :: rest) cmd w).2)
     = printed (ui w) ++ [Initialization_failed n].
Proof.
  intros Hl Hv Hs Ha Hf cmdline environment.
  destruct (clear_screen_run w) as [c Hc].
  assert (run_ cfg (n :: rest) cmd w
          = (Value tt,
             mkMainWorld (pending w)
               (opened w
                ++ [Create_memory_object_stream 0;
                    Create_memory_object_stream 0;
                    Open_process cmdline environment;
                    Log_subprocess_started child_pid (command p)])
               ((((ui w ++ [System c]) ++ [Load_config cfg n])
                 ++ [Asked (Send_initialize
                              (mkProcess child_pid cmdline environment))])
                ++ [Print (Initialization_failed n)]))) as ->.
  { rewrite run_parts, Hc. cbn [snd connect].
    unfold ui_bind, record, ui_lift, aenter, ask.
    cbn [pending opened ui].
    rewrite Hl, (stdio_client_valid _ _ _ _ Hv), Hs. cbn [pending opened ui].
    by rewrite Ha, Hf. }
  cbn [fst snd opened ui].
  rewrite !exited_app, !printed_app. cbn. by rewrite !app_nil_r.
Qed.

(** X27. An exit that raises stops the cleanup: the context managers after it
    are not exited, and its exception is what [run] raises, in place of
    whatever the command raised. *)
Theorem failing_exit_stops_cleanup cfg names cmd ss1 cm ss2 e w w1 :
  connect_ cfg names [] (clear_screen platform w).2
  = (Value (Some (ss1 ++ cm :: ss2)), w1) ->
  (forall h cm' e', cm' ∈ ss1 -> aexit_answer h cm' <> Exit_raised e') ->
  (forall h, aexit_answer h cm = Exit_raised e) ->
  (run_ cfg names cmd w).1 = Error e
  /\ exited (ui (run_ cfg names cmd w).2) = exited (ui w) ++ ss1 ++ [cm].
Proof.
  intros Hc Hx Hcm. rewrite run_parts.
  pose proof (connect_exited cfg names [] (clear_screen platform w).2) as He.
  rewrite Hc in *. cbn [snd] in He. unfold ui_finally.
  destruct (work_outcome cmd (ss1 ++ cm :: ss2) w1) as [_ Hs].
  destruct (work cmd (ss1 ++ cm :: ss2) w1) as [r w2]. cbn [fst snd] in *.
  assert (cleanup (ss1 ++ cm :: ss2) w2
          = (Error e,
             mkMainWorld (pending w2) (opened w2)
               ((ui w2 ++ map Aexit ss1) ++ [Aexit cm]))) as ->.
  { rewrite ui_for_app. unfold ui_bind at 1.
    rewrite (cleanup_all ss1 w2 Hx). cbn [ui_for].
    unfold ui_bind at 1, aexit at 1. by rewrite Hcm. }
  cbn [fst snd ui]. split; [done |].
  rewrite !exited_app, exited_Aexit, Hs, He.
  destruct (clear_screen_run w) as [c ->]. cbn [snd ui].
  rewrite exited_app. cbn. by rewrite app_nil_r, <- app_assoc.
Qed.

(** [run] when the parameters of the first server are refused. *)
Lemma run_invalid_parameters cfg n rest cmd p w :
  load_config cfg n = Value p ->
  invalid_parameters p ->
  (exists msg,
     (run_ cfg (n :: rest) cmd w).1 = Error (Transport (ValueError msg)))
  /\ opened (run_ cfg (n :: rest) cmd w).2 = opened w
  /\ asked (ui (run_ cfg (n :: rest) cmd w).2) = asked (ui w)
  /\ exited (ui (run_ cfg (n :: rest) cmd w).2) = exited (ui w)
  /\ printed (ui (run_ cfg (n :: rest) cmd w).2) = printed (ui w).
Proof.
  intros Hl Hi.
  destruct (clear_screen_run w) as [c Hc].
  destruct (stdio_client_invalid default_environment os_spawn p (opened w) Hi)
    as [msg Hmsg].
  assert (run_ cfg (n :: rest) cmd w
          = (Error (Transport (ValueError msg)),
             mkMainWorld (pending w) (opened w)
               ((ui w ++ [System c]) ++ [Load_config cfg n]))) as ->.
  { rewrite run_parts, Hc. cbn [snd connect].
    unfold ui_bind, record, ui_lift, aenter.
    cbn [pending opened ui]. by rewrite Hl, Hmsg. }
  cbn [fst snd opened ui].
  rewrite !asked_app, !exited_app, !printed_app. cbn. rewrite !app_nil_r.
  eauto 10.
Qed.

End MainFacts.

(** ** [cli_main] *)

Section CliFacts.

Variable answer : list ui_event -> request -> result json.
Variable platform : string.
Variable json_loads : string -> option json.
Variable load_config : string -> string -> result StdioServerParameters.
Variable default_environment : gmap string string.
Variable os_spawn : list string -> gmap string string -> outcome Z.
Variable aexit_answer : list ui_event -> streams -> aexit_outcome.
Variable read_servers : string -> result (list string).

Local Abbreviation main parsed :=
  (cli_main answer platform json_loads load_config default_environment
     os_spawn aexit_answer read_servers parsed).
Local Abbreviation run_of parsed names :=
  (run answer platform (Some (provider parsed))
     (Some (or_else (model parsed) (default_model (provider parsed))))
     json_loads load_config default_environment os_spawn aexit_answer
     (config_file parsed) names (command_arg parsed)).

(** [cli_main], by what [run] does. *)
Lemma cli_main_parts parsed names w :
  chosen_servers read_servers parsed = Value names ->
  main parsed w
  = match run_of parsed names w with
    | (Value _, w') => (Value 0%Z, w')
    | (Error e, w') =>
        if is_exception e
        then (Value 1%Z,
              mkMainWorld (pending w') (opened w')
                (ui w' ++ [Print (Error_occurred e)]))
        else (Error e, w')
    end.
Proof.
  intros Hn. unfold cli_main, ui_try, ui_bind, ui_lift. rewrite Hn.
  cbn beta iota zeta.
  destruct (run_of parsed names w) as [[[] | e] w1]; [reflexivity |].
  destruct (is_exception e); reflexivity.
Qed.

(** X28. A failed initialization is reported on the screen only. When the
    first server, whose name holds no opening bracket, fails to initialize,
    its process has been started and its context manager entered, but [run]
    prints the failure and returns without calling [__aexit__] on it, the
    other servers are not started, and the program ends with the exit
    status 0. *)
Theorem failed_initialization_exits_with_status_0 parsed n rest p child_pid v
    w :
  chosen_servers read_servers parsed = Value (n :: rest) ->
  markup_free n = true ->
  load_config (config_file parsed) n = Value p ->
  ~ invalid_parameters p ->
  os_spawn (command p :: unpack (args p))
    (launch_environment default_environment p) = Returned child_pid ->
  (forall h s, answer h (Send_initialize s) = Value v) ->
  py_truthy v = false ->
  let cmdline := command p :: unpack (args p) in
  let environment := launch_environment default_environment p in
  (main parsed w).1 = Value 0%Z
  /\ opened (main parsed w).2
     = opened w
       ++ [Create_memory_object_stream 0; Create_memory_object_stream 0;
           Open_process cmdline environment;
           Log_subprocess_started child_pid (command p)]
  /\ exited (ui (main parsed w).2) = exited (ui w)
  /\ printed (ui (main parsed w).2)
     = printed (ui w) ++ [Initialization_failed n].
Proof.
  intros Hn _ Hl Hv Hs Ha Hf cmdline environment.
  rewrite (cli_main_parts parsed (n :: rest) w Hn).
  pose proof (run_failed_initialization answer platform
                (Some (provider parsed))
                (Some (or_else (model parsed)
                         (default_model (provider parsed))))
                json_loads load_config default_environment os_spawn
                aexit_answer (config_file parsed) n rest (command_arg parsed)
                p child_pid v w Hl Hv Hs Ha Hf) as H.
  cbv zeta in H.
  destruct (run_of parsed (n :: rest) w) as [[[] | e] w1]; cbn [fst snd] in *.
  - by destruct H as (_ & ? & ? & ?).
  - by destruct H as [H _].
Qed.

(** X29. Parameters that [stdio_client] refuses end the program before
    anything is started: no channel, no process, no request to a server and no
    exit; the [ValueError] of [stdio_client] is printed and the exit status is
    1. *)
Theorem invalid_parameters_exit_with_status_1 parsed n rest p w :
  chosen_servers read_servers parsed = Value (n :: rest) ->
  load_config (config_file parsed) n = Value p ->
  invalid_parameters p ->
  (main parsed w).1 = Value 1%Z
  /\ (exists msg,
        printed (ui (main parsed w).2)
        = printed (ui w) ++ [Error_occurred (Transport (ValueError msg))])
  /\ opened (main parsed w).2 = opened w
  /\ asked (ui (main parsed w).2) = asked (ui w)
  /\ exited (ui (main parsed w).2) = exited (ui w).
Proof.
  intros Hn Hl Hi.
  rewrite (cli_main_parts parsed (n :: rest) w Hn).
  pose proof (run_invalid_parameters answer platform
                (Some (provider parsed))
                (Some (or_else (model parsed)
                         (default_model (provider parsed))))
                json_loads load_config default_environment os_spawn
                aexit_answer (config_file parsed) n rest (command_arg parsed)
                p w Hl Hi) as ([msg Hr] & Ho & Ha & He & Hp).
  destruct (run_of parsed (n :: rest) w) as [[[] | e] w1]; cbn [fst snd] in *;
    [discriminate Hr |].
  injection Hr as ->. cbn [is_exception is_Exception fst snd opened ui].
  rewrite asked_app, exited_app, printed_app, Ho, Ha, He, Hp. cbn.
  rewrite !app_nil_r. eauto 10.
Qed.

End CliFacts.

Local Close Scope main_scope.

(** * Instances on sample data, continued *)

Lemma reader_chunking_irrelevant_witness :
  let text := stdin_writer_line ping1 +:+ "{oops" in
  let run cs :=
    stdout_reader loads (model_validate ["jsonrpc"])
      (Some (mkStream cs (ReadError BrokenResourceError))) open_world in
  run [text]
  = run [substring 0 9 text; substring 9 (String.length text - 9) text].
Proof.
  apply (reader_chunking_irrelevant loads (model_validate ["jsonrpc"])).
  vm_compute. reflexivity.
Defined.

Lemma blank_lines_ignored_witness :
  let l1 := model_dump_json true ping1 in
  let l2 := model_dump_json true ping2 in
  let run cs :=
    stdout_reader loads (model_validate ["jsonrpc"])
      (Some (mkStream cs EndOfStream)) open_world in
  run [lines_text [l1; "  "; l2]] = run [lines_text [l1; l2]].
Proof.
  apply (blank_lines_ignored loads (model_validate ["jsonrpc"])
           [model_dump_json true ping1; "  "; model_dump_json true ping2]).
  - repeat constructor.
  - vm_compute. reflexivity.
  - vm_compute. reflexivity.
Defined.

Lemma stdin_writer_writes_in_order_witness :
  let w := sample_pipe (Some 2) in
  let run :=
    stdin_writer model_dump_json (fun s => s) true [ping1; ping2]
      EndOfStream w in
  run.1 = Returned tt
  /\ written run.2 =
       written w ++ map (wire model_dump_json (fun s => s)) [ping1; ping2]
  /\ announced (wlog run.2) =
       announced (wlog w) ++ map (model_dump_json true) [ping1; ping2]
  /\ writer_errors (wlog run.2) = writer_errors (wlog w)
  /\ receive_closed run.2 = true.
Proof.
  apply (stdin_writer_writes_in_order model_dump_json (fun s => s)
           [ping1; ping2] (sample_pipe (Some 2))).
  unfold has_room. simpl. lia.
Defined.

Lemma stdin_writer_stops_at_failed_write_witness :
  let w := sample_pipe (Some 1) in
  let run :=
    stdin_writer model_dump_json (fun s => s) true [ping1; ping2]
      EndOfStream w in
  written run.2 =
    written w
      ++ map (wire model_dump_json (fun s => s)) (take 1 [ping1; ping2])
  /\ interrupted run.2 =
       wire model_dump_json (fun s => s) <$> [ping1; ping2] !! 1
  /\ is_Some ([ping1; ping2] !! 1)
  /\ announced (wlog run.2) =
       announced (wlog w)
         ++ map (model_dump_json true) (take 2 [ping1; ping2])
  /\ run.1 =
       (if is_ClosedResourceError (pipe_error w) then Returned tt
        else Raised (pipe_error w))
  /\ writer_errors (wlog run.2) =
       writer_errors (wlog w)
         ++ (if is_ClosedResourceError (pipe_error w) then []
             else if is_Exception (pipe_error w)
                  then [Unexpected_error_in_stdin_writer (pipe_error w)]
                  else []).
Proof.
  apply (stdin_writer_stops_at_failed_write model_dump_json (fun s => s)
           [ping1; ping2] EndOfStream (sample_pipe (Some 1)) 1).
  - reflexivity.
  - simpl. lia.
Defined.

Lemma echo_round_trip_witness :
  let text := stdin_writer_line ping1 +:+ stdin_writer_line ping2 in
  let run :=
    stdout_reader loads (model_validate ["jsonrpc"])
      (Some (mkStream [substring 0 7 text;
                       substring 7 (String.length text - 7) text]
               EndOfStream)) open_world in
  run.1 = Returned tt
  /\ sent (trace run.2) =
       sent (trace open_world) ++ [populated ping1; populated ping2].
Proof.
  apply (echo_round_trip loads (model_validate ["jsonrpc"]) model_dump_json
           [ping1; ping2] [populated ping1; populated ping2]
           (sample_pipe None)).
  - repeat constructor.
  - repeat constructor.
  - repeat constructor.
  - unfold has_room. simpl. exact I.
  - reflexivity.
  - vm_compute. reflexivity.
  - split; reflexivity.
Defined.


Lemma handle_command_without_servers_witness :
  let w := sample_input [] in
  let run :=
    handle_command (sample_answer JNull (Value JNull)) "linux" None None loads
      "help" [session1; session2] w in
  asked (ui run.2) = asked (ui w)
  /\ pending run.2 = pending w
  /\ opened run.2 = opened w.
Proof.
  apply (handle_command_without_servers (sample_answer JNull (Value JNull))
           "linux" None None loads "help" [session1; session2]
           (sample_input [])).
  reflexivity.
Defined.

Lemma quit_leaves_input_unread_witness :
  let w := sample_input ["QUIT"; "ping"] in
  interactive_mode (sample_answer JNull (Value JNull)) "linux" None None loads
    [session1; session2] w
  = (Value true,
     mkMainWorld [Value "ping"] (opened w)
       (ui w ++ [Print Welcome; Input Prompt_command; Print Goodbye])).
Proof.
  apply (quit_leaves_input_unread (sample_answer JNull (Value JNull)) "linux"
           None None loads "QUIT" [Value "ping"] [session1; session2]
           (sample_input ["QUIT"; "ping"])).
  - reflexivity.
  - vm_compute. reflexivity.
Defined.

Lemma ping_reports_every_server_witness :
  let w := sample_input [] in
  let reply s := if (pid s =? 4242)%Z then JBool true else JNull in
  let run :=
    handle_command (sample_answer JNull (Value JNull)) "linux" None None loads
      "ping" [session1; session2] w in
  run.1 = Value true
  /\ asked (ui run.2) = asked (ui w) ++ map Send_ping [session1; session2]
  /\ printed (ui run.2)
     = printed (ui w)
       ++ Pinging_servers
          :: map (fun p => ping_panel (p.1 + 1) (reply p.2))
               (enumerate [session1; session2]).
Proof.
  apply (ping_reports_every_server (sample_answer JNull (Value JNull)) "linux"
           None None loads
           (fun s => if (pid s =? 4242)%Z then JBool true else JNull)
           [session1; session2] (sample_input [])).
  intros h s _. simpl. destruct (pid s =? 4242)%Z; reflexivity.
Defined.

Lemma ping_stops_at_failing_server_witness :
  let w := sample_input [] in
  let e := Transport BrokenResourceError in
  let run :=
    handle_command (sample_answer JNull (Error e)) "linux" None None loads
      "ping" ([session1] ++ session2 :: [session1]) w in
  run.1 = Value true
  /\ asked (ui run.2) = asked (ui w) ++ map Send_ping ([session1] ++ [session2])
  /\ printed (ui run.2)
     = printed (ui w)
       ++ Pinging_servers
          :: map (fun p => ping_panel (p.1 + 1) (JBool true))
               (enumerate [session1])
       ++ [Error_executing_command e].
Proof.
  apply (ping_stops_at_failing_server
           (sample_answer JNull (Error (Transport BrokenResourceError)))
           "linux" None None loads (fun _ => JBool true)
           (Transport BrokenResourceError) [session1] session2 [session1]
           (sample_input [])).
  - intros h s Hs. apply list_elem_of_singleton in Hs. subst s. reflexivity.
  - reflexivity.
  - reflexivity.
Defined.

Lemma call_tool_shows_results_witness :
  let w := sample_input ["add"; "{}"] in
  let run :=
    handle_command (sample_answer JNull (Value JNull)) "linux" None None loads
      "call-tool" [session1; session2] w in
  run.1 = Value true
  /\ pending run.2 = []
  /\ asked (ui run.2)
     = asked (ui w)
       ++ map (Send_call_tool "add" (JObject [])) [session1; session2]
  /\ printed (ui run.2)
     = printed (ui w)
       ++ [Calling_tool "add"; Arguments_panel (JObject [])]
       ++ map (fun s => Tool_response (tool_content (sample_reply s)))
            (List.filter (fun s => negb (tool_error (sample_reply s)))
               [session1; session2]).
Proof.
  apply (call_tool_shows_results (sample_answer JNull (Value JNull)) "linux"
           None None loads "add" "{}" (JObject []) [] sample_reply
           [session1; session2] (sample_input ["add"; "{}"])).
  - reflexivity.
  - reflexivity.
  - reflexivity.
  - vm_compute. reflexivity.
  - intros h s _. reflexivity.
  - intros s _. unfold sample_reply. destruct (pid s =? 4242)%Z; reflexivity.
Defined.

Lemma list_tools_needs_a_dict_witness :
  let w := sample_input [] in
  handle_command (sample_answer JNull (Value JNull)) "linux" None None loads
    "list-tools" [session1; session2] w
  = (Value true,
     mkMainWorld (pending w) (opened w)
       (ui w ++ [Print Fetching_tools; Asked (Send_tools_list session1);
                 Print (Error_executing_command AttributeError)])).
Proof.
  apply (list_tools_needs_a_dict (sample_answer JNull (Value JNull)) "linux"
           None None loads JNull session1 [session2] (sample_input [])).
  - reflexivity.
  - reflexivity.
Defined.

Lemma list_resources_tolerates_empty_witness :
  let w := sample_input [] in
  let run :=
    handle_command (sample_answer JNull (Value JNull)) "linux" None None loads
      "list-resources" [session1; session2] w in
  run.1 = Value true
  /\ asked (ui run.2)
     = asked (ui w) ++ map Send_resources_list [session1; session2]
  /\ printed (ui run.2)
     = printed (ui w)
       ++ Fetching_resources
          :: map (fun p => Resources_panel (p.1 + 1) None)
               (enumerate [session1; session2]).
Proof.
  apply (list_resources_tolerates_empty (sample_answer JNull (Value JNull))
           "linux" None None loads (fun _ => JNull) [session1; session2]
           (sample_input [])).
  - reflexivity.
  - reflexivity.
Defined.

Lemma run_without_connection_exits_nothing_witness :
  let w := sample_input [] in
  let answer := sample_answer JNull (Value JNull) in
  let run :=
    run answer "linux" None None loads (sample_config sample_server)
      sample_default_environment sample_spawn (fun _ _ => Exit_returned)
      "server_config.json" ["sqlite"; "files"] None w in
  exited (ui run.2) = exited (ui w)
  /\ run.1
     = match (connect answer (sample_config sample_server)
                sample_default_environment sample_spawn "server_config.json"
                ["sqlite"; "files"] [] (clear_screen "linux" w).2).1 with
       | Value _ => Value tt
       | Error e => Error e
       end.
Proof.
  apply (run_without_connection_exits_nothing
           (sample_answer JNull (Value JNull)) "linux" None None loads
           (sample_config sample_server) sample_default_environment
           sample_spawn (fun _ _ => Exit_returned) "server_config.json"
           ["sqlite"; "files"] None (sample_input [])).
  intros ss H. vm_compute in H. discriminate H.
Defined.

Lemma failing_exit_stops_cleanup_witness :
  let w := sample_input [] in
  let child :=
    mkProcess 4242%Z (command sample_server :: unpack (args sample_server))
      (launch_environment sample_default_environment sample_server) in
  let run :=
    run (sample_answer (JBool true) (Value JNull)) "linux" None None loads
      (sample_config sample_server) sample_default_environment sample_spawn
      (fun _ _ => Exit_raised TypeError) "server_config.json"
      ["sqlite"; "files"] (Some "ping") w in
  run.1 = Error TypeError
  /\ exited (ui run.2) = exited (ui w) ++ [] ++ [child].
Proof.
  apply (failing_exit_stops_cleanup
           (sample_answer (JBool true) (Value JNull)) "linux" None None loads
           (sample_config sample_server) sample_default_environment
           sample_spawn (fun _ _ => Exit_raised TypeError)
           "server_config.json" ["sqlite"; "files"] (Some "ping") []
           (mkProcess 4242%Z
              (command sample_server :: unpack (args sample_server))
              (launch_environment sample_default_environment sample_server))
           [mkProcess 4242%Z
              (command sample_server :: unpack (args sample_server))
              (launch_environment sample_default_environment sample_server)]
           TypeError (sample_input [])
           (connect (sample_answer (JBool true) (Value JNull))
              (sample_config sample_server) sample_default_environment
              sample_spawn "server_config.json" ["sqlite"; "files"] []
              (clear_screen "linux" (sample_input [])).2).2).
  - reflexivity.
  - intros h cm e Hin. by apply elem_of_nil in Hin.
  - reflexivity.
Defined.

Lemma failed_initialization_exits_with_status_0_witness :
  let w := sample_input [] in
  let parsed :=
    mkArguments "server_config.json" ["sqlite"; "files"] false None "openai"
      None in
  let cmdline := command sample_server :: unpack (args sample_server) in
  let environment :=
    launch_environment sample_default_environment sample_server in
  let run :=
    cli_main (sample_answer JNull (Value JNull)) "linux" loads
      (sample_config sample_server) sample_default_environment sample_spawn
      (fun _ _ => Exit_returned) (fun _ => Error (OtherException "OSError"))
      parsed w in
  run.1 = Value 0%Z
  /\ opened run.2
     = opened w
       ++ [Create_memory_object_stream 0; Create_memory_object_stream 0;
           Open_process cmdline environment;
           Log_subprocess_started 4242 (command sample_server)]
  /\ exited (ui run.2) = exited (ui w)
  /\ printed (ui run.2) = printed (ui w) ++ [Initialization_failed "sqlite"].
Proof.
  apply (failed_initialization_exits_with_status_0
           (sample_answer JNull (Value JNull)) "linux" loads
           (sample_config sample_server) sample_default_environment
           sample_spawn (fun _ _ => Exit_returned)
           (fun _ => Error (OtherException "OSError"))
           (mkArguments "server_config.json" ["sqlite"; "files"] false None
              "openai" None)
           "sqlite" ["files"] sample_server 4242%Z JNull (sample_input [])).
  - reflexivity.
  - reflexivity.
  - reflexivity.
  - intros [H | H]; discriminate H.
  - reflexivity.
  - reflexivity.
  - reflexivity.
Defined.

Lemma invalid_parameters_exit_with_status_1_witness :
  let w := sample_input [] in
  let server := mkParams "python" (ArgsStr "server.py") None in
  let parsed :=
    mkArguments "server_config.json" [] true (Some "ping") "openai" None in
  let run :=
    cli_main (sample_answer (JBool true) (Value JNull)) "linux" loads
      (sample_config server) sample_default_environment sample_spawn
      (fun _ _ => Exit_returned) (fun _ => Value ["sqlite"; "files"])
      parsed w in
  run.1 = Value 1%Z
  /\ (exists msg,
        printed (ui run.2)
        = printed (ui w) ++ [Error_occurred (Transport (ValueError msg))])
  /\ opened run.2 = opened w
  /\ asked (ui run.2) = asked (ui w)
  /\ exited (ui run.2) = exited (ui w).
Proof.
  apply (invalid_parameters_exit_with_status_1
           (sample_answer (JBool true) (Value JNull)) "linux" loads
           (sample_config (mkParams "python" (ArgsStr "server.py") None))
           sample_default_environment sample_spawn
           (fun _ _ => Exit_returned) (fun _ => Value ["sqlite"; "files"])
           (mkArguments "server_config.json" [] true (Some "ping") "openai"
              None)
           "sqlite" ["files"] (mkParams "python" (ArgsStr "server.py") None)
           (sample_input [])).
  - reflexivity.
  - reflexivity.
  - right. reflexivity.
Defined.
